(** * Bulk-aware model serializers (restframework_sassan)

    A shallow embedding of [BulkListSerializer] and [BaseModelSerializer]
    from [serializers.py] (the basic module) and
    [restframework_sassan/serializers.py] (the extended module), and the
    properties of their [update], [create], [to_internal_value] and
    [__init__] methods; and of the date and time fields of the two
    modules.

    Python objects that the code mutates and shares by reference (payload
    mappings, model instances) live in a heap; the persistence layer and
    the parts of the serialization framework the methods call into
    ([super()] methods, the child serializer, nested serializers) are
    collaborators: arbitrary state transformers that may raise.  Every
    call to a collaborator is recorded, in call order, in a log. *)

From Stdlib Require Import ZArith String Ascii List Lia Bool.
From stdpp Require Import base option list gmap strings fin_maps pretty.

Set Warnings "-clear-no-such-hyp".

(** ** Python values, exceptions, results *)

Abbreviation loc := positive.
Abbreviation oid := positive.

#[warnings="-register-all"]
Inductive value : Type :=
| VNone
| VEmpty                              (* rest_framework.fields.empty *)
| VBool (b : bool)
| VInt (z : Z)
| VStr (s : string)
| VList (l : list value)
| VMap (l : loc)                      (* a dict, by reference *)
| VRec (o : oid)                      (* a model instance, by reference *)
| VManager (o : oid) (f : string).    (* related manager of instance o *)

Inductive exn : Type :=
| KeyError (k : string)
| TypeError
| ValueError
| AttributeError (a : string)
| ValidationError (msg : string)
| DoesNotExist
| MultipleObjectsReturned
| FieldDoesNotExist (f : string)
| DatabaseError (msg : string)
| OverflowError
| RecursionLimit.

Inductive result (A : Type) : Type :=
| Ok (a : A)
| Raise (e : exn).
Arguments Ok {A} a.
Arguments Raise {A} e.

(** Truth value of an object, as [if x:] takes it. *)
Definition truthy (v : value) : bool :=
  match v with
  | VNone => false
  | VEmpty => true
  | VBool b => b
  | VInt z => negb (z =? 0)%Z
  | VStr s => negb (String.eqb s "")
  | VList l => match l with [] => false | _ => true end
  | VMap _ => true
  | VRec _ => true
  | VManager _ _ => true
  end.

(** ** Strings: [in], [partition], [split], [int] *)

Definition dot : ascii := "."%char.
Definition comma : ascii := ","%char.

(** ['.' in s] *)
Fixpoint contains (c : ascii) (s : string) : bool :=
  match s with
  | EmptyString => false
  | String a s' => if Ascii.eqb a c then true else contains c s'
  end.

(** [s.partition(c)]: the part before the first [c], the separator found
    (empty when there is none) and the part after it. *)
Fixpoint partition (c : ascii) (s : string) : string * string * string :=
  match s with
  | EmptyString => (EmptyString, EmptyString, EmptyString)
  | String a s' =>
      if Ascii.eqb a c then (EmptyString, String c EmptyString, s')
      else
        match partition c s' with
        | (hd, EmptyString, _) => (String a s', EmptyString, EmptyString)
        | (hd, sep, tl) => (String a hd, sep, tl)
        end
  end.

Definition part0 (p : string * string * string) : string := fst (fst p).
Definition part2 (p : string * string * string) : string := snd p.

(** [s.split(c)] *)
Fixpoint split (c : ascii) (s : string) : list string :=
  match s with
  | EmptyString => [EmptyString]
  | String a s' =>
      if Ascii.eqb a c then EmptyString :: split c s'
      else
        match split c s' with
        | [] => [String a EmptyString]
        | w :: ws => String a w :: ws
        end
  end.

Definition is_space (c : ascii) : bool :=
  let n := nat_of_ascii c in
  (Nat.eqb n 32) || ((Nat.leb 9 n) && (Nat.leb n 13)).

Definition digit_of (c : ascii) : option Z :=
  let n := nat_of_ascii c in
  if (Nat.leb 48 n) && (Nat.leb n 57) then Some (Z.of_nat (n - 48)) else None.

Fixpoint lstrip (s : string) : string :=
  match s with
  | EmptyString => EmptyString
  | String a s' => if is_space a then lstrip s' else s
  end.

Fixpoint rstrip (s : string) : string :=
  match s with
  | EmptyString => EmptyString
  | String a s' =>
      match rstrip s' with
      | EmptyString => if is_space a then EmptyString else String a EmptyString
      | r => String a r
      end
  end.

(** Decimal digits, single underscores allowed between two digits. *)
Fixpoint parse_digits (acc : Z) (after_digit : bool) (s : string) : option Z :=
  match s with
  | EmptyString => if after_digit then Some acc else None
  | String a s' =>
      match digit_of a with
      | Some d => parse_digits (acc * 10 + d)%Z true s'
      | None =>
          if Ascii.eqb a "_"%char && after_digit
          then parse_digits acc false s'
          else None
      end
  end.

(** [int(s)] for a string of ASCII characters, base 10. *)
Definition int_of_string (s : string) : option Z :=
  match lstrip (rstrip s) with
  | String "+"%char r => parse_digits 0 false r
  | String "-"%char r => Z.opp <$> parse_digits 0 false r
  | t => parse_digits 0 false t
  end.

(** [int(v)] *)
Definition py_int (v : value) : result Z :=
  match v with
  | VInt z => Ok z
  | VBool b => Ok (Z.b2z b)
  | VStr s =>
      match int_of_string s with
      | Some z => Ok z
      | None => Raise ValueError
      end
  | _ => Raise TypeError
  end.

(** ** Model instances, the heap, the collaborators' world *)

(** What a model knows of one of its fields, as far as reading and
    assigning the attribute of that name goes. *)
Inductive relation : Type :=
| Column    (* a field that is no relation *)
| ToOne     (* [ForeignKey], [OneToOneField] *)
| ToMany.   (* [ManyToManyField], [ManyToManyRel], [ManyToOneRel] *)

Global Instance relation_eq_dec : EqDecision relation.
Proof. solve_decision. Defined.

(** A model instance: [meta] is what [_meta.get_field] knows, a field
    name being mapped to the kind of the field (relations are modelled
    under the name of their accessor); [attrs] are the instance's
    attributes. *)
Record inst : Type := Inst {
  meta : gmap string relation;
  attrs : gmap string value;
}.

Global Instance inst_inhabited : Inhabited inst := populate (Inst ∅ ∅).

(** What the collaborators see and may change: the payload mappings, the
    in-memory model instances and the state of the persistence layer.  A
    reference that was never written denotes an empty mapping (an instance
    without attributes). *)
Record world (Store : Type) : Type := World {
  dicts : gmap loc (gmap string value);
  insts : gmap oid inst;
  db : Store;
}.
Arguments World {Store} _ _ _.
Arguments dicts {Store} _.
Arguments insts {Store} _.
Arguments db {Store} _.

(** A nested serializer as [type(self)(instance, data=..., partial=...)]
    builds it. *)
Record serializer : Type := Serializer {
  ser_instance : option value;
  ser_data : loc;
  ser_partial : bool;
}.

(** Calls to collaborators. *)
Inductive event : Type :=
| EvCount (lookup : string) (ids : list Z)      (* queryset.filter(..).count() *)
| EvFetch (lookup : string) (ids : list Z)      (* iterating the filtered queryset *)
| EvChildUpdate (obj : value) (payload : value) (* self.child.update *)
| EvGet (lookup : string) (v : value)           (* Model.objects.get *)
| EvCreate (kwargs : list (string * value))     (* Model.objects.create *)
| EvSave (o : oid)                              (* instance.save() *)
| EvRelatedSet (o : oid) (f : string) (v : value) (* manager.set(values) *)
| EvSuperToInternalValue (data : loc)
| EvSuperUpdate (o : oid) (payload : loc)
| EvIsValid (s : serializer)
| EvSerializerSave (s : serializer).

Record state (Store : Type) : Type := State {
  wld : world Store;
  log : list event;
}.
Arguments State {Store} _ _.
Arguments wld {Store} _.
Arguments log {Store} _.

(** The persistence layer: the object-relational mapper and the
    database behind it.
    - [objects_get], [objects_create], [instance_save] and [related_set]
      are [Model.objects.get], [Model.objects.create], [instance.save()]
      and [manager.set(values)].
    - [to_one_set instances i name x] is what the descriptor of the
      to-one relation [name] makes of [setattr(i, name, x)]: the
      attributes of the instance once [x] is assigned, or the error it
      raises ([ValueError] for a value that is no instance of the related
      model).
    - [lookup_exact name k i] tells whether the database takes the record
      [i] to have the key [k] under [name], the key being converted to the
      type of the field ([1] finds ['1'] in a character column).
    - [queryset_count name keys] and [queryset_iter name keys] send the
      statements that count, respectively read, the records of a queryset
      filtered by [name__in=keys]; they may raise, an error of the
      conversion of the keys included. *)
Record store_ops (Store : Type) : Type := StoreOps {
  objects_get : string → value → Store → result inst * Store;
  objects_create : list (string * value) → Store → result inst * Store;
  instance_save : inst → Store → result unit * Store;
  related_set : inst → string → value → Store → result unit * Store;
  to_one_set :
    gmap oid inst → inst → string → value → result (gmap string value);
  lookup_exact : string → Z → inst → bool;
  queryset_count : string → list Z → Store → result unit * Store;
  queryset_iter : string → list Z → Store → result unit * Store;
}.
Arguments objects_get {Store} _ _ _ _.
Arguments objects_create {Store} _ _ _.
Arguments instance_save {Store} _ _ _.
Arguments related_set {Store} _ _ _ _ _.
Arguments to_one_set {Store} _ _ _ _ _.
Arguments lookup_exact {Store} _ _ _ _.
Arguments queryset_count {Store} _ _ _ _.
Arguments queryset_iter {Store} _ _ _ _.

(** The serialization framework: the methods of the parent classes, the
    child serializer of a list serializer, and validation and saving of a
    nested serializer. *)
Record framework (Store : Type) : Type := Framework {
  super_to_internal_value : loc → world Store → result loc * world Store;
  super_update : oid → loc → world Store → result value * world Store;
  child_update : value → value → world Store → result value * world Store;
  serializer_is_valid : serializer → world Store → result loc * world Store;
  serializer_save : serializer → loc → world Store → result value * world Store;
}.
Arguments super_to_internal_value {Store} _ _ _.
Arguments super_update {Store} _ _ _ _.
Arguments child_update {Store} _ _ _ _.
Arguments serializer_is_valid {Store} _ _ _.
Arguments serializer_save {Store} _ _ _ _.

(** ** The state-and-exception monad *)

Definition M (Store A : Type) : Type := state Store → result A * state Store.

Definition ret {Store A} (a : A) : M Store A := fun s => (Ok a, s).

Definition raise {Store A} (e : exn) : M Store A := fun s => (Raise e, s).

Definition bind {Store A B} (m : M Store A) (k : A → M Store B) : M Store B :=
  fun s =>
    match m s with
    | (Ok a, s') => k a s'
    | (Raise e, s') => (Raise e, s')
    end.

Declare Scope py_scope.
Delimit Scope py_scope with py.
Notation "x <- m ;; k" := (bind m (fun x => k))
  (at level 100, m at next level, right associativity) : py_scope.
Notation "m ;; k" := (bind m (fun _ => k))
  (at level 100, right associativity) : py_scope.
Local Open Scope py_scope.

(** [for x in l: body x] *)
Fixpoint for_each {Store A} (l : list A) (body : A → M Store unit) : M Store unit :=
  match l with
  | [] => ret tt
  | x :: l' => body x ;; for_each l' body
  end.

Section Heap.
Context {Store : Type}.

Definition gets {A} (f : world Store → A) : M Store A :=
  fun s => (Ok (f (wld s)), s).

Definition modify (f : world Store → world Store) : M Store unit :=
  fun s => (Ok tt, State (f (wld s)) (log s)).

(** A collaborator call: run it on the world, record it in the log. *)
Definition call {A} (ev : event) (f : world Store → result A * world Store)
  : M Store A :=
  fun s => let (r, w) := f (wld s) in (r, State w (log s ++ [ev])).

(** A call that only concerns the persistence layer. *)
Definition on_db {A} (f : Store → result A * Store)
  : world Store → result A * world Store :=
  fun w => let (r, st) := f (db w) in (r, World (dicts w) (insts w) st).

Definition dict_of (w : world Store) (d : loc) : gmap string value :=
  dicts w !!! d.

Definition inst_of (w : world Store) (o : oid) : inst :=
  insts w !!! o.

Definition set_dict (d : loc) (m : gmap string value) (w : world Store)
  : world Store :=
  World (<[d := m]> (dicts w)) (insts w) (db w).

Definition set_inst (o : oid) (i : inst) (w : world Store) : world Store :=
  World (dicts w) (<[o := i]> (insts w)) (db w).

(** [k in d] *)
Definition dict_contains (d : loc) (k : string) : M Store bool :=
  gets (fun w => bool_decide (is_Some (dict_of w d !! k))).

(** [d[k]] *)
Definition dict_getitem (d : loc) (k : string) : M Store value :=
  m <- gets (fun w => dict_of w d) ;;
  match m !! k with
  | Some v => ret v
  | None => raise (KeyError k)
  end.

(** [d.pop(k)] *)
Definition dict_pop (d : loc) (k : string) : M Store value :=
  m <- gets (fun w => dict_of w d) ;;
  match m !! k with
  | Some v => modify (set_dict d (delete k m)) ;; ret v
  | None => raise (KeyError k)
  end.

(** [del d[k]] *)
Definition dict_delitem (d : loc) (k : string) : M Store unit :=
  m <- gets (fun w => dict_of w d) ;;
  match m !! k with
  | Some _ => modify (set_dict d (delete k m))
  | None => raise (KeyError k)
  end.

(** [d[k] = v] *)
Definition dict_setitem (d : loc) (k : string) (v : value) : M Store unit :=
  m <- gets (fun w => dict_of w d) ;;
  modify (set_dict d (<[k := v]> m)).

(** [v[k]] for a string key: only mappings can be subscripted by one. *)
Definition py_getitem (v : value) (k : string) : M Store value :=
  match v with
  | VMap d => dict_getitem d k
  | _ => raise TypeError
  end.

(** [v.pop(k)] for a string key. *)
Definition py_pop (v : value) (k : string) : M Store value :=
  match v with
  | VMap d => dict_pop d k
  | VList _ => raise TypeError
  | _ => raise (AttributeError "pop")
  end.

(** [del v[k]] for a string key. *)
Definition py_delitem (v : value) (k : string) : M Store unit :=
  match v with
  | VMap d => dict_delitem d k
  | _ => raise TypeError
  end.

(** [len(v)] *)
Definition py_len (v : value) : M Store nat :=
  match v with
  | VMap d => gets (fun w => size (dict_of w d))
  | VList l => ret (length l)
  | VStr s => ret (String.length s)
  | _ => raise TypeError
  end.

(** [getattr(v, name)]; only the attributes of model instances are
    modelled.  A to-many relation of the model reads as the related
    manager bound to the instance. *)
Definition py_getattr (v : value) (name : string) : M Store value :=
  match v with
  | VRec o =>
      i <- gets (fun w => inst_of w o) ;;
      match meta i !! name with
      | Some ToMany => ret (VManager o name)
      | _ =>
          match attrs i !! name with
          | Some x => ret x
          | None => raise (AttributeError name)
          end
      end
  | _ => raise (AttributeError name)
  end.

(** A fresh model instance. *)
Definition new_inst (i : inst) : M Store oid :=
  o <- gets (fun w => fresh (dom (insts w))) ;;
  modify (set_inst o i) ;;
  ret o.

Context (DB : store_ops Store).

(** What [setattr(i, name, x)] makes of the instance [i].  Direct
    assignment to a to-many relation is prohibited ([TypeError], Django
    2.0 and later); a to-one relation has a descriptor that checks the
    value; any other name is an ordinary attribute. *)
Definition descriptor_set (instances : gmap oid inst) (i : inst)
    (name : string) (x : value) : result inst :=
  match meta i !! name with
  | Some ToMany => Raise TypeError
  | Some ToOne =>
      match to_one_set DB instances i name x with
      | Ok a => Ok (Inst (meta i) a)
      | Raise e => Raise e
      end
  | _ => Ok (Inst (meta i) (<[name := x]> (attrs i)))
  end.

(** [setattr(v, name, x)] *)
Definition py_setattr (v : value) (name : string) (x : value) : M Store unit :=
  match v with
  | VRec o =>
      w <- gets (fun w => w) ;;
      match descriptor_set (insts w) (inst_of w o) name x with
      | Ok i => modify (set_inst o i)
      | Raise e => raise e
      end
  | _ => raise (AttributeError name)
  end.

(** [v.save()] *)
Definition py_save (v : value) : M Store unit :=
  match v with
  | VRec o =>
      i <- gets (fun w => inst_of w o) ;;
      call (EvSave o) (on_db (instance_save DB i))
  | _ => raise (AttributeError "save")
  end.

(** [m.set]: looking up the method, which only related managers have.
    In [m.set(x)] this comes before [x] is evaluated. *)
Definition bound_set (m : value) : M Store value :=
  match m with
  | VManager _ _ => ret m
  | _ => raise (AttributeError "set")
  end.

(** Calling [m.set] on [x]. *)
Definition py_set (m : value) (x : value) : M Store unit :=
  match m with
  | VManager o f =>
      i <- gets (fun w => inst_of w o) ;;
      call (EvRelatedSet o f x) (on_db (related_set DB i f x))
  | _ => raise (AttributeError "set")
  end.

(** [Model.objects.get] with the one keyword argument [k = v] *)
Definition model_get (k : string) (v : value) : M Store value :=
  i <- call (EvGet k v) (on_db (objects_get DB k v)) ;;
  o <- new_inst i ;;
  ret (VRec o).

(** [Model.objects.create] with keyword arguments [kwargs] *)
Definition model_create (kwargs : list (string * value)) : M Store value :=
  i <- call (EvCreate kwargs) (on_db (objects_create DB kwargs)) ;;
  o <- new_inst i ;;
  ret (VRec o).

End Heap.

(** Lifting a pure computation that may raise. *)
Definition lift {Store A} (r : result A) : M Store A :=
  match r with
  | Ok a => ret a
  | Raise e => raise e
  end.

(** ** [BulkListSerializer] (the same in both modules) *)

Module BulkListSerializer.
Section Update.
Context {Store : Type} (DB : store_ops Store) (F : framework Store).

(** [getattr(self.child.Meta, 'update_lookup_field', 'id')] *)
Variable id_attr : string.

(** The dict comprehension
    [{int(i.pop(id_attr)): i for i in all_validated_data}]. *)
Fixpoint by_id (all_validated_data : list loc) (acc : gmap Z loc)
  : M Store (gmap Z loc) :=
  match all_validated_data with
  | [] => ret acc
  | i :: rest =>
      v <- dict_pop i id_attr ;;
      k <- lift (py_int v) ;;
      by_id rest (<[k := i]> acc)
  end.

(** [queryset.filter(id_attr__in=keys)]: the records of the queryset, in
    its order, that the database takes to have one of the keys under
    [id_attr].  The queryset is lazy: this is what a query on it finds
    when it runs. *)
Definition filter_in (w : world Store) (keys : gset Z) (queryset : list oid)
  : list oid :=
  List.filter
    (fun o => existsb (fun k => lookup_exact DB id_attr k (inst_of w o))
                      (elements keys))
    queryset.

(** Running a query on the filtered queryset.  Without any key the
    mapper knows the result to be empty and sends nothing; otherwise it
    sends the statement, which may raise. *)
Definition execute (query : string → list Z → Store → result unit * Store)
    (keys : gset Z) (w : world Store) : result unit * world Store :=
  if decide (keys = ∅) then (Ok tt, w)
  else on_db (query id_attr (elements keys)) w.

(** What a query gives: the rows, unless it raised. *)
Definition answer {A} (rows : world Store → A)
    (rw : result unit * world Store) : result A * world Store :=
  match rw with
  | (Ok _, w) => (Ok (rows w), w)
  | (Raise e, w) => (Raise e, w)
  end.

(** [objects_to_update.count()] *)
Definition count (keys : gset Z) (queryset : list oid) : M Store nat :=
  call (EvCount id_attr (elements keys))
       (fun w => answer (fun w' => length (filter_in w' keys queryset))
                        (execute (queryset_count DB) keys w)).

(** Evaluating [objects_to_update] for iteration. *)
Definition fetch (keys : gset Z) (queryset : list oid) : M Store (list oid) :=
  call (EvFetch id_attr (elements keys))
       (fun w => answer (fun w' => filter_in w' keys queryset)
                        (execute (queryset_iter DB) keys w)).

(** [all_validated_data_by_id.get(obj_id)] *)
Definition get (m : gmap Z loc) (obj_id : value) : result value :=
  match obj_id with
  | VInt z => Ok (from_option VMap VNone (m !! z))
  | VBool b => Ok (from_option VMap VNone (m !! Z.b2z b))
  | VList _ | VMap _ => Raise TypeError
  | _ => Ok VNone
  end.

(** The loop [for obj in self.objects_to_update]. *)
Fixpoint update_loop (objs : list oid) (m : gmap Z loc)
    (updated_objects : list value) : M Store (list value) :=
  match objs with
  | [] => ret updated_objects
  | obj :: rest =>
      obj_id <- py_getattr (VRec obj) id_attr ;;
      obj_validated_data <- lift (get m obj_id) ;;
      r <- call (EvChildUpdate (VRec obj) obj_validated_data)
                (child_update F (VRec obj) obj_validated_data) ;;
      update_loop rest m (updated_objects ++ [r])
  end.

Definition not_found : string := "Could not find all objects to update.".

Definition update (queryset : list oid) (all_validated_data : list loc)
  : M Store (list value) :=
  all_validated_data_by_id <- by_id all_validated_data ∅ ;;
  let keys := dom all_validated_data_by_id in
  n <- count keys queryset ;;
  if negb (Nat.eqb (size all_validated_data_by_id) n)
  then raise (ValidationError not_found)
  else
    objs <- fetch keys queryset ;;
    update_loop objs all_validated_data_by_id [].

End Update.
End BulkListSerializer.

(** ** [BaseModelSerializer] *)

Module BaseModelSerializer.

(** The two modules of the repository. *)
Inductive variant : Type :=
  | Basic       (* serializers.py *)
  | Extended.   (* restframework_sassan/serializers.py *)

(** What [isinstance] distinguishes among serializer fields. *)
Inductive field_kind : Type :=
  | KField
  | KSerializer
  | KListSerializer
  | KManyRelatedField.

Record field : Type := Field {
  kind : field_kind;
  source : string;
}.

(** [isinstance(f, (serializers.ListSerializer, serializers.ManyRelatedField))] *)
Definition is_plural (f : field) : bool :=
  match kind f with
  | KListSerializer | KManyRelatedField => true
  | _ => false
  end.

(** [isinstance(f, (serializers.Serializer, serializers.ListSerializer))] *)
Definition is_nested (f : field) : bool :=
  match kind f with
  | KSerializer | KListSerializer => true
  | _ => false
  end.

(** [self.fields[name]] on the ordered mapping of fields. *)
Fixpoint fields_getitem (fields : list (string * field)) (name : string)
  : result field :=
  match fields with
  | [] => Raise (KeyError name)
  | (n, f) :: rest => if String.eqb n name then Ok f else fields_getitem rest name
  end.

(** [self.fields.pop(name)] *)
Definition fields_pop (name : string) (fields : list (string * field))
  : result (list (string * field)) :=
  match fields_getitem fields name with
  | Ok _ => Ok (List.filter (fun nf => negb (String.eqb (fst nf) name)) fields)
  | Raise e => Raise e
  end.

(** [kwargs.pop(name, None)] *)
Fixpoint kwargs_pop (kwargs : list (string * value)) (name : string) : value :=
  match kwargs with
  | [] => VNone
  | (n, v) :: rest => if String.eqb n name then v else kwargs_pop rest name
  end.

(** [fields.split(',')]: strings have the method, other objects raise. *)
Definition py_split (v : value) : result (list string) :=
  match v with
  | VStr s => Ok (split comma s)
  | _ => Raise (AttributeError "split")
  end.

Definition mem (x : string) (l : list string) : bool :=
  existsb (String.eqb x) l.

(** [for field_name in existing - allowed: self.fields.pop(field_name)] *)
Fixpoint pop_all (names : list string) (fields : list (string * field))
  : result (list (string * field)) :=
  match names with
  | [] => Ok fields
  | n :: rest =>
      match fields_pop n fields with
      | Ok fields' => pop_all rest fields'
      | Raise e => Raise e
      end
  end.

(** The constructor.  [super_init] is the constructor of the parent class:
    it receives the keyword arguments as given and builds [self.fields].
    The result is [self.fields] after construction. *)
Definition __init__
    (super_init : list (string * value) → result (list (string * field)))
    (kwargs : list (string * value)) : result (list (string * field)) :=
  match super_init kwargs with
  | Raise e => Raise e
  | Ok self_fields =>
      let fields := kwargs_pop kwargs "fields" in
      if truthy fields then
        match py_split fields with
        | Raise e => Raise e
        | Ok allowed =>
            let existing := map fst self_fields in
            pop_all (List.filter (fun n => negb (mem n allowed)) existing)
                    self_fields
        end
      else Ok self_fields
  end.

(** The keyword arguments the framework's serializer constructor takes:
    [BaseSerializer.__init__] takes [instance] and [data], removes
    [partial], [context] and [many], and hands the rest to
    [Field.__init__], whose keywords are fixed. *)
Definition framework_keywords : list string :=
  [ "instance"; "data"; "partial"; "context"; "many";
    "read_only"; "write_only"; "required"; "default"; "initial"; "source";
    "label"; "help_text"; "style"; "error_messages"; "validators";
    "allow_null" ]%string.

(** The framework's constructor for a serializer class that declares
    [declared]: any other keyword is a [TypeError]. *)
Definition framework_init (declared : list (string * field))
    (kwargs : list (string * value)) : result (list (string * field)) :=
  if forallb (fun kv => mem (fst kv) framework_keywords) kwargs
  then Ok declared
  else Raise TypeError.

(** The class of [self.parent]. *)
Inductive serializer_class : Type :=
  | CSerializer
  | CListSerializer
  | CBulkListSerializer.

Record parent : Type := Parent {
  parent_class : serializer_class;
  parent_parent : bool;   (* whether [self.parent.parent] is set *)
}.

(** [self.context]: without a view, with a view that has no request, or
    with a request, whose [method] attribute may be missing. *)
Inductive context : Type :=
  | NoView
  | ViewNoRequest
  | Request (method : option string).

Definition isinstance_list (p : option parent) : bool :=
  match p with
  | Some (Parent CListSerializer _) | Some (Parent CBulkListSerializer _) => true
  | _ => false
  end.

Definition isinstance_bulk (p : option parent) : bool :=
  match p with
  | Some (Parent CBulkListSerializer _) => true
  | _ => false
  end.

(** [not self.parent or isinstance(self.parent, ListSerializer) and
    not self.parent.parent] *)
Definition root_level (p : option parent) : bool :=
  match p with
  | None => true
  | Some q => isinstance_list p && negb (parent_parent q)
  end.

(** [getattr(self.context['view'].request, 'method', '')] *)
Definition read_method (ctx : context) : result value :=
  match ctx with
  | NoView => Raise (KeyError "view")
  | ViewNoRequest => Raise (AttributeError "request")
  | Request m => Ok (VStr (default EmptyString m))
  end.

(** The basic module reads the method unguarded; the extended one wraps
    the read in [try ... except BaseException: request_method = None]. *)
Definition method_of_request (var : variant) (ctx : context) : result value :=
  match var, read_method ctx with
  | Extended, Raise _ => Ok VNone
  | _, r => r
  end.

(** [request_method in ('PUT', 'PATCH')] *)
Definition put_or_patch (m : value) : bool :=
  match m with
  | VStr s => String.eqb s "PUT" || String.eqb s "PATCH"
  | _ => false
  end.

(** [d[k] = v] on a local, insertion-ordered dict. *)
Fixpoint assoc_set (k : string) (v : value) (d : list (string * value))
  : list (string * value) :=
  match d with
  | [] => [(k, v)]
  | (k', v') :: rest =>
      if String.eqb k' k then (k, v) :: rest else (k', v') :: assoc_set k v rest
  end.

Section Methods.
Context {Store : Type} (DB : store_ops Store) (F : framework Store).

Variable var : variant.

(** [self.fields], in order; a field is bound under its name. *)
Variable fields : list (string * field).

(** [getattr(self.Meta, 'update_lookup_field', 'id')] *)
Variable id_attr : string.

Variable self_parent : option parent.
Variable self_context : context.

(** [id_field.get_value(data)] for input that is not an HTML form:
    [data.get(field_name, empty)]. *)
Definition get_value (field_name : string) (data : loc) : M Store value :=
  m <- gets (fun w => dict_of w data) ;;
  ret (default VEmpty (m !! field_name)).

(** The nested serializer of the extended module:
    [serializer.is_valid(raise_exception=True); return serializer.save()]. *)
Definition validate_and_save (serializer : serializer) : M Store value :=
  validated <- call (EvIsValid serializer) (serializer_is_valid F serializer) ;;
  call (EvSerializerSave serializer) (serializer_save F serializer validated).

Definition to_internal_value (data : loc) : M Store value :=
  if root_level self_parent then
    ret_ <- call (EvSuperToInternalValue data) (super_to_internal_value F data) ;;
    request_method <- lift (method_of_request var self_context) ;;
    if isinstance_bulk self_parent && truthy (VStr id_attr)
       && put_or_patch request_method
    then
      id_field <- lift (fields_getitem fields id_attr) ;;
      id_value <- get_value id_attr data ;;
      dict_setitem ret_ id_attr id_value ;;
      ret (VMap ret_)
    else ret (VMap ret_)
  else
    has_id <- dict_contains data id_attr ;;
    if has_id then
      id_value <- dict_getitem data id_attr ;;
      instance <- model_get DB id_attr id_value ;;
      match var with
      | Basic => ret instance
      | Extended => validate_and_save (Serializer (Some instance) data true)
      end
    else
      match var with
      | Basic =>
          ret_ <- call (EvSuperToInternalValue data)
                       (super_to_internal_value F data) ;;
          ret (VMap ret_)
      | Extended => validate_and_save (Serializer None data false)
      end.

(** The first loop of [create]: [data] and [many_to_many_fields]. *)
Fixpoint partition_fields (fs : list (string * field)) (validated_data : loc)
    (data many_to_many_fields : list (string * value))
  : M Store (list (string * value) * list (string * value)) :=
  match fs with
  | [] => ret (data, many_to_many_fields)
  | (field, f) :: rest =>
      present <- dict_contains validated_data field ;;
      if present then
        v <- dict_getitem validated_data field ;;
        if is_plural f
        then partition_fields rest validated_data data
               (assoc_set field v many_to_many_fields)
        else partition_fields rest validated_data
               (assoc_set field v data) many_to_many_fields
      else partition_fields rest validated_data data many_to_many_fields
  end.

(** Attaching one plural field: [setattr(instance, field, values)] in
    the basic module, [getattr(instance, field).set(values)] in the
    extended one. *)
Definition attach (instance : value) (fv : string * value) : M Store unit :=
  match var with
  | Basic => py_setattr DB instance (fst fv) (snd fv)
  | Extended =>
      manager <- py_getattr instance (fst fv) ;;
      set_ <- bound_set manager ;;
      py_set DB set_ (snd fv)
  end.

Definition create (validated_data : loc) : M Store value :=
  dm <- partition_fields fields validated_data [] [] ;;
  instance <- model_create DB (fst dm) ;;
  for_each (snd dm) (attach instance) ;;
  py_save DB instance ;;
  ret instance.

(** The loop [while '.' in source] of [update].  The source loses at
    least one character per turn, so its length bounds the turns. *)
Fixpoint walk (fuel : nat) (source : string) (v ins : value)
    (path : list (string * value))
  : M Store (value * value * list (string * value)) :=
  if contains dot source then
    match fuel with
    | O => raise RecursionLimit
    | S fuel' =>
        let attr := part0 (partition dot source) in
        v' <- py_getitem v attr ;;
        ins' <- py_getattr ins attr ;;
        walk fuel' (part2 (partition dot source)) v' ins'
             (path ++ [(attr, v)])
    end
  else ret (v, ins, path).

(** [ins._meta.get_field(field)] tested against the to-many relations. *)
Definition is_to_many (ins : value) (field : string) : M Store bool :=
  match ins with
  | VRec o =>
      i <- gets (fun w => inst_of w o) ;;
      match meta i !! field with
      | Some ToMany => ret true
      | Some _ => ret false
      | None => raise (FieldDoesNotExist field)
      end
  | _ => raise (AttributeError "_meta")
  end.

(** Setting or relating the final attribute and removing it from its
    payload. *)
Definition assign (ins v : value) (field : string) : M Store unit :=
  match var with
  | Basic =>
      x <- py_pop v field ;;
      py_setattr DB ins field x
  | Extended =>
      many <- is_to_many ins field ;;
      (if many : bool then
         manager <- py_getattr ins field ;;
         set_ <- bound_set manager ;;
         x <- py_getitem v field ;;
         py_set DB set_ x
       else
         x <- py_getitem v field ;;
         py_setattr DB ins field x) ;;
      _ <- py_pop v field ;;
      ret tt
  end.

(** [for field, data in reversed(path)] *)
Definition prune (path : list (string * value)) : M Store unit :=
  for_each (rev path)
    (fun fd =>
       x <- py_getitem (snd fd) (fst fd) ;;
       n <- py_len x ;;
       if Nat.eqb n 0 then py_delitem (snd fd) (fst fd) else ret tt).

(** One turn of the loop [for field in self.fields] of [update]. *)
Definition update_field (instance : oid) (validated_data : loc)
    (nf : string * field) : M Store unit :=
  let (field, f) := nf in
  if is_nested f then
    present <- dict_contains validated_data field ;;
    if present then
      r <- walk (String.length (source f)) (source f)
                (VMap validated_data) (VRec instance) [] ;;
      let '(v, ins, path) := r in
      assign ins v field ;;
      py_save DB ins ;;
      prune path
    else ret tt
  else ret tt.

Definition update (instance : oid) (validated_data : loc) : M Store value :=
  for_each fields (update_field instance validated_data) ;;
  call (EvSuperUpdate instance validated_data)
       (super_update F instance validated_data).

End Methods.
End BaseModelSerializer.

(** ** Vocabulary of the specifications *)

Section BulkVocabulary.
Context {Store : Type}.
Variable id_attr : string.

(** The identifier a payload carries, as [int] reads it. *)
Definition payload_id (w : world Store) (l : loc) : option Z :=
  match dict_of w l !! id_attr with
  | Some v => match py_int v with Ok z => Some z | Raise _ => None end
  | None => None
  end.

(** A well-formed batch: distinct payload objects, each carrying an
    identifier that [int] converts. *)
Definition well_formed (w : world Store) (batch : list loc) : Prop :=
  NoDup batch ∧ Forall (fun l => is_Some (payload_id w l)) batch.

Definition batch_ids (w : world Store) (batch : list loc) : list Z :=
  omap (payload_id w) batch.



(** The records of the queryset that the database finds for one key. *)
Definition matching (DB : store_ops Store) (w : world Store) (k : Z)
    (queryset : list oid) : list oid :=
  List.filter (fun o => lookup_exact DB id_attr k (inst_of w o)) queryset.


(** The payloads once their identifiers have been popped. *)
Definition extracted (w : world Store) (batch : list loc) : world Store :=
  foldl (fun w l => set_dict l (delete id_attr (dict_of w l)) w) w batch.

(** The identifier-to-payload mapping: later payloads replace earlier
    ones. *)
Definition keyed (w : world Store) (batch : list loc) (acc : gmap Z loc)
  : gmap Z loc :=
  foldl (fun m l => match payload_id w l with
                    | Some z => <[z := l]> m
                    | None => m
                    end) acc batch.












End BulkVocabulary.

Section ModelVocabulary.
Context {Store : Type}.
Import BaseModelSerializer.

(** The validated fields of the serializer that are not plural, with
    their values, in field order. *)
Definition scalar_data (fields : list (string * field))
    (validated : gmap string value) : list (string * value) :=
  omap (fun nf => if is_plural (snd nf) then None
                  else pair (fst nf) <$> validated !! fst nf) fields.

(** The validated fields that are plural. *)
Definition plural_data (fields : list (string * field))
    (validated : gmap string value) : list (string * value) :=
  omap (fun nf => if is_plural (snd nf)
                  then pair (fst nf) <$> validated !! fst nf
                  else None) fields.

(** The created instance once the plural values are attached: the basic
    module assigns them as attributes, the extended one leaves the
    instance as it is and goes through the related managers. *)
Definition attached (var : variant) (i : inst) (plural : list (string * value))
  : inst :=
  match var with
  | Basic =>
      Inst (meta i)
           (foldl (fun a nv => <[fst nv := snd nv]> a) (attrs i) plural)
  | Extended => i
  end.

Definition attach_events (var : variant) (o : oid)
    (plural : list (string * value)) : list event :=
  match var with
  | Basic => []
  | Extended => map (fun nv => EvRelatedSet o (fst nv) (snd nv)) plural
  end.

(** Relating the values of the plural fields to a record, one manager
    after the other, up to the first that refuses. *)
Fixpoint relate_all (DB : store_ops Store) (i : inst)
    (plural : list (string * value)) (st : Store) : result unit * Store :=
  match plural with
  | [] => (Ok tt, st)
  | (n, v) :: rest =>
      match related_set DB i n v st with
      | (Ok _, st') => relate_all DB i rest st'
      | (Raise e, st') => (Raise e, st')
      end
  end.

(** The plural fields a module can attach to a record: the basic module
    assigns, which a name that is no relation of the record's model
    takes; the extended module goes through the related manager, which a
    to-many relation has. *)
Definition attachable (var : variant) (i : inst) (name : string) : bool :=
  match var, meta i !! name with
  | Basic, None | Basic, Some Column => true
  | Extended, Some ToMany => true
  | _, _ => false
  end.

(** What attaching the plural values asks of the store. *)
Definition attach_all (var : variant) (DB : store_ops Store) (i : inst)
    (plural : list (string * value)) (st : Store) : result unit * Store :=
  match var with
  | Basic => (Ok tt, st)
  | Extended => relate_all DB i plural st
  end.

(** A persistence layer that accepts every [set] on a related manager,
    respectively every [save]. *)
Definition accepts_sets (DB : store_ops Store) : Prop :=
  ∀ i f v st, ∃ st', related_set DB i f v st = (Ok tt, st').

Definition accepts_saves (DB : store_ops Store) : Prop :=
  ∀ i st, ∃ st', instance_save DB i st = (Ok tt, st').

End ModelVocabulary.

Section PropagationVocabulary.
Context {Store : Type}.

(** The calls that go to the persistence layer. *)
Definition store_call (ev : event) : Prop :=
  match ev with
  | EvGet _ _ | EvCreate _ | EvSave _ | EvRelatedSet _ _ _
  | EvCount _ _ | EvFetch _ _ => True
  | _ => False
  end.

(** A persistence layer that is down: every operation raises [e]. *)
Definition store_down (DB : store_ops Store) (e : exn) : Prop :=
  (∀ k v st, ∃ st', objects_get DB k v st = (Raise e, st'))
  ∧ (∀ kwargs st, ∃ st', objects_create DB kwargs st = (Raise e, st'))
  ∧ (∀ i st, ∃ st', instance_save DB i st = (Raise e, st'))
  ∧ (∀ i f v st, ∃ st', related_set DB i f v st = (Raise e, st'))
  ∧ (∀ name keys st, ∃ st', queryset_count DB name keys st = (Raise e, st'))
  ∧ (∀ name keys st, ∃ st', queryset_iter DB name keys st = (Raise e, st')).

(** Between two logs, the persistence layer was called. *)
Definition store_attempted (before after : list event) : Prop :=
  ∃ evs ev, after = before ++ evs ∧ store_call ev ∧ ev ∈ evs.

(** A computation that only extends the log and, if it calls the
    persistence layer, raises [e]. *)
Definition store_faithful {A} (e : exn) (m : M Store A) : Prop :=
  ∀ s r s', m s = (r, s') →
    ∃ evs, log s' = log s ++ evs
           ∧ ((∃ ev, store_call ev ∧ ev ∈ evs) → r = Raise e).

End PropagationVocabulary.

(** ** A small store and framework, for examples *)

Module Demo.

(** The meta data of the example model: [tags] is a to-many relation,
    [parent] a to-one relation, [name] and [id] are columns. *)
Definition model_meta : gmap string relation :=
  {[ "tags" := ToMany; "parent" := ToOne; "name" := Column;
     "id" := Column ]}%string.

(** The descriptor of a to-one relation: it takes a record or [None]. *)
Definition to_one (instances : gmap oid inst) (i : inst) (name : string)
    (x : value) : result (gmap string value) :=
  match x with
  | VNone | VRec _ => Ok (<[name := x]> (attrs i))
  | _ => Raise ValueError
  end.

(** An integer column: a key finds the records that hold that integer. *)
Definition integer_column (name : string) (k : Z) (i : inst) : bool :=
  match attrs i !! name with
  | Some (VInt z) => bool_decide (z = k)
  | _ => false
  end.

(** A store without state; its only record has identifier 7.  A query
    for an identifier of more than 63 bits overflows. *)
Definition store : store_ops unit :=
  StoreOps unit
    (fun k v st =>
       match v with
       | VInt 7 => (Ok (Inst model_meta {[ k := v ]}), st)
       | _ => (Raise DoesNotExist, st)
       end)
    (fun kwargs st => (Ok (Inst model_meta (list_to_map kwargs)), st))
    (fun i st => (Ok tt, st))
    (fun i f v st => (Ok tt, st))
    to_one
    integer_column
    (fun name keys st =>
       if forallb (fun k => Z.abs k <? 2 ^ 63)%Z keys then (Ok tt, st)
       else (Raise OverflowError, st))
    (fun name keys st =>
       if forallb (fun k => Z.abs k <? 2 ^ 63)%Z keys then (Ok tt, st)
       else (Raise OverflowError, st)).

(** The store when the database is down. *)
Definition down_store : store_ops unit :=
  StoreOps unit
    (fun k v st => (Raise (DatabaseError "down"), st))
    (fun kwargs st => (Raise (DatabaseError "down"), st))
    (fun i st => (Raise (DatabaseError "down"), st))
    (fun i f v st => (Raise (DatabaseError "down"), st))
    to_one
    integer_column
    (fun name keys st => (Raise (DatabaseError "down"), st))
    (fun name keys st => (Raise (DatabaseError "down"), st)).

(** A framework whose standard validation keeps the [name] key of the
    input in a new mapping, whose updaters return the record they are
    handed, and whose nested serializers validate to their input and
    save to their instance. *)
Definition framework : framework unit :=
  Framework unit
    (fun data w =>
       let ret_ := fresh (dom (dicts w)) in
       (Ok ret_,
        set_dict ret_
          (filter (fun kv => fst kv = "name"%string) (dict_of w data)) w))
    (fun o payload w => (Ok (VRec o), w))
    (fun obj payload w => (Ok obj, w))
    (fun ser w => (Ok (ser_data ser), w))
    (fun ser validated w => (Ok (default VNone (ser_instance ser)), w)).

(** Records 10 and 11 have identifiers 2 and 1; payloads 1, 2 and 3 carry
    the identifiers 1, "2" and 1. *)
Definition bulk_world : world unit :=
  World
    {[ 1%positive := {[ "id" := VInt 1; "name" := VStr "a" ]};
       2%positive := {[ "id" := VStr "2"; "name" := VStr "b" ]};
       3%positive := {[ "id" := VInt 1; "name" := VStr "c" ]};
       4%positive := {[ "name" := VStr "d" ]} ]}%string
    {[ 10%positive := Inst model_meta {[ "id" := VInt 2 ]};
       11%positive := Inst model_meta {[ "id" := VInt 1 ]} ]}%string
    tt.

(** Record 10 has the parent 11, which has the child 12; payload 1 nests
    payload 2 under [parent], which nests payload 3 under [child]. *)
Definition nested_world : world unit :=
  World
    {[ 1%positive := {[ "attr" := VInt 1; "parent" := VMap 2 ]};
       2%positive := {[ "child" := VMap 3 ]};
       3%positive := {[ "attr" := VInt 7 ]} ]}%string
    {[ 10%positive := Inst model_meta {[ "parent" := VRec 11 ]};
       11%positive := Inst model_meta {[ "child" := VRec 12 ]};
       12%positive := Inst {[ "attr" := Column ]} ∅ ]}%string
    tt.

(** The same records, with validated data as the framework files them
    for a field with the source [parent.child.attr]: payload 1 nests
    payload 2 under [parent], which nests payload 3 under [child], which
    holds the value under [attr]. *)
Definition filed_world : world unit :=
  World
    {[ 1%positive := {[ "parent" := VMap 2 ]};
       2%positive := {[ "child" := VMap 3 ]};
       3%positive := {[ "attr" := VInt 7 ]} ]}%string
    (insts nested_world)
    tt.

(** A validated payload with a scalar and a plural field. *)
Definition create_world : world unit :=
  World
    {[ 1%positive := {[ "name" := VStr "a";
                        "tags" := VList [VInt 3; VInt 4] ]} ]}%string
    ∅
    tt.

(** A raw input whose identifier is filed under the empty name. *)
Definition raw_world : world unit :=
  World
    {[ 1%positive := {[ "" := VInt 7; "id" := VInt 7; "name" := VStr "a" ]} ]}%string
    ∅
    tt.

End Demo.

Section UpdateVocabulary.
Context {Store : Type}.
Import BaseModelSerializer.

(** What [getattr] reads on a model instance. *)
Definition attr_of (w : world Store) (o : oid) (name : string)
  : option value :=
  match meta (inst_of w o) !! name with
  | Some ToMany => Some (VManager o name)
  | _ => attrs (inst_of w o) !! name
  end.

(** [resolves w source d o path dl ol]: in [w], the dotted [source]
    leads from the payload [d] and the record [o], one attribute per
    dot, through nested payloads and related records, to the payload
    [dl] and the record [ol]; [path] lists the attributes followed, each
    with the payload it was looked up in. *)
Inductive resolves (w : world Store)
  : string → loc → oid → list (string * loc) → loc → oid → Prop :=
| resolves_here source d o :
    contains dot source = false →
    resolves w source d o [] d o
| resolves_step source d o d' o' path dl ol :
    contains dot source = true →
    dict_of w d !! part0 (partition dot source) = Some (VMap d') →
    attr_of w o (part0 (partition dot source)) = Some (VRec o') →
    resolves w (part2 (partition dot source)) d' o' path dl ol →
    resolves w source d o ((part0 (partition dot source), d) :: path) dl ol.

(** [filed w source d x]: the mapping [d] holds the value [x] under the
    dotted [source], one nested mapping per dot, as the framework files
    the validated value of a field with that source. *)
Inductive filed (w : world Store) : string → loc → value → Prop :=
| filed_here source d x :
    contains dot source = false →
    dict_of w d !! source = Some x →
    filed w source d x
| filed_step source d d' x :
    contains dot source = true →
    dict_of w d !! part0 (partition dot source) = Some (VMap d') →
    filed w (part2 (partition dot source)) d' x →
    filed w source d x.

(** The path as the code holds it. *)
Definition path_values (path : list (string * loc))
  : list (string * value) :=
  map (fun sd => (fst sd, VMap (snd sd))) path.

(** The payload below the first step of a path ([dl] at its end). *)
Definition next_dict (path : list (string * loc)) (dl : loc) : loc :=
  match path with
  | [] => dl
  | sd :: _ => snd sd
  end.

(** The steps of a path: a payload, the key followed, the payload it
    leads to. *)
Fixpoint links (path : list (string * loc)) (dl : loc)
  : list (loc * string * loc) :=
  match path with
  | [] => []
  | sd :: rest => (snd sd, fst sd, next_dict rest dl) :: links rest dl
  end.

(** A field that a module assigns without the descriptor of a relation
    having a say: in the basic module a name that is no relation of the
    record's model; in the extended module, which asks the model for the
    field, a column, or a to-many relation, which it relates through its
    manager. *)
Definition assignable (var : variant) (i : inst) (field : string) : bool :=
  match var, meta i !! field with
  | Basic, None | Basic, Some Column => true
  | Extended, Some Column | Extended, Some ToMany => true
  | _, _ => false
  end.

(** The record once the final attribute is set or related: the extended
    module relates a to-many field through its manager and leaves the
    attribute alone. *)
Definition relates (var : variant) (i : inst) (field : string) : bool :=
  match var with
  | Basic => false
  | Extended => bool_decide (meta i !! field = Some ToMany)
  end.

Definition assigned (var : variant) (i : inst) (field : string) (x : value)
  : inst :=
  if relates var i field then i
  else Inst (meta i) (<[field := x]> (attrs i)).

Definition assign_events (var : variant) (i : inst) (o : oid)
    (field : string) (x : value) : list event :=
  if relates var i field then [EvRelatedSet o field x] else [].

(** What the assignment asks of the store: the [set] of the related
    manager, where the field is related. *)
Definition assign_store (var : variant) (DB : store_ops Store) (i : inst)
    (field : string) (x : value) (st : Store) : result unit * Store :=
  if relates var i field then related_set DB i field x st else (Ok tt, st).

(** A field the loop of [update] passes over: not a nested serializer,
    or absent from the validated data. *)
Definition passed_over (w : world Store) (validated_data : loc)
    (nf : string * field) : Prop :=
  is_nested (snd nf) = false ∨ dict_of w validated_data !! fst nf = None.

End UpdateVocabulary.

(** ** Vocabulary of further properties *)

Section TraceVocabulary.
Variable id_attr : string.


End TraceVocabulary.

Section EffectVocabulary.
Context {Store : Type}.
Import BaseModelSerializer.

(** A computation that leaves every payload mapping as it is, whatever
    its outcome. *)
Definition keeps_payloads {A} (m : M Store A) : Prop :=
  ∀ s r s', m s = (r, s') → dicts (wld s') = dicts (wld s).

(** A computation that leaves the meta data of every record as they
    are, whatever its outcome. *)
Definition keeps_meta {A} (m : M Store A) : Prop :=
  ∀ s r s', m s = (r, s') →
    ∀ o, meta (inst_of (wld s') o) = meta (inst_of (wld s) o).

(** The validated values of the nested fields of the serializer, in field
    order. *)
Definition nested_items (fields : list (string * field))
    (validated : gmap string value) : list (string * value) :=
  omap (fun nf => if is_nested (snd nf)
                  then pair (fst nf) <$> validated !! fst nf
                  else None) fields.

End EffectVocabulary.

(** More examples: a single-record updater that refuses record 11, and
    some worlds. *)
Module Samples.





(** A character column: a key finds the records that hold its decimal
    text. *)
Definition text_column (name : string) (k : Z) (i : inst) : bool :=
  match attrs i !! name with
  | Some (VStr t) => bool_decide (t = pretty k)
  | _ => false
  end.

(** The store of the examples, with character columns. *)
Definition text_store : store_ops unit :=
  StoreOps unit
    (objects_get Demo.store)
    (objects_create Demo.store)
    (instance_save Demo.store)
    (related_set Demo.store)
    (to_one_set Demo.store)
    text_column
    (queryset_count Demo.store)
    (queryset_iter Demo.store).

(** Record 20 holds the text ['1'] as identifier; payload 1 carries the
    identifier 1. *)
Definition text_records : world unit :=
  World
    {[ 1%positive := {[ "id" := VInt 1; "name" := VStr "a" ]} ]}%string
    {[ 20%positive := Inst {[ "id" := Column ]} {[ "id" := VStr "1" ]} ]}%string
    tt.



(** Two validated payloads that differ in a key no field declares. *)
Definition two_payloads : world unit :=
  World
    {[ 1%positive := {[ "name" := VStr "a" ]};
       2%positive := {[ "name" := VStr "a"; "extra" := VInt 1 ]} ]}%string
    ∅
    tt.

End Samples.

(** ** The date and time fields

    [UnixEpochDateTimeField], [UnixEpochDateField], [TimeField] and
    [DurationField] convert between numbers and the objects of the
    [datetime] module.  The part of that module they use is modelled
    here: a date by its proleptic Gregorian ordinal ([date.toordinal()],
    1 for 0001-01-01), a [timedelta] by the microseconds it holds, a
    float by the binary64 grid.  What depends on the machine (the local
    time zone, the exception for a timestamp that cannot be converted)
    is a parameter. *)

Module Fields.

(** The exceptions the fields meet: those of the builtins, and the two
    the library raises for values out of range. *)
Inductive error : Type :=
| Builtin (e : exn)
| OverflowError
| OSError.

Inductive outcome (A : Type) : Type :=
| Returns (a : A)
| Raises (e : error).
Arguments Returns {A} a.
Arguments Raises {A} e.

Definition and_then {A B} (m : outcome A) (k : A → outcome B) : outcome B :=
  match m with
  | Returns a => k a
  | Raises e => Raises e
  end.

Declare Scope lib_scope.
Delimit Scope lib_scope with lib.
Notation "x <- m ;; k" := (and_then m (fun x => k))
  (at level 100, m at next level, right associativity) : lib_scope.
Local Open Scope lib_scope.
Local Open Scope Z_scope.

(** *** Floats *)

(** A finite float, as the whole number of units of 2^-1074 it holds
    (every finite binary64 is such a number); the sign of zero is not
    kept. *)
Definition float : Type := Z.

(** The float 1.0 *)
Definition one : float := 2 ^ 1074.

(** The first power of two beyond the floats *)
Definition float_limit : Z := 2 ^ (1024 + 1074).

(** [a / b] rounded to the nearest integer, ties to the even one, for
    [0 <= a] and [0 < b]. *)
Definition round_half_even (a b : Z) : Z :=
  match 2 * (a mod b) ?= b with
  | Lt => a / b
  | Gt => a / b + 1
  | Eq => if Z.even (a / b) then a / b else a / b + 1
  end.

(** The float nearest to [num / den], for [0 < den]: 53 significant
    bits, the unit as the finest step.  [None] beyond the floats. *)
Definition nearest (num den : Z) : option float :=
  let a := Z.abs num * one in
  let step := 2 ^ Z.max 0 (Z.log2 (a / den) - 52) in
  let m := round_half_even a (den * step) * step in
  if m <? float_limit then Some (Z.sgn num * m) else None.

(** [a / b] on integers: the nearest float, or [OverflowError]. *)
Definition true_divide (a b : Z) : outcome float :=
  match nearest a b with
  | Some f => Returns f
  | None => Raises OverflowError
  end.

(** An integer as a float *)
Definition float_of_int (z : Z) : outcome float := true_divide z 1.

(** [x + y] on floats *)
Definition float_add (x y : float) : outcome float :=
  true_divide (x + y) one.

(** [int(x)] on a float: towards zero *)
Definition int_of_float (x : float) : Z := Z.quot x one.

(** *** The objects of [datetime] *)

(** A time zone, as the offset from UTC (in seconds) and the answer of
    [dst()] (in seconds, if any) that it gives *)
Record tzinfo : Type := TzInfo {
  utcoffset : Z;
  dst : option Z;
}.

Record time : Type := Time {
  hour : Z;
  minute : Z;
  second : Z;
  microsecond : Z;
  time_tzinfo : option tzinfo;
  fold : bool;
}.

Record date : Type := Date {
  toordinal : Z;
}.

(** A [datetime]: its date, its time of day, and with the latter its
    time zone *)
Record datetime : Type := DateTime {
  on_date : date;
  at_time : time;
}.

Record timedelta : Type := TimeDelta {
  in_microseconds : Z;
}.

(** [time.struct_time], year, month and day as the ordinal of the date;
    the day of the week and of the year follow from it. *)
Record struct_time : Type := StructTime {
  tm_date : Z;
  tm_hour : Z;
  tm_min : Z;
  tm_sec : Z;
  tm_isdst : Z;
}.

(** What a field is handed: a plain value or an object of [datetime]. *)
Inductive object : Type :=
| Plain (v : value)
| ATime (t : time)
| ADate (d : date)
| ADateTime (dt : datetime)
| ATimeDelta (td : timedelta).

(** What [to_representation] returns: [None], an integer or a float. *)
Inductive representation : Type :=
| RNone
| RInt (z : Z)
| RFloat (x : float).

(** What depends on the machine and on the installation. *)
Record platform : Type := Platform {
  (* [timezone.utc.dst(dt)]: zero for pytz's UTC, [None] for the
     standard library's *)
  utc_dst : option Z;
  (* what [datetime.fromtimestamp] raises for a timestamp whose year in
     UTC is not within 1..9999: [ValueError] where the C library still
     converts it, [OverflowError] or [OSError] beyond *)
  range_error : Z → error;
  (* the C library's [mktime]: the seconds since the epoch of a local
     time, or [OverflowError] *)
  mktime : struct_time → outcome Z;
  (* the same for the fields of a naive [datetime] *)
  local_seconds : datetime → outcome Z;
}.

(** [timezone.utc] *)
Definition utc (P : platform) : tzinfo := TzInfo 0 (utc_dst P).

(** The ordinal of 1970-01-01, and the timestamps of 0001-01-01 00:00:00
    and 9999-12-31 23:59:59 in UTC *)
Definition epoch : Z := 719163.
Definition min_timestamp : Z := -62135596800.
Definition max_timestamp : Z := 253402300799.

(** [int(o)] *)
Definition int (o : object) : outcome Z :=
  match o with
  | Plain v =>
      match py_int v with
      | Ok z => Returns z
      | Raise e => Raises (Builtin e)
      end
  | _ => Raises (Builtin TypeError)
  end.

(** [datetime.fromtimestamp(n, tz=timezone.utc)] for an integer [n] *)
Definition fromtimestamp (P : platform) (n : Z) : outcome datetime :=
  if (min_timestamp <=? n) && (n <=? max_timestamp) then
    let secs := n mod 86400 in
    Returns (DateTime (Date (epoch + n / 86400))
               (Time (secs / 3600) (secs mod 3600 / 60) (secs mod 60) 0
                     (Some (utc P)) false))
  else Raises (range_error P n).

(** [dt.date()] *)
Definition date_of (dt : datetime) : date := on_date dt.

(** [dt.time()]: the time of day, without the time zone *)
Definition time_of (dt : datetime) : time :=
  let t := at_time dt in
  Time (hour t) (minute t) (second t) (microsecond t) None (fold t).

(** [o.hour], [o.minute], [o.second] *)
Definition get_hour (o : object) : outcome Z :=
  match o with
  | ATime t => Returns (hour t)
  | ADateTime dt => Returns (hour (at_time dt))
  | _ => Raises (Builtin (AttributeError "hour"))
  end.

Definition get_minute (o : object) : outcome Z :=
  match o with
  | ATime t => Returns (minute t)
  | ADateTime dt => Returns (minute (at_time dt))
  | _ => Raises (Builtin (AttributeError "minute"))
  end.

Definition get_second (o : object) : outcome Z :=
  match o with
  | ATime t => Returns (second t)
  | ADateTime dt => Returns (second (at_time dt))
  | _ => Raises (Builtin (AttributeError "second"))
  end.

(** [o.timetuple()]: a date is at midnight, and does not know about
    daylight saving time; a [datetime] asks its time zone. *)
Definition timetuple (o : object) : outcome struct_time :=
  match o with
  | ADate d => Returns (StructTime (toordinal d) 0 0 0 (-1))
  | ADateTime dt =>
      let t := at_time dt in
      Returns (StructTime (toordinal (on_date dt)) (hour t) (minute t)
                 (second t)
                 match time_tzinfo t ≫= dst with
                 | None => -1
                 | Some 0 => 0
                 | Some _ => 1
                 end)
  | _ => Raises (Builtin (AttributeError "timetuple"))
  end.

(** [calendar.timegm]: the seconds since the epoch of a time in UTC *)
Definition timegm (tm : struct_time) : Z :=
  (tm_date tm - epoch) * 86400 + tm_hour tm * 3600 + tm_min tm * 60
  + tm_sec tm.

(** [time.mktime(tm)]: the result of the C library as a float *)
Definition time_mktime (P : platform) (tm : struct_time) : outcome float :=
  seconds <- mktime P tm ;;
  float_of_int seconds.

(** The microseconds from the epoch to an aware [datetime] *)
Definition since_epoch (dt : datetime) (tz : tzinfo) : Z :=
  let t := at_time dt in
  ((toordinal (on_date dt) - epoch) * 86400 + hour t * 3600 + minute t * 60
   + second t - utcoffset tz) * 1000000
  + microsecond t.

(** [o.timestamp()]: for an aware [datetime]
    [(o - epoch).total_seconds()], for a naive one the local time in
    seconds plus the microseconds over [1e6]. *)
Definition timestamp (P : platform) (o : object) : outcome float :=
  match o with
  | ADateTime dt =>
      match time_tzinfo (at_time dt) with
      | Some tz => true_divide (since_epoch dt tz) 1000000
      | None =>
          seconds <- local_seconds P dt ;;
          whole <- float_of_int seconds ;;
          part <- true_divide (microsecond (at_time dt)) 1000000 ;;
          float_add whole part
      end
  | _ => Raises (Builtin (AttributeError "timestamp"))
  end.

(** [o.total_seconds()] *)
Definition total_seconds (o : object) : outcome float :=
  match o with
  | ATimeDelta td => true_divide (in_microseconds td) 1000000
  | _ => Raises (Builtin (AttributeError "total_seconds"))
  end.

(** [timedelta(seconds=o)] for an integer: at most 999999999 days either
    way. *)
Definition timedelta_of_seconds (o : object) : outcome timedelta :=
  let of_int n :=
    if (-999999999 <=? n / 86400) && (n / 86400 <=? 999999999)
    then Returns (TimeDelta (n * 1000000))
    else Raises OverflowError in
  match o with
  | Plain (VInt n) => of_int n
  | Plain (VBool b) => of_int (Z.b2z b)
  | _ => Raises (Builtin TypeError)
  end.

(** [try: return body
    except (AttributeError, TypeError): return None] *)
Definition none_on_attribute_or_type_error (body : outcome representation)
  : outcome representation :=
  match body with
  | Raises (Builtin (AttributeError _)) | Raises (Builtin TypeError) =>
      Returns RNone
  | _ => body
  end.

(** *** The fields *)

Module UnixEpochDateTimeField.

Definition to_representation (P : platform) (value : object)
  : outcome representation :=
  none_on_attribute_or_type_error
    (x <- timestamp P value ;;
     Returns (RInt (int_of_float x))).

Definition to_internal_value (P : platform) (value : object)
  : outcome object :=
  n <- int value ;;
  dt <- fromtimestamp P n ;;
  Returns (ADateTime dt).

End UnixEpochDateTimeField.

Module UnixEpochDateField.

Definition to_representation (P : platform) (value : object)
  : outcome representation :=
  none_on_attribute_or_type_error
    (tm <- timetuple value ;;
     x <- time_mktime P tm ;;
     Returns (RInt (int_of_float x))).

(** The basic module returns the [datetime], the extended one its
    date. *)
Definition to_internal_value (var : BaseModelSerializer.variant)
    (P : platform) (value : object) : outcome object :=
  n <- int value ;;
  dt <- fromtimestamp P n ;;
  match var with
  | BaseModelSerializer.Basic => Returns (ADateTime dt)
  | BaseModelSerializer.Extended => Returns (ADate (date_of dt))
  end.

End UnixEpochDateField.

Module TimeField.

Definition to_representation (value : object) : outcome representation :=
  none_on_attribute_or_type_error
    (h <- get_hour value ;;
     m <- get_minute value ;;
     s <- get_second value ;;
     Returns (RInt (h * 3600 + m * 60 + s))).

Definition to_internal_value (P : platform) (value : object)
  : outcome object :=
  n <- int value ;;
  dt <- fromtimestamp P n ;;
  Returns (ATime (time_of dt)).

End TimeField.

Module DurationField.

Definition to_representation (value : object) : outcome representation :=
  none_on_attribute_or_type_error
    (x <- total_seconds value ;;
     Returns (RFloat x)).

Definition to_internal_value (value : object) : outcome object :=
  td <- timedelta_of_seconds value ;;
  Returns (ATimeDelta td).

End DurationField.

(** *** Vocabulary *)

(** The times the library builds *)
Definition valid_time (t : time) : Prop :=
  0 <= hour t < 24 ∧ 0 <= minute t < 60 ∧ 0 <= second t < 60
  ∧ 0 <= microsecond t < 1000000.

(** A machine whose local time is [k] seconds ahead of UTC all year *)
Definition fixed_offset (P : platform) (k : Z) : Prop :=
  ∀ tm, mktime P tm = Returns (timegm tm - k).

(** An example: a machine whose local time is [k] seconds ahead of UTC,
    with pytz's UTC object. *)
Definition machine (k : Z) : platform :=
  Platform (Some 0) (fun _ => Builtin ValueError)
    (fun tm => Returns (timegm tm - k))
    (fun dt =>
       Returns ((toordinal (on_date dt) - epoch) * 86400
                + hour (at_time dt) * 3600 + minute (at_time dt) * 60
                + second (at_time dt) - k)).

End Fields.

(** ** The monad *)

Section MonadLemmas.
Context {Store : Type}.

Lemma bind_ok {A B} (m : M Store A) (k : A → M Store B) s a s' :
  m s = (Ok a, s') → bind m k s = k a s'.
Proof. intros H. unfold bind. by rewrite H. Qed.

Lemma bind_raise {A B} (m : M Store A) (k : A → M Store B) s e s' :
  m s = (Raise e, s') → bind m k s = (Raise e, s').
Proof. intros H. unfold bind. by rewrite H. Qed.

Lemma call_run {A} ev (f : world Store → result A * world Store) s :
  call ev f s = (fst (f (wld s)), State (snd (f (wld s))) (log s ++ [ev])).
Proof. unfold call. by destruct (f (wld s)). Qed.

Lemma on_db_run {A} (f : Store → result A * Store) (w : world Store) :
  on_db f w = (fst (f (db w)), World (dicts w) (insts w) (snd (f (db w)))).
Proof. unfold on_db. by destruct (f (db w)). Qed.

Lemma state_eta (s : state Store) : State (wld s) (log s) = s.
Proof. by destruct s. Qed.

Lemma world_eta (w : world Store) : World (dicts w) (insts w) (db w) = w.
Proof. by destruct w. Qed.

Lemma dict_of_set_dict (w : world Store) d m l :
  dict_of (set_dict d m w) l = if decide (d = l) then m else dict_of w l.
Proof.
  unfold dict_of, set_dict; simpl. case_decide as E.
  - subst. by rewrite lookup_total_insert_eq.
  - by rewrite lookup_total_insert_ne.
Qed.

Lemma dict_pop_some d k v (s : state Store) :
  dict_of (wld s) d !! k = Some v →
  dict_pop d k s
  = (Ok v, State (set_dict d (delete k (dict_of (wld s) d)) (wld s)) (log s)).
Proof. intros H. unfold dict_pop, bind, gets, modify, ret; simpl. by rewrite H. Qed.

Lemma dict_contains_run d k (s : state Store) :
  dict_contains d k s
  = (Ok (bool_decide (is_Some (dict_of (wld s) d !! k))), s).
Proof. done. Qed.

Lemma dict_getitem_some d k v (s : state Store) :
  dict_of (wld s) d !! k = Some v → dict_getitem d k s = (Ok v, s).
Proof. intros H. unfold dict_getitem, bind, gets, ret; simpl. by rewrite H. Qed.

Lemma dict_getitem_none d k (s : state Store) :
  dict_of (wld s) d !! k = None → dict_getitem d k s = (Raise (KeyError k), s).
Proof. intros H. unfold dict_getitem, bind, gets, raise; simpl. by rewrite H. Qed.

Lemma dict_pop_none d k (s : state Store) :
  dict_of (wld s) d !! k = None → dict_pop d k s = (Raise (KeyError k), s).
Proof. intros H. unfold dict_pop, bind, gets, raise; simpl. by rewrite H. Qed.

End MonadLemmas.

(** ** Extraction of the identifiers *)

Section Extraction.
Context {Store : Type}.
Variable id_attr : string.


Lemma payload_id_set_dict_ne (w : world Store) d m l :
  d ≠ l → payload_id id_attr (set_dict d m w) l = payload_id id_attr w l.
Proof.
  intros Hne. unfold payload_id. rewrite dict_of_set_dict.
  by rewrite decide_False.
Qed.


Lemma keyed_ext (w1 w2 : world Store) batch acc :
  (∀ l, l ∈ batch → payload_id id_attr w1 l = payload_id id_attr w2 l) →
  keyed id_attr w1 batch acc = keyed id_attr w2 batch acc.
Proof.
  revert acc. induction batch as [|i rest IH]; intros acc H; [done|].
  simpl. rewrite (H i) by set_solver. apply IH.
  intros l Hl. apply H. set_solver.
Qed.

Lemma extracted_frame (w : world Store) batch :
  insts (extracted id_attr w batch) = insts w
  ∧ db (extracted id_attr w batch) = db w.
Proof.
  revert w. induction batch as [|i rest IH]; intros w; [done|].
  simpl. destruct (IH (set_dict i (delete id_attr (dict_of w i)) w)) as [-> ->].
  done.
Qed.

Lemma extracted_dict (w : world Store) batch l :
  dict_of (extracted id_attr w batch) l
  = if decide (l ∈ batch) then delete id_attr (dict_of w l) else dict_of w l.
Proof.
  revert w. induction batch as [|i rest IH]; intros w.
  - destruct (decide (l ∈ [])) as [H|H]; [set_solver | done].
  - change (extracted id_attr w (i :: rest))
      with (extracted id_attr (set_dict i (delete id_attr (dict_of w i)) w) rest).
    rewrite IH, !dict_of_set_dict.
    destruct (decide (i = l)) as [->|Hne].
    + rewrite (decide_True (P := l ∈ l :: rest)) by (apply elem_of_cons; by left).
      case_decide; [|done]. by rewrite delete_delete_eq.
    + destruct (decide (l ∈ rest)) as [Hin|Hin].
      * rewrite decide_True; [done | by apply elem_of_cons; right].
      * rewrite decide_False; [done|].
        intros [?|?]%elem_of_cons; by subst.
Qed.

(** The comprehension succeeds on a well-formed batch: it pops every
    identifier and keys the payloads by them. *)
Lemma by_id_ok batch acc (s : state Store) :
  well_formed id_attr (wld s) batch →
  BulkListSerializer.by_id id_attr batch acc s
  = (Ok (keyed id_attr (wld s) batch acc),
     State (extracted id_attr (wld s) batch) (log s)).
Proof.
  revert acc s. induction batch as [|i rest IH]; intros acc s [Hnd Hall].
  - simpl. unfold ret. by rewrite state_eta.
  - apply NoDup_cons in Hnd as [Hi Hnd].
    apply Forall_cons in Hall as [[z Hz] Hall].
    pose proof Hz as Hz'. unfold payload_id in Hz'.
    destruct (dict_of (wld s) i !! id_attr) as [v|] eqn:Hv; [|done].
    destruct (py_int v) as [z'|] eqn:Hint; [|done].
    injection Hz' as ->.
    cbn [BulkListSerializer.by_id].
    rewrite (bind_ok _ _ _ _ _ (dict_pop_some _ _ _ _ Hv)).
    rewrite Hint. cbn [lift]. unfold bind at 1, ret at 1.
    rewrite IH; cbn [wld log].
    + simpl. rewrite Hz. f_equal. f_equal. apply keyed_ext.
      intros l Hl. apply payload_id_set_dict_ne. intros ->. done.
    + split; [done|]. apply Forall_forall. intros l Hl.
      rewrite payload_id_set_dict_ne by (intros ->; done).
      rewrite Forall_forall in Hall. by apply Hall.
Qed.
End Extraction.

Section Keys.
Context {Store : Type}.
Variable id_attr : string.


Lemma keyed_cons (w : world Store) i rest acc :
  keyed id_attr w (i :: rest) acc
  = keyed id_attr w rest
      match payload_id id_attr w i with
      | Some z => <[z := i]> acc
      | None => acc
      end.
Proof. done. Qed.

Lemma batch_ids_cons (w : world Store) i rest :
  batch_ids id_attr w (i :: rest)
  = match payload_id id_attr w i with
    | Some z => z :: batch_ids id_attr w rest
    | None => batch_ids id_attr w rest
    end.
Proof. unfold batch_ids. simpl. by destruct (payload_id id_attr w i). Qed.


Lemma keyed_dom (w : world Store) batch acc :
  dom (keyed id_attr w batch acc)
  = dom acc ∪ list_to_set (batch_ids id_attr w batch).
Proof.
  revert acc. induction batch as [|i rest IH]; intros acc.
  - simpl. set_solver.
  - rewrite keyed_cons, IH, batch_ids_cons.
    destruct (payload_id id_attr w i) as [z|]; [|done].
    rewrite dom_insert_L. simpl. set_solver.
Qed.





(** Records that satisfy one of two tests. *)
Lemma filter_orb_length {A} (p q : A → bool) (l : list A) :
  length (List.filter (fun x => p x || q x) l)
  ≤ length (List.filter p l) + length (List.filter q l).
Proof.
  induction l as [|a l IH]; [done|]. cbn [List.filter].
  destruct (p a), (q a); cbn [orb length]; lia.
Qed.

Lemma filter_existsb_length {A K} (p : K → A → bool) (ks : list K)
    (l : list A) :
  length (List.filter (fun x => existsb (fun k => p k x) ks) l)
  ≤ sum_list_with (fun k => length (List.filter (p k) l)) ks.
Proof.
  induction ks as [|k ks IH]; cbn [existsb sum_list_with].
  - induction l as [|a l IHl]; [done|]. done.
  - etrans; [apply filter_orb_length|]. lia.
Qed.

Lemma sum_short {K} (f : K → nat) (ks : list K) z :
  (∀ k, k ∈ ks → f k ≤ 1) → z ∈ ks → f z = 0 →
  sum_list_with f ks < length ks.
Proof.
  intros Hle Hz Hfz. induction ks as [|k ks IH]; [by apply elem_of_nil in Hz|].
  cbn [sum_list_with length].
  assert (Hsum : sum_list_with f ks ≤ length ks).
  { clear IH Hz. induction ks as [|k' ks IH']; [done|].
    cbn [sum_list_with length].
    assert (f k' ≤ 1) by (apply Hle; set_solver).
    assert (sum_list_with f ks ≤ length ks)
      by (apply IH'; intros; apply Hle; set_solver).
    lia. }
  apply elem_of_cons in Hz as [<-|Hz].
  - rewrite Hfz. lia.
  - assert (f k ≤ 1) by (apply Hle; set_solver).
    assert (sum_list_with f ks < length ks)
      by (apply IH; [intros; apply Hle; set_solver | done]).
    lia.
Qed.

End Keys.

(** ** [BulkListSerializer.update] *)

Section BulkUpdate.
Context {Store : Type} (DB : store_ops Store) (F : framework Store).
Variable id_attr : string.


Lemma filter_in_insts (w1 w2 : world Store) keys queryset :
  insts w1 = insts w2 →
  BulkListSerializer.filter_in DB id_attr w1 keys queryset
  = BulkListSerializer.filter_in DB id_attr w2 keys queryset.
Proof.
  intros H. unfold BulkListSerializer.filter_in, inst_of. by rewrite H.
Qed.

(** A query leaves payloads and records as they are. *)
Lemma execute_frame query keys (w : world Store) r w' :
  BulkListSerializer.execute id_attr query keys w = (r, w') →
  dicts w' = dicts w ∧ insts w' = insts w.
Proof.
  unfold BulkListSerializer.execute. case_decide.
  - by intros [= _ <-].
  - rewrite on_db_run. by intros [= _ <-].
Qed.

(** Without keys nothing is sent. *)
Lemma execute_no_keys query (w : world Store) :
  BulkListSerializer.execute id_attr query ∅ w = (Ok tt, w).
Proof. unfold BulkListSerializer.execute. by rewrite decide_True. Qed.

Lemma filter_in_no_keys (w : world Store) queryset :
  BulkListSerializer.filter_in DB id_attr w ∅ queryset = [].
Proof.
  unfold BulkListSerializer.filter_in. rewrite elements_empty.
  induction queryset as [|o rest IH]; [done|]. done.
Qed.


Lemma count_run keys queryset (s : state Store) r w2 :
  BulkListSerializer.execute id_attr (queryset_count DB) keys (wld s)
  = (r, w2) →
  BulkListSerializer.count DB id_attr keys queryset s
  = (match r with
     | Ok _ =>
         Ok (length (BulkListSerializer.filter_in DB id_attr (wld s) keys
                       queryset))
     | Raise e => Raise e
     end,
     State w2 (log s ++ [EvCount id_attr (elements keys)])).
Proof.
  intros Hq. unfold BulkListSerializer.count. rewrite call_run, Hq.
  destruct (execute_frame _ _ _ _ _ Hq) as [_ Hi].
  destruct r as [[]|e]; cbn [BulkListSerializer.answer fst snd]; [|done].
  by rewrite (filter_in_insts w2 (wld s)).
Qed.

Lemma fetch_run keys queryset (s : state Store) r w2 :
  BulkListSerializer.execute id_attr (queryset_iter DB) keys (wld s)
  = (r, w2) →
  BulkListSerializer.fetch DB id_attr keys queryset s
  = (match r with
     | Ok _ =>
         Ok (BulkListSerializer.filter_in DB id_attr (wld s) keys queryset)
     | Raise e => Raise e
     end,
     State w2 (log s ++ [EvFetch id_attr (elements keys)])).
Proof.
  intros Hq. unfold BulkListSerializer.fetch. rewrite call_run, Hq.
  destruct (execute_frame _ _ _ _ _ Hq) as [_ Hi].
  destruct r as [[]|e]; cbn [BulkListSerializer.answer fst snd]; [|done].
  by rewrite (filter_in_insts w2 (wld s)).
Qed.

(** On a well-formed batch [update] pops the identifiers and goes on to
    the count. *)
Lemma update_unfold queryset batch (s : state Store) :
  well_formed id_attr (wld s) batch →
  let keys : gset Z := list_to_set (batch_ids id_attr (wld s) batch) in
  BulkListSerializer.update DB F id_attr queryset batch s
  = (n <- BulkListSerializer.count DB id_attr keys queryset ;;
     if negb (Nat.eqb (size keys) n)
     then raise (ValidationError BulkListSerializer.not_found)
     else
       objs <- BulkListSerializer.fetch DB id_attr keys queryset ;;
       BulkListSerializer.update_loop F id_attr objs
         (keyed id_attr (wld s) batch ∅) [])
      (State (extracted id_attr (wld s) batch) (log s)).
Proof.
  intros Hwf keys. unfold BulkListSerializer.update.
  rewrite (bind_ok _ _ _ _ _ (by_id_ok id_attr batch ∅ s Hwf)).
  assert (Hdom : dom (keyed id_attr (wld s) batch ∅) = keys).
  { rewrite keyed_dom, dom_empty_L. subst keys. set_solver. }
  cbv zeta. rewrite <- (size_dom (D := gset Z) (keyed id_attr (wld s) batch ∅)).
  by rewrite !Hdom.
Qed.

(** The count differs from the number of identifiers: the batch is
    rejected. *)
Lemma update_rejects queryset batch (s : state Store) w2 :
  well_formed id_attr (wld s) batch →
  let keys : gset Z := list_to_set (batch_ids id_attr (wld s) batch) in
  BulkListSerializer.execute id_attr (queryset_count DB) keys
    (extracted id_attr (wld s) batch) = (Ok tt, w2) →
  length (BulkListSerializer.filter_in DB id_attr (wld s) keys queryset)
  ≠ size keys →
  BulkListSerializer.update DB F id_attr queryset batch s
  = (Raise (ValidationError BulkListSerializer.not_found),
     State w2 (log s ++ [EvCount id_attr (elements keys)])).
Proof.
  intros Hwf keys Hq Hne.
  rewrite (update_unfold queryset batch s Hwf). fold keys.
  unfold bind at 1.
  rewrite (count_run keys queryset (State _ (log s)) _ _ Hq). cbn [wld log].
  rewrite (filter_in_insts _ (wld s)) by apply extracted_frame.
  destruct (Nat.eqb_spec (size keys)
              (length (BulkListSerializer.filter_in DB id_attr (wld s) keys
                         queryset))) as [Heq|_]; [by rewrite Heq in Hne|].
  done.
Qed.

(** The count is the number of identifiers: [update] fetches the records
    and enters the loop. *)
Lemma update_enters queryset batch (s : state Store) w2 w3 :
  well_formed id_attr (wld s) batch →
  let keys : gset Z := list_to_set (batch_ids id_attr (wld s) batch) in
  BulkListSerializer.execute id_attr (queryset_count DB) keys
    (extracted id_attr (wld s) batch) = (Ok tt, w2) →
  length (BulkListSerializer.filter_in DB id_attr (wld s) keys queryset)
  = size keys →
  BulkListSerializer.execute id_attr (queryset_iter DB) keys w2
  = (Ok tt, w3) →
  BulkListSerializer.update DB F id_attr queryset batch s
  = BulkListSerializer.update_loop F id_attr
      (BulkListSerializer.filter_in DB id_attr (wld s) keys queryset)
      (keyed id_attr (wld s) batch ∅) []
      (State w3 (log s ++ [EvCount id_attr (elements keys);
                           EvFetch id_attr (elements keys)])).
Proof.
  intros Hwf keys Hq Hlen Hq'.
  rewrite (update_unfold queryset batch s Hwf). fold keys.
  unfold bind at 1.
  rewrite (count_run keys queryset (State _ (log s)) _ _ Hq). cbn [wld log].
  rewrite (filter_in_insts _ (wld s)) by apply extracted_frame.
  rewrite Hlen, Nat.eqb_refl. cbn [negb].
  unfold bind at 1.
  rewrite (fetch_run keys queryset (State w2 _) _ _ Hq'). cbn [wld log].
  rewrite (filter_in_insts w2 (wld s)).
  - by rewrite <- List.app_assoc.
  - destruct (execute_frame _ _ _ _ _ Hq) as [_ ->]. apply extracted_frame.
Qed.

(** A key that no record has, each of the others being found at most
    once: the count falls short. *)
Lemma count_short (w : world Store) (keys : gset Z) queryset :
  (∀ k, k ∈ keys → length (matching id_attr DB w k queryset) ≤ 1) →
  (∃ z, z ∈ keys ∧ matching id_attr DB w z queryset = []) →
  length (BulkListSerializer.filter_in DB id_attr w keys queryset)
  < size keys.
Proof.
  intros Huniq (z & Hz & Hnone). unfold BulkListSerializer.filter_in.
  eapply Nat.le_lt_trans;
    [apply (filter_existsb_length
              (fun k o => lookup_exact DB id_attr k (inst_of w o)))|].
  change (size keys) with (length (elements keys)).
  apply (sum_short _ _ z).
  - intros k Hk. apply Huniq. by apply elem_of_elements.
  - by apply elem_of_elements.
  - unfold matching in Hnone. by rewrite Hnone.
Qed.


End BulkUpdate.

Section BulkLoop.
Context {Store : Type} (F : framework Store).
Variable id_attr : string.






End BulkLoop.

Section BulkClaims.
Context {Store : Type} (DB : store_ops Store) (F : framework Store).
Variable id_attr : string.








End BulkClaims.

Section BulkSpec.
Context {Store : Type} (DB : store_ops Store) (F : framework Store).
Variable id_attr : string.

(** C1.  A well-formed batch naming an identifier for which the database
    finds no record of the queryset (identifiers being unique: no key of
    the batch is found on two records), the database answering the count
    query: [BulkListSerializer.update] raises the [ValidationError]
    'Could not find all objects to update.'.  The check comes before the
    loop: the log gains the count query and nothing else, so the
    single-record updater was called on no record, and no model instance
    has changed; the payloads have lost their identifiers, and the
    persistence layer is as the count query left it. *)
Theorem bulk_update_rejects_unknown_identifier queryset batch
    (s : state Store) w2 :
  let keys : gset Z := list_to_set (batch_ids id_attr (wld s) batch) in
  well_formed id_attr (wld s) batch →
  (∀ k, k ∈ batch_ids id_attr (wld s) batch →
        length (matching id_attr DB (wld s) k queryset) ≤ 1) →
  (∃ z, z ∈ batch_ids id_attr (wld s) batch
        ∧ matching id_attr DB (wld s) z queryset = []) →
  BulkListSerializer.execute id_attr (queryset_count DB) keys
    (extracted id_attr (wld s) batch) = (Ok tt, w2) →
  BulkListSerializer.update DB F id_attr queryset batch s
  = (Raise (ValidationError "Could not find all objects to update."),
     State w2 (log s ++ [EvCount id_attr (elements keys)]))
  ∧ insts w2 = insts (wld s)
  ∧ dicts w2 = dicts (extracted id_attr (wld s) batch).
Proof.
  intros keys Hwf Huniq (z & Hz & Hnone) Hq.
  destruct (execute_frame _ _ _ _ _ _ Hq) as [Hd Hi].
  split; [|split; [rewrite Hi; apply extracted_frame | done]].
  apply (update_rejects DB F id_attr queryset batch s w2 Hwf Hq).
  apply Nat.lt_neq, count_short.
  - intros k Hk. apply Huniq. by apply elem_of_list_to_set in Hk.
  - exists z. split; [by apply elem_of_list_to_set | done].
Qed.




End BulkSpec.

(** ** [BaseModelSerializer.create] *)

Section Create.
Context {Store : Type} (DB : store_ops Store).
Import BaseModelSerializer.

Lemma for_each_app {A} (l1 l2 : list A) (body : A → M Store unit) s :
  for_each (l1 ++ l2) body s = (for_each l1 body ;; for_each l2 body) s.
Proof.
  revert s. induction l1 as [|a l1 IH]; intros s; [done|].
  cbn [app for_each]. unfold bind in *.
  destruct (body a s) as [[[]|e] s1]; [|done]. by rewrite IH.
Qed.

Lemma assoc_set_fresh k v (d : list (string * value)) :
  k ∉ map fst d → assoc_set k v d = d ++ [(k, v)].
Proof.
  induction d as [|[k' v'] d IH]; intros Hk; [done|].
  cbn [assoc_set]. cbn [map fst] in Hk.
  apply not_elem_of_cons in Hk as [Hne Hk].
  rewrite (proj2 (String.eqb_neq k' k)) by congruence.
  cbn [app]. f_equal. by apply IH.
Qed.

Lemma scalar_data_cons n f fields (m : gmap string value) :
  scalar_data ((n, f) :: fields) m
  = (if is_plural f then []
     else match m !! n with Some v => [(n, v)] | None => [] end)
    ++ scalar_data fields m.
Proof.
  unfold scalar_data. cbn [omap fst snd]. simpl.
  destruct (is_plural f); [done|]. by destruct (m !! n).
Qed.

Lemma plural_data_cons n f fields (m : gmap string value) :
  plural_data ((n, f) :: fields) m
  = (if is_plural f
     then match m !! n with Some v => [(n, v)] | None => [] end
     else [])
    ++ plural_data fields m.
Proof.
  unfold plural_data. cbn [omap fst snd]. simpl.
  destruct (is_plural f); [|done]. by destruct (m !! n).
Qed.

(** The first loop of [create] splits the validated fields of the
    serializer into the scalar and the plural ones, and changes nothing. *)
Lemma partition_fields_ok fs vd data m2m (s : state Store) :
  NoDup (map fst fs) →
  (∀ n, n ∈ map fst fs → (n ∉ map fst data) ∧ (n ∉ map fst m2m)) →
  partition_fields fs vd data m2m s
  = (Ok (data ++ scalar_data fs (dict_of (wld s) vd),
         m2m ++ plural_data fs (dict_of (wld s) vd)), s).
Proof.
  revert data m2m. induction fs as [|[n f] rest IH]; intros data m2m Hnd Hfresh.
  - cbn. unfold ret. by rewrite !app_nil_r.
  - cbn [map fst] in Hnd. apply NoDup_cons in Hnd as [Hn Hnd].
    destruct (Hfresh n) as [Hd Hm]; [by apply elem_of_cons; left|].
    cbn [partition_fields]. rewrite scalar_data_cons, plural_data_cons.
    rewrite (bind_ok _ _ _ _ _ (dict_contains_run vd n s)).
    destruct (dict_of (wld s) vd !! n) as [v|] eqn:Hv.
    + rewrite bool_decide_eq_true_2 by eauto.
      rewrite (bind_ok _ _ _ _ _ (dict_getitem_some vd n v s Hv)).
      destruct (is_plural f).
      * rewrite assoc_set_fresh by done. rewrite IH; [|done|].
        { by rewrite <- !List.app_assoc. }
        intros n' Hn'. destruct (Hfresh n') as [Hd' Hm'];
          [by apply elem_of_cons; right|].
        split; [done|]. rewrite map_app. cbn [map fst].
        intros [?|Hin]%elem_of_app; [done|].
        apply list_elem_of_singleton in Hin. by subst.
      * rewrite assoc_set_fresh by done. rewrite IH; [|done|].
        { by rewrite <- !List.app_assoc. }
        intros n' Hn'. destruct (Hfresh n') as [Hd' Hm'];
          [by apply elem_of_cons; right|].
        split; [|done]. rewrite map_app. cbn [map fst].
        intros [?|Hin]%elem_of_app; [done|].
        apply list_elem_of_singleton in Hin. by subst.
    + rewrite bool_decide_eq_false_2 by (intros [? ?]; done).
      rewrite IH; [|done|].
      { destruct (is_plural f); by rewrite ?app_nil_r. }
      intros n' Hn'. apply Hfresh. by apply elem_of_cons; right.
Qed.

End Create.

Section CreateSpec.
Context {Store : Type} (DB : store_ops Store).
Import BaseModelSerializer.

Lemma inst_of_lookup (w : world Store) o i :
  insts w !! o = Some i → inst_of w o = i.
Proof. intros H. unfold inst_of. by rewrite lookup_total_alt, H. Qed.

Lemma inst_of_set_inst (w : world Store) o i o' :
  inst_of (set_inst o i w) o' = if decide (o = o') then i else inst_of w o'.
Proof.
  unfold inst_of, set_inst; simpl. case_decide as E.
  - subst. by rewrite lookup_total_insert_eq.
  - by rewrite lookup_total_insert_ne.
Qed.

Lemma model_create_ok kwargs (s : state Store) i st1 :
  objects_create DB kwargs (db (wld s)) = (Ok i, st1) →
  model_create DB kwargs s
  = (Ok (VRec (fresh (dom (insts (wld s))))),
     State (World (dicts (wld s))
                  (<[fresh (dom (insts (wld s))) := i]> (insts (wld s))) st1)
           (log s ++ [EvCreate kwargs])).
Proof.
  intros H. unfold model_create, new_inst, bind, gets, modify, ret.
  by rewrite call_run, on_db_run, H.
Qed.


Lemma py_save_run o (s : state Store) :
  py_save DB (VRec o) s
  = (fst (instance_save DB (inst_of (wld s) o) (db (wld s))),
     State (World (dicts (wld s)) (insts (wld s))
                  (snd (instance_save DB (inst_of (wld s) o) (db (wld s)))))
           (log s ++ [EvSave o])).
Proof.
  unfold py_save, bind, gets. cbn [wld]. by rewrite call_run, on_db_run.
Qed.

Lemma py_set_run o f x (s : state Store) :
  py_set DB (VManager o f) x s
  = (fst (related_set DB (inst_of (wld s) o) f x (db (wld s))),
     State (World (dicts (wld s)) (insts (wld s))
              (snd (related_set DB (inst_of (wld s) o) f x (db (wld s)))))
           (log s ++ [EvRelatedSet o f x])).
Proof.
  unfold py_set, bind, gets. cbn [wld]. by rewrite call_run, on_db_run.
Qed.

(** [setattr] on a record is what the descriptor makes of it. *)
Lemma py_setattr_run o name x (s : state Store) :
  py_setattr DB (VRec o) name x s
  = match descriptor_set DB (insts (wld s)) (inst_of (wld s) o) name x with
    | Ok i => (Ok tt, State (set_inst o i (wld s)) (log s))
    | Raise e => (Raise e, s)
    end.
Proof.
  unfold py_setattr, bind, gets, modify, raise.
  by destruct (descriptor_set DB _ _ name x).
Qed.

(** A name that is no relation is an ordinary attribute. *)
Lemma descriptor_set_plain instances i name x :
  assignable Basic i name = true →
  descriptor_set DB instances i name x
  = Ok (Inst (meta i) (<[name := x]> (attrs i))).
Proof.
  unfold assignable, descriptor_set.
  by destruct (meta i !! name) as [[]|].
Qed.

Lemma descriptor_set_to_many instances i name x :
  meta i !! name = Some ToMany →
  descriptor_set DB instances i name x = Raise TypeError.
Proof. unfold descriptor_set. by intros ->. Qed.

(** The basic module attaches by assigning attributes, which goes well
    as long as the names are no relations. *)
Lemma attach_basic o plural (s : state Store) i :
  insts (wld s) !! o = Some i →
  (∀ n v, (n, v) ∈ plural → assignable Basic i n = true) →
  for_each plural (attach DB Basic (VRec o)) s
  = (Ok tt,
     State (World (dicts (wld s))
                  (<[o := attached Basic i plural]> (insts (wld s)))
                  (db (wld s)))
           (log s)).
Proof.
  revert s i. induction plural as [|[n v] rest IH]; intros s i Hi Hplain.
  - cbn. unfold ret. destruct i. rewrite insert_id by done.
    by rewrite world_eta, state_eta.
  - cbn [for_each]. unfold attach at 1. cbn [fst snd]. unfold bind at 1.
    rewrite py_setattr_run, (inst_of_lookup _ _ _ Hi).
    rewrite descriptor_set_plain by (apply (Hplain n v); set_solver).
    rewrite (IH _ (Inst (meta i) (<[n := v]> (attrs i))));
      cbn [wld log set_inst insts dicts db].
    + by rewrite insert_insert_eq.
    + by rewrite lookup_insert_eq.
    + intros n' v' Hin. unfold assignable. cbn [meta].
      apply (Hplain n' v'). set_solver.
Qed.

(** The extended module attaches through the related managers, one
    after the other. *)
Lemma attach_extended o plural (s : state Store) i st' :
  insts (wld s) !! o = Some i →
  (∀ n v, (n, v) ∈ plural → meta i !! n = Some ToMany) →
  relate_all DB i plural (db (wld s)) = (Ok tt, st') →
  for_each plural (attach DB Extended (VRec o)) s
  = (Ok tt,
     State (World (dicts (wld s)) (insts (wld s)) st')
           (log s ++ attach_events Extended o plural)).
Proof.
  intros Hi. revert s Hi.
  induction plural as [|[n v] rest IH]; intros s Hi Hmeta Hrel.
  - cbn in Hrel. injection Hrel as <-. cbn. unfold ret.
    by rewrite app_nil_r, world_eta, state_eta.
  - cbn [for_each]. unfold attach at 1, py_getattr, bind at 1 2 3, gets.
    cbn [wld log fst snd]. rewrite (inst_of_lookup _ _ _ Hi).
    rewrite (Hmeta n v) by (by apply elem_of_cons; left).
    unfold ret at 1. cbn [bound_set]. unfold bind at 1, ret at 1.
    rewrite py_set_run. cbn [wld]. rewrite (inst_of_lookup _ _ _ Hi).
    cbn [relate_all] in Hrel.
    destruct (related_set DB i n v (db (wld s))) as [[[]|e] st1]; [|done].
    cbn [fst snd].
    rewrite (IH (State (World (dicts (wld s)) (insts (wld s)) st1)
                       (log s ++ [EvRelatedSet o n v])));
      cbn [wld log dicts insts db attach_events map fst snd]; try done.
    + by rewrite <- List.app_assoc.
    + intros n' v' Hin. apply (Hmeta n' v'). by apply elem_of_cons; right.
Qed.

(** [create] up to the attachments, on a store that creates the
    record. *)
Lemma create_created var fields validated_data (s : state Store) i st1 :
  let validated := dict_of (wld s) validated_data in
  let o := fresh (dom (insts (wld s))) in
  NoDup (map fst fields) →
  objects_create DB (scalar_data fields validated) (db (wld s)) = (Ok i, st1) →
  create DB var fields validated_data s
  = (for_each (plural_data fields validated) (attach DB var (VRec o)) ;;
     py_save DB (VRec o) ;;
     ret (VRec o))
      (State (World (dicts (wld s)) (<[o := i]> (insts (wld s))) st1)
             (log s ++ [EvCreate (scalar_data fields validated)])).
Proof.
  intros validated o Hnd Hcreate. unfold create.
  rewrite (bind_ok _ _ _ _ _
             (partition_fields_ok fields validated_data [] [] s Hnd
                ltac:(intros; split; apply not_elem_of_nil))).
  cbn [app fst snd]. fold validated.
  by rewrite (bind_ok _ _ _ _ _ (model_create_ok _ s i st1 Hcreate)).
Qed.

(** C4.  In the basic module [create] stops short of attaching and
    saving.  When the plural fields of the validated data are to-many
    relations of the created record, the first [setattr] on one of them
    raises [TypeError]: [create] stops right after [objects.create],
    with the record created from the scalar fields, no value related to
    it, and the record not saved. *)
Theorem create_basic_rejects_relation fields validated_data
    (s : state Store) i st1 :
  let validated := dict_of (wld s) validated_data in
  let data := scalar_data fields validated in
  let plural := plural_data fields validated in
  let o := fresh (dom (insts (wld s))) in
  NoDup (map fst fields) →
  objects_create DB data (db (wld s)) = (Ok i, st1) →
  plural ≠ [] →
  (∀ n v, (n, v) ∈ plural → meta i !! n = Some ToMany) →
  create DB Basic fields validated_data s
  = (Raise TypeError,
     State (World (dicts (wld s)) (<[o := i]> (insts (wld s))) st1)
           (log s ++ [EvCreate data])).
Proof.
  intros validated data plural o Hnd Hcreate Hne Hmeta.
  rewrite (create_created Basic fields validated_data s i st1 Hnd Hcreate).
  fold validated data plural o.
  destruct plural as [|[n v] rest]; [done|].
  cbn [for_each]. unfold bind at 1 2. unfold attach. cbn [fst snd].
  rewrite py_setattr_run. cbn [wld insts].
  rewrite (inst_of_lookup _ o i) by apply lookup_insert_eq.
  rewrite descriptor_set_to_many; [done|].
  apply (Hmeta n v). by apply elem_of_cons; left.
Qed.

End CreateSpec.

(** ** [BaseModelSerializer.to_internal_value] *)

Section ToInternalValue.
Context {Store : Type} (DB : store_ops Store) (F : framework Store).
Import BaseModelSerializer.

Lemma model_get_ok k v (s : state Store) i st1 :
  objects_get DB k v (db (wld s)) = (Ok i, st1) →
  model_get DB k v s
  = (Ok (VRec (fresh (dom (insts (wld s))))),
     State (World (dicts (wld s))
                  (<[fresh (dom (insts (wld s))) := i]> (insts (wld s))) st1)
           (log s ++ [EvGet k v])).
Proof.
  intros H. unfold model_get, new_inst, bind, gets, modify, ret.
  by rewrite call_run, on_db_run, H.
Qed.


(** The nested branch up to the lookup. *)
Lemma nested_lookup var fields id_attr self_parent ctx data
    (s : state Store) v :
  root_level self_parent = false →
  dict_of (wld s) data !! id_attr = Some v →
  to_internal_value DB F var fields id_attr self_parent ctx data s
  = (instance <- model_get DB id_attr v ;;
     match var with
     | Basic => ret instance
     | Extended =>
         validate_and_save F (Serializer (Some instance) data true)
     end) s.
Proof.
  intros Hnested Hv. unfold to_internal_value. rewrite Hnested.
  rewrite (bind_ok _ _ _ _ _ (dict_contains_run data id_attr s)).
  rewrite bool_decide_eq_true_2 by eauto.
  by rewrite (bind_ok _ _ _ _ _ (dict_getitem_some data id_attr v s Hv)).
Qed.

(** C5.  A nested invocation of [to_internal_value] whose input carries
    the identifier fetches the record with that identifier from the
    store.  When the store has it, the basic module returns it as it
    is, without any field validation; the extended module builds a
    nested serializer in partial mode on the fetched record and the same
    input, validates it, saves it, and returns what the save returns. *)
Theorem nested_identifier_resolves_record fields id_attr self_parent ctx
    data (s : state Store) v i st1 :
  let o := fresh (dom (insts (wld s))) in
  let s1 := State (World (dicts (wld s)) (<[o := i]> (insts (wld s))) st1)
                  (log s ++ [EvGet id_attr v]) in
  let nested := Serializer (Some (VRec o)) data true in
  root_level self_parent = false →
  dict_of (wld s) data !! id_attr = Some v →
  objects_get DB id_attr v (db (wld s)) = (Ok i, st1) →
  to_internal_value DB F Basic fields id_attr self_parent ctx data s
  = (Ok (VRec o), s1)
  ∧ (∀ validated w2 r w3,
       serializer_is_valid F nested (wld s1) = (Ok validated, w2) →
       serializer_save F nested validated w2 = (r, w3) →
       to_internal_value DB F Extended fields id_attr self_parent ctx data s
       = (r, State w3 (log s1 ++ [EvIsValid nested;
                                  EvSerializerSave nested]))).
Proof.
  intros o s1 nested Hnested Hv Hget. split.
  - rewrite (nested_lookup Basic _ _ _ _ _ _ v Hnested Hv).
    by rewrite (bind_ok _ _ _ _ _ (model_get_ok id_attr v s i st1 Hget)).
  - intros validated w2 r w3 Hvalid Hsave.
    rewrite (nested_lookup Extended _ _ _ _ _ _ v Hnested Hv).
    rewrite (bind_ok _ _ _ _ _ (model_get_ok id_attr v s i st1 Hget)).
    fold o s1 nested. unfold validate_and_save, bind.
    rewrite call_run, Hvalid. cbn [fst snd]. rewrite call_run. cbn [wld log].
    rewrite Hsave. cbn [fst snd]. by rewrite <- List.app_assoc.
Qed.

(** The root branch up to the test that guards the injection. *)
Lemma root_validation var fields id_attr self_parent ctx data
    (s : state Store) ret_ w1 rm :
  root_level self_parent = true →
  super_to_internal_value F data (wld s) = (Ok ret_, w1) →
  method_of_request var ctx = Ok rm →
  to_internal_value DB F var fields id_attr self_parent ctx data s
  = (if isinstance_bulk self_parent && truthy (VStr id_attr)
        && put_or_patch rm
     then
       id_field <- lift (fields_getitem fields id_attr) ;;
       id_value <- get_value id_attr data ;;
       dict_setitem ret_ id_attr id_value ;;
       ret (VMap ret_)
     else ret (VMap ret_))
      (State w1 (log s ++ [EvSuperToInternalValue data])).
Proof.
  intros Hroot Hsuper Hrm. unfold to_internal_value. rewrite Hroot.
  unfold bind at 1. rewrite call_run, Hsuper. cbn [fst snd].
  rewrite Hrm. cbn [lift]. by unfold bind at 1, ret at 1.
Qed.

Lemma truthy_str (x : string) : truthy (VStr x) = true ↔ x ≠ EmptyString.
Proof.
  cbn [truthy]. rewrite negb_true_iff. apply String.eqb_neq.
Qed.

(** C6, as the code has it.  A root-level or top-of-list invocation whose
    standard validation returns a mapping, with a readable request
    method: if the parent is a [BulkListSerializer], the name of the
    identifier field is not empty, the method is PUT or PATCH and the
    serializer has a field under that name, the returned mapping is the
    validated one with the identifier key bound to the value the raw
    input has for it ([empty] when it has none); if the parent is not a
    [BulkListSerializer], or the name is empty, or the method is another
    one, the validated mapping is returned as it is. *)
Theorem identifier_injected_on_bulk_put_patch var fields id_attr
    self_parent ctx data (s : state Store) ret_ w1 rm :
  let s1 := State w1 (log s ++ [EvSuperToInternalValue data]) in
  root_level self_parent = true →
  super_to_internal_value F data (wld s) = (Ok ret_, w1) →
  method_of_request var ctx = Ok rm →
  (isinstance_bulk self_parent = true →
   id_attr ≠ EmptyString →
   put_or_patch rm = true →
   (∃ f, fields_getitem fields id_attr = Ok f) →
   to_internal_value DB F var fields id_attr self_parent ctx data s
   = (Ok (VMap ret_),
      State (set_dict ret_
               (<[id_attr := default VEmpty (dict_of w1 data !! id_attr)]>
                  (dict_of w1 ret_)) w1)
            (log s1)))
  ∧ (isinstance_bulk self_parent = false ∨ id_attr = EmptyString
     ∨ put_or_patch rm = false →
     to_internal_value DB F var fields id_attr self_parent ctx data s
     = (Ok (VMap ret_), s1)).
Proof.
  intros s1 Hroot Hsuper Hrm.
  rewrite (root_validation var fields id_attr self_parent ctx data s
             ret_ w1 rm Hroot Hsuper Hrm).
  fold s1. split.
  - intros Hbulk Hid Hput [f Hf].
    rewrite Hbulk, (proj2 (truthy_str id_attr) Hid), Hput. cbn [andb].
    rewrite Hf. cbn [lift]. unfold bind at 1, ret at 1.
    by unfold get_value, dict_setitem, bind, gets, modify, ret.
  - intros Hnot.
    assert (isinstance_bulk self_parent && truthy (VStr id_attr)
            && put_or_patch rm = false) as ->; [|done].
    destruct Hnot as [->| [-> | ->]]; [done | |].
    + cbn [truthy]. rewrite String.eqb_refl. cbn [negb]. by rewrite andb_false_r.
    + by rewrite andb_false_r.
Qed.

End ToInternalValue.

(** ** Errors of the persistence layer *)

Section Propagation.
Context {Store : Type} (DB : store_ops Store) (F : framework Store).
Variable e : exn.
Hypothesis down : store_down DB e.
Import BaseModelSerializer.

Lemma no_store_call_in_nil : ¬ ∃ ev, store_call ev ∧ ev ∈ ([] : list event).
Proof. intros (ev & _ & Hin). by apply elem_of_nil in Hin. Qed.

Lemma faithful_ret {A} (a : A) : store_faithful (Store := Store) e (ret a).
Proof.
  intros s r s' [= <- <-]. exists []. rewrite app_nil_r. split; [done|].
  intros H. by destruct no_store_call_in_nil.
Qed.

Lemma faithful_raise {A} e' :
  store_faithful (Store := Store) (A := A) e (raise e').
Proof.
  intros s r s' [= <- <-]. exists []. rewrite app_nil_r. split; [done|].
  intros H. by destruct no_store_call_in_nil.
Qed.

Lemma faithful_lift {A} (x : result A) :
  store_faithful (Store := Store) e (lift x).
Proof. destruct x; [apply faithful_ret | apply faithful_raise]. Qed.

Lemma faithful_gets {A} (f : world Store → A) : store_faithful e (gets f).
Proof.
  intros s r s' [= <- <-]. exists []. rewrite app_nil_r. split; [done|].
  intros H. by destruct no_store_call_in_nil.
Qed.

Lemma faithful_modify (f : world Store → world Store) :
  store_faithful e (modify f).
Proof.
  intros s r s' [= <- <-]. exists []. cbn [log]. rewrite app_nil_r.
  split; [done|]. intros H. by destruct no_store_call_in_nil.
Qed.

Lemma faithful_bind {A B} (m : M Store A) (k : A → M Store B) :
  store_faithful e m → (∀ a, store_faithful e (k a)) →
  store_faithful e (bind m k).
Proof.
  intros Hm Hk s r s'. unfold bind.
  destruct (m s) as [[a|e'] s1] eqn:Hrun.
  - destruct (Hm s _ _ Hrun) as (evs1 & Hlog1 & Hcall1). intros Hrun2.
    destruct (Hk a s1 _ _ Hrun2) as (evs2 & Hlog2 & Hcall2).
    exists (evs1 ++ evs2). rewrite Hlog2, Hlog1, <- List.app_assoc.
    split; [done|]. intros (ev & Hev & [Hin|Hin]%elem_of_app).
    + by specialize (Hcall1 (ex_intro _ ev (conj Hev Hin))).
    + apply Hcall2. by exists ev.
  - intros [= <- <-]. destruct (Hm s _ _ Hrun) as (evs & Hlog & Hcall).
    exists evs. split; [done|]. intros Hev. specialize (Hcall Hev).
    by injection Hcall as ->.
Qed.

(** A call to the framework is no call to the persistence layer. *)
Lemma faithful_call {A} ev (f : world Store → result A * world Store) :
  ¬ store_call ev → store_faithful e (call ev f).
Proof.
  intros Hev s r s'. rewrite call_run. intros [= <- <-]. exists [ev].
  split; [done|]. intros (ev' & Hev' & Hin).
  apply list_elem_of_singleton in Hin. by subst.
Qed.

(** A call to the persistence layer raises what the layer raises. *)
Lemma faithful_store_call {A} ev (f : Store → result A * Store) :
  (∀ st, ∃ st', f st = (Raise e, st')) →
  store_faithful e (call ev (on_db f)).
Proof.
  intros Hf s r s'. rewrite call_run, on_db_run.
  destruct (Hf (db (wld s))) as [st' ->]. intros [= <- <-].
  by exists [ev].
Qed.

Lemma faithful_save v : store_faithful e (py_save DB v).
Proof.
  destruct v; try apply faithful_raise. unfold py_save.
  apply faithful_bind; [apply faithful_gets | intros i].
  apply faithful_store_call. intros st. apply down.
Qed.

Lemma faithful_set m x : store_faithful e (py_set DB m x).
Proof.
  destruct m; try apply faithful_raise. unfold py_set.
  apply faithful_bind; [apply faithful_gets | intros i].
  apply faithful_store_call. intros st. apply down.
Qed.

Lemma faithful_model_get k v : store_faithful e (model_get DB k v).
Proof.
  unfold model_get. apply faithful_bind.
  - apply faithful_store_call. intros st. apply down.
  - intros i. unfold new_inst.
    repeat (apply faithful_bind; [|intros ?]);
      first [apply faithful_gets | apply faithful_modify | apply faithful_ret].
Qed.

Lemma faithful_model_create kwargs :
  store_faithful e (model_create DB kwargs).
Proof.
  unfold model_create. apply faithful_bind.
  - apply faithful_store_call. intros st. apply down.
  - intros i. unfold new_inst.
    repeat (apply faithful_bind; [|intros ?]);
      first [apply faithful_gets | apply faithful_modify | apply faithful_ret].
Qed.

Lemma faithful_for_each {A} (l : list A) (body : A → M Store unit) :
  (∀ x, store_faithful e (body x)) → store_faithful e (for_each l body).
Proof.
  intros Hbody. induction l as [|x l IH]; [apply faithful_ret|].
  cbn [for_each]. apply faithful_bind; [apply Hbody | by intros _].
Qed.

Ltac faithful :=
  repeat first
    [ apply faithful_ret | apply faithful_raise | apply faithful_lift
    | apply faithful_gets | apply faithful_modify | apply faithful_save
    | apply faithful_set | apply faithful_model_get
    | apply faithful_model_create
    | apply faithful_call; exact (fun H => H)
    | apply faithful_for_each; intros ?
    | apply faithful_bind; [|intros ?]
    | match goal with
      | |- store_faithful _ (match ?x with _ => _ end) => destruct x
      end ].

Lemma faithful_getitem v k : store_faithful e (py_getitem (Store := Store) v k).
Proof. unfold py_getitem, dict_getitem. faithful. Qed.

Lemma faithful_pop v k : store_faithful e (py_pop (Store := Store) v k).
Proof. unfold py_pop, dict_pop. faithful. Qed.

Lemma faithful_getattr v k : store_faithful e (py_getattr (Store := Store) v k).
Proof. unfold py_getattr. faithful. Qed.

Lemma faithful_setattr v k x : store_faithful e (py_setattr DB v k x).
Proof. unfold py_setattr. faithful. Qed.

Lemma faithful_walk fuel source v ins path :
  store_faithful e (walk (Store := Store) fuel source v ins path).
Proof.
  revert source v ins path.
  induction fuel as [|fuel IH]; intros src v ins path; cbn [walk].
  - faithful.
  - destruct (contains dot src); [|faithful].
    apply faithful_bind; [apply faithful_getitem | intros v'].
    apply faithful_bind; [apply faithful_getattr | intros ins'].
    apply IH.
Qed.

Lemma faithful_assign var ins v field :
  store_faithful e (assign DB var ins v field).
Proof.
  unfold assign, is_to_many. destruct var.
  - apply faithful_bind; [apply faithful_pop | intros x].
    apply faithful_setattr.
  - unfold bound_set.
    repeat first
      [ apply faithful_getitem | apply faithful_pop | apply faithful_getattr
      | apply faithful_setattr | progress faithful ].
Qed.

Lemma faithful_prune path : store_faithful e (prune (Store := Store) path).
Proof.
  unfold prune, py_len, py_delitem, dict_delitem.
  apply faithful_for_each. intros [field data]. cbn [fst snd].
  apply faithful_bind; [apply faithful_getitem | intros x].
  faithful.
Qed.

Lemma faithful_update_field var instance validated_data nf :
  store_faithful e (update_field DB var instance validated_data nf).
Proof.
  unfold update_field, dict_contains. destruct nf as [field f].
  destruct (is_nested f); [|faithful].
  apply faithful_bind; [faithful | intros present].
  destruct present; [|faithful].
  apply faithful_bind; [apply faithful_walk | intros [[v ins] path]].
  apply faithful_bind; [apply faithful_assign | intros _].
  apply faithful_bind; [apply faithful_save | intros _].
  apply faithful_prune.
Qed.

Lemma faithful_update var fields instance validated_data :
  store_faithful e (update DB F var fields instance validated_data).
Proof.
  unfold update. apply faithful_bind.
  - apply faithful_for_each. intros nf. apply faithful_update_field.
  - intros _. apply faithful_call. exact (fun H => H).
Qed.

Lemma faithful_partition_fields fs validated_data data m2m :
  store_faithful e
    (partition_fields (Store := Store) fs validated_data data m2m).
Proof.
  revert data m2m. induction fs as [|[n f] rest IH]; intros data m2m;
    cbn [partition_fields]; [faithful|].
  unfold dict_contains, dict_getitem.
  apply faithful_bind; [faithful | intros present].
  destruct present; [|apply IH].
  apply faithful_bind; [faithful | intros v].
  destruct (is_plural f); apply IH.
Qed.

Lemma faithful_create var fields validated_data :
  store_faithful e (create DB var fields validated_data).
Proof.
  unfold create.
  apply faithful_bind; [apply faithful_partition_fields | intros dm].
  apply faithful_bind; [apply faithful_model_create | intros instance].
  apply faithful_bind.
  { apply faithful_for_each. intros fv. unfold attach. destruct var.
    - apply faithful_setattr.
    - apply faithful_bind; [apply faithful_getattr | intros m].
      apply faithful_bind; [unfold bound_set; faithful | intros set_].
      apply faithful_set. }
  intros _. apply faithful_bind; [apply faithful_save | intros _].
  faithful.
Qed.

Lemma faithful_to_internal_value var fields id_attr self_parent ctx data :
  store_faithful e
    (to_internal_value DB F var fields id_attr self_parent ctx data).
Proof.
  unfold to_internal_value, validate_and_save, get_value, dict_setitem,
    dict_contains, dict_getitem.
  destruct (root_level self_parent).
  - apply faithful_bind; [apply faithful_call; exact (fun H => H) | intros ret_].
    apply faithful_bind; [apply faithful_lift | intros rm].
    destruct (isinstance_bulk self_parent && truthy (VStr id_attr)
              && put_or_patch rm); faithful.
  - apply faithful_bind; [faithful | intros has_id].
    destruct has_id, var; faithful.
Qed.

Lemma faithful_attempt {A} (m : M Store A) s r s' :
  store_faithful e m → m s = (r, s') →
  store_attempted (log s) (log s') → r = Raise e.
Proof.
  intros Hm Hrun (evs & ev & Hlog & Hev & Hin).
  destruct (Hm s r s' Hrun) as (evs' & Hlog' & Hcall).
  apply Hcall. exists ev. rewrite Hlog' in Hlog.
  apply app_inv_head in Hlog. by subst.
Qed.

End Propagation.

Section StoreDown.
Context {Store : Type} (DB : store_ops Store) (F : framework Store).
Import BaseModelSerializer.

(** X25.  With a persistence layer that is down, every lookup, every
    create, every save, every [set] of a related manager and every
    query of a queryset raising [e]: each run of [to_internal_value], [create] or [update] that
    reaches one of these calls ends by raising [e].  No method goes on
    after a failed call, and none replaces the error. *)
Theorem store_down_ends_every_run e :
  store_down DB e →
  (∀ var fields id_attr self_parent ctx data (s : state Store) r s',
     to_internal_value DB F var fields id_attr self_parent ctx data s
     = (r, s') →
     store_attempted (log s) (log s') → r = Raise e)
  ∧ (∀ var fields validated_data (s : state Store) r s',
       create DB var fields validated_data s = (r, s') →
       store_attempted (log s) (log s') → r = Raise e)
  ∧ (∀ var fields instance validated_data (s : state Store) r s',
       update DB F var fields instance validated_data s = (r, s') →
       store_attempted (log s) (log s') → r = Raise e).
Proof.
  intros Hdown. repeat split.
  - intros var fields id_attr self_parent ctx data s r s'.
    apply faithful_attempt, faithful_to_internal_value, Hdown.
  - intros var fields validated_data s r s'.
    apply faithful_attempt, faithful_create, Hdown.
  - intros var fields instance validated_data s r s'.
    apply faithful_attempt, faithful_update, Hdown.
Qed.

End StoreDown.

(** ** [BaseModelSerializer.update] *)

Section Walk.
Context {Store : Type}.
Import BaseModelSerializer.

Lemma partition_found c s :
  contains c s = true →
  ∃ hd tl, partition c s = (hd, String c EmptyString, tl)
           ∧ String.length tl < String.length s.
Proof.
  induction s as [|a s IH]; [done|]. cbn [contains partition].
  destruct (Ascii.eqb a c).
  - intros _. exists EmptyString, s. split; [done|]. cbn. lia.
  - intros Hc. destruct (IH Hc) as (hd & tl & -> & Hlen).
    exists (String a hd), tl. split; [done|]. cbn. lia.
Qed.

Lemma partition_shorter c s :
  contains c s = true →
  String.length (part2 (partition c s)) < String.length s.
Proof.
  intros Hc. by destruct (partition_found c s Hc) as (hd & tl & -> & Hlen).
Qed.

Lemma getattr_attr_of (s : state Store) o name x :
  attr_of (wld s) o name = Some x →
  py_getattr (VRec o) name s = (Ok x, s).
Proof.
  unfold attr_of, py_getattr, bind, gets, ret, raise. cbn [wld].
  destruct (meta (inst_of (wld s) o) !! name) as [[]|];
    first [by intros [= <-] | by intros ->].
Qed.

Lemma getitem_raises (v : value) k (s : state Store) e s' :
  py_getitem v k s = (Raise e, s') → e = KeyError k ∨ e = TypeError.
Proof.
  destruct v; cbn [py_getitem]; try (intros [= <- _]; by right).
  unfold dict_getitem, bind, gets, ret, raise.
  destruct (dict_of (wld s) l !! k); [done|]. intros [= <- _]. by left.
Qed.

Lemma getattr_raises (v : value) name (s : state Store) e s' :
  py_getattr v name s = (Raise e, s') → e = AttributeError name.
Proof.
  destruct v; cbn [py_getattr]; try (by intros [= <- _]).
  unfold bind, gets, ret, raise.
  destruct (meta (inst_of (wld s) o) !! name) as [[]|];
    try done; destruct (attrs (inst_of (wld s) o) !! name);
    try done; by intros [= <- _].
Qed.

Lemma walk_undotted fuel source v ins path (s : state Store) :
  contains dot source = false →
  walk fuel source v ins path s = (Ok (v, ins, path), s).
Proof. intros Hc. destruct fuel; cbn [walk]; by rewrite Hc. Qed.

(** The length of the source is fuel enough for the loop: it never stops
    for lack of it. *)
Lemma walk_fuel_enough fuel src v ins path (s : state Store) :
  String.length src ≤ fuel →
  fst (walk fuel src v ins path s) ≠ Raise RecursionLimit.
Proof.
  revert src v ins path s.
  induction fuel as [|fuel IH]; intros src v ins path s Hfuel; cbn [walk].
  - destruct src; [done | cbn in Hfuel; lia].
  - destruct (contains dot src) eqn:Hc; [|done].
    pose proof (partition_shorter dot src Hc) as Hlt.
    unfold bind.
    destruct (py_getitem v (part0 (partition dot src)) s)
      as [[v'|e] s1] eqn:Hv.
    + destruct (py_getattr ins (part0 (partition dot src)) s1)
        as [[ins'|e] s2] eqn:Hi.
      * apply IH. lia.
      * apply getattr_raises in Hi as ->. done.
    + apply getitem_raises in Hv as [->| ->]; done.
Qed.

(** The loop follows a source that resolves. *)
Lemma walk_resolves (w : world Store) source d o path dl ol :
  resolves w source d o path dl ol →
  ∀ fuel acc lg,
    String.length source ≤ fuel →
    walk fuel source (VMap d) (VRec o) acc (State w lg)
    = (Ok (VMap dl, VRec ol, acc ++ path_values path), State w lg).
Proof.
  induction 1 as [src d o Hc | src d o d' o' path dl ol Hc Hd Ho _ IH];
    intros fuel acc lg Hfuel.
  - destruct fuel; cbn [walk]; rewrite Hc; unfold ret;
      by rewrite app_nil_r.
  - pose proof (partition_shorter dot src Hc) as Hlt.
    destruct fuel as [|fuel]; [lia|]. cbn [walk]. rewrite Hc.
    cbn [py_getitem].
    rewrite (bind_ok _ _ _ _ _ (dict_getitem_some d _ (VMap d') (State w lg) Hd)).
    rewrite (bind_ok _ _ _ _ _ (getattr_attr_of (State w lg) o _ (VRec o') Ho)).
    rewrite IH by lia. cbn [path_values map fst snd].
    by rewrite <- List.app_assoc.
Qed.

Lemma resolves_links (w : world Store) source d o path dl ol :
  resolves w source d o path dl ol →
  next_dict path dl = d
  ∧ ∀ a seg b, (a, seg, b) ∈ links path dl →
               dict_of w a !! seg = Some (VMap b).
Proof.
  induction 1 as [src d o Hc | src d o d' o' path dl ol Hc Hd Ho _ [IHn IHl]].
  - split; [done|]. intros a seg b Hin. by apply elem_of_nil in Hin.
  - split; [done|]. intros a seg b Hin. cbn [links fst snd] in Hin.
    apply elem_of_cons in Hin as [[= -> -> ->]|Hin]; [|by apply IHl].
    by rewrite IHn.
Qed.

Lemma links_elem path dl a seg b :
  (a, seg, b) ∈ links path dl →
  a ∈ map snd path ∧ (b ∈ map snd path ∨ b = dl).
Proof.
  induction path as [|[seg' d] rest IH]; cbn [links map fst snd].
  - intros Hin. by apply elem_of_nil in Hin.
  - intros [[= -> -> ->]|Hin]%elem_of_cons.
    + split; [by apply elem_of_cons; left|].
      destruct rest as [|[? ?] ?]; cbn [next_dict map snd]; [by right|].
      left. apply elem_of_cons. right. by apply elem_of_cons; left.
    + destruct (IH Hin) as [Ha Hb]. split; [by apply elem_of_cons; right|].
      destruct Hb as [Hb| ->]; [left|by right].
      by apply elem_of_cons; right.
Qed.

End Walk.

Section Prune.
Context {Store : Type}.
Import BaseModelSerializer.

(** Pruning a path whose payloads are distinct objects: going up from
    the deepest step, a payload loses the key of its step exactly when
    the payload below has become empty; nothing else changes. *)
Lemma prune_spec path dl (s : state Store) :
  (∀ a seg b, (a, seg, b) ∈ links path dl →
              dict_of (wld s) a !! seg = Some (VMap b)) →
  NoDup (dl :: map snd path) →
  ∃ w',
    prune (path_values path) s = (Ok tt, State w' (log s))
    ∧ insts w' = insts (wld s)
    ∧ db w' = db (wld s)
    ∧ (∀ l, l ∉ map snd path → dict_of w' l = dict_of (wld s) l)
    ∧ (∀ a seg b, (a, seg, b) ∈ links path dl →
         dict_of w' a
         = if decide (dict_of w' b = ∅)
           then delete seg (dict_of (wld s) a)
           else dict_of (wld s) a).
Proof.
  induction path as [|[seg d] rest IH]; intros Hlinks Hnd.
  - exists (wld s). unfold prune. cbn. unfold ret. rewrite state_eta.
    repeat split; try done. intros a seg b Hin. by apply elem_of_nil in Hin.
  - assert (Hnd' : NoDup (dl :: map snd rest)).
    { cbn [map snd] in Hnd. apply NoDup_cons in Hnd as [Hdl Hnd].
      apply NoDup_cons in Hnd as [_ Hnd]. apply NoDup_cons.
      split; [|done]. intros Hin. apply Hdl. by apply elem_of_cons; right. }
    assert (Hd : (d ∉ map snd rest) ∧ d ≠ dl).
    { cbn [map snd] in Hnd. apply NoDup_cons in Hnd as [Hdl Hnd].
      apply NoDup_cons in Hnd as [Hd _]. split; [done|].
      intros ->. apply Hdl. by apply elem_of_cons; left. }
    destruct Hd as [Hd Hddl].
    destruct IH as (w1 & Hrun & Hi & Hdb & Hframe & Hl); [|done|].
    { intros a seg' b Hin. apply Hlinks. cbn [links].
      by apply elem_of_cons; right. }
    set (b := next_dict rest dl).
    assert (Hb : b ≠ d).
    { subst b. destruct rest as [|[? ?] ?]; cbn [next_dict snd]; [done|].
      intros ->. apply Hd. cbn [map snd]. by apply elem_of_cons; left. }
    assert (Hdb' : dict_of w1 d !! seg = Some (VMap b)).
    { rewrite Hframe by done. apply Hlinks. cbn [links fst snd].
      by apply elem_of_cons; left. }
    unfold prune in *. cbn [path_values map rev fst snd] in *.
    rewrite for_each_app. rewrite (bind_ok _ _ _ _ _ Hrun).
    cbn [for_each py_getitem fst snd]. unfold bind at 1.
    rewrite (bind_ok _ _ _ _ _
               (dict_getitem_some d seg (VMap b) (State w1 (log s)) Hdb')).
    cbn [py_len]. unfold bind at 1, gets at 1. cbn [wld].
    destruct (Nat.eqb_spec (size (dict_of w1 b)) 0) as [Hz|Hnz].
    + apply map_size_empty_iff in Hz.
      unfold py_delitem, dict_delitem, bind, gets, modify, ret.
      cbn [wld log]. rewrite Hdb'.
      eexists. split; [reflexivity|]. cbn [insts db set_dict].
      split; [done|]. split; [done|]. split.
      * intros l Hl'. cbn [map snd] in Hl'.
        apply not_elem_of_cons in Hl' as [Hne Hl'].
        rewrite dict_of_set_dict, decide_False by done. by apply Hframe.
      * intros a seg' b' Hin. cbn [links fst snd] in Hin. fold b in Hin.
        apply elem_of_cons in Hin as [[= -> -> ->]|Hin].
        -- rewrite !dict_of_set_dict, decide_True by done.
           rewrite (decide_False (P := d = b)) by (by intros ?).
           cbn [wld]. rewrite decide_True by done.
           by rewrite Hframe.
        -- destruct (links_elem _ _ _ _ _ Hin) as [Ha Hb'].
           assert (d ≠ a) by (intros ->; done).
           assert (d ≠ b') by (intros ->; by destruct Hb').
           rewrite !dict_of_set_dict.
           rewrite (decide_False (P := d = a)) by done.
           rewrite (decide_False (P := d = b')) by done.
           by apply Hl.
    + unfold ret.
      exists w1. split; [done|]. split; [done|]. split; [done|]. split.
      * intros l Hl'. cbn [map snd] in Hl'.
        apply not_elem_of_cons in Hl' as [Hne Hl']. by apply Hframe.
      * intros a seg' b' Hin. cbn [links fst snd] in Hin. fold b in Hin.
        apply elem_of_cons in Hin as [[= -> -> ->]|Hin]; [|by apply Hl].
        rewrite decide_False.
        -- by apply Hframe.
        -- intros Hempty. apply Hnz. rewrite Hempty. apply map_size_empty.
Qed.

End Prune.

Section UpdateSpec.
Context {Store : Type} (DB : store_ops Store) (F : framework Store).
Import BaseModelSerializer.

Lemma is_to_many_run o field k (s : state Store) :
  meta (inst_of (wld s) o) !! field = Some k →
  is_to_many (VRec o) field s = (Ok (bool_decide (k = ToMany)), s).
Proof.
  intros H. unfold is_to_many, bind, gets, ret. cbn [wld]. rewrite H.
  by destruct k.
Qed.

Lemma assignable_extended i field :
  assignable Extended i field = true →
  meta i !! field = Some Column ∨ meta i !! field = Some ToMany.
Proof.
  unfold assignable. destruct (meta i !! field) as [[]|]; try done; eauto.
Qed.

(** Setting or relating the final attribute and popping it from the
    leaf payload, for a field that the module can assign. *)
Lemma assign_spec var ol dl field x (s : state Store) st1 :
  dict_of (wld s) dl !! field = Some x →
  assignable var (inst_of (wld s) ol) field = true →
  assign_store var DB (inst_of (wld s) ol) field x (db (wld s))
  = (Ok tt, st1) →
  ∃ w1,
    assign DB var (VRec ol) (VMap dl) field s
    = (Ok tt,
       State w1 (log s ++ assign_events var (inst_of (wld s) ol) ol field x))
    ∧ inst_of w1 ol = assigned var (inst_of (wld s) ol) field x
    ∧ (∀ o, o ≠ ol → inst_of w1 o = inst_of (wld s) o)
    ∧ dict_of w1 dl = delete field (dict_of (wld s) dl)
    ∧ (∀ l, l ≠ dl → dict_of w1 l = dict_of (wld s) l)
    ∧ db w1 = st1.
Proof.
  intros Hx Hmeta Hstore.
  unfold assign, assigned, assign_events, assign_store, relates in *.
  destruct var.
  - injection Hstore as <-. cbn [py_pop].
    rewrite (bind_ok _ _ _ _ _ (dict_pop_some dl field x s Hx)).
    rewrite py_setattr_run. cbn [wld log insts].
    change (inst_of (set_dict dl (delete field (dict_of (wld s) dl)) (wld s)) ol)
      with (inst_of (wld s) ol).
    rewrite descriptor_set_plain by done.
    eexists. split; [by rewrite app_nil_r|].
    split; [by rewrite inst_of_set_inst, decide_True|].
    split; [by intros o Ho; rewrite inst_of_set_inst, decide_False|].
    split; [|split; [|done]].
    + change (dict_of (set_dict dl (delete field (dict_of (wld s) dl)) (wld s)) dl
              = delete field (dict_of (wld s) dl)).
      by rewrite dict_of_set_dict, decide_True.
    + intros l Hl.
      change (dict_of (set_dict dl (delete field (dict_of (wld s) dl)) (wld s)) l
              = dict_of (wld s) l).
      by rewrite dict_of_set_dict, decide_False.
  - destruct (assignable_extended _ _ Hmeta) as [Hb|Hb];
      rewrite (bind_ok _ _ _ _ _ (is_to_many_run ol field _ s Hb));
      rewrite Hb in Hstore |- *.
    + rewrite !bool_decide_eq_false_2 by congruence.
      rewrite bool_decide_eq_false_2 in Hstore by congruence.
      injection Hstore as <-.
      assert (Hset :
        (x0 <- py_getitem (VMap dl) field ;; py_setattr DB (VRec ol) field x0) s
        = (Ok tt,
           State (set_inst ol
                    (Inst (meta (inst_of (wld s) ol))
                          (<[field := x]> (attrs (inst_of (wld s) ol))))
                    (wld s)) (log s))).
      { cbn [py_getitem].
        rewrite (bind_ok _ _ _ _ _ (dict_getitem_some dl field x s Hx)).
        rewrite py_setattr_run. unfold descriptor_set. by rewrite Hb. }
      rewrite (bind_ok _ _ _ _ _ Hset). cbn [py_pop].
      rewrite (bind_ok _ _ _ _ _
                 (dict_pop_some dl field x (State (set_inst ol _ (wld s)) _) Hx)).
      unfold ret. cbn [wld log].
      eexists. split; [by rewrite app_nil_r|].
      split.
      { change (inst_of (set_inst ol
                  (Inst (meta (inst_of (wld s) ol))
                        (<[field:=x]> (attrs (inst_of (wld s) ol))))
                  (wld s)) ol
                = Inst (meta (inst_of (wld s) ol))
                       (<[field:=x]> (attrs (inst_of (wld s) ol)))).
        by rewrite inst_of_set_inst, decide_True. }
      split.
      { intros o Ho.
        change (inst_of (set_inst ol
                  (Inst (meta (inst_of (wld s) ol))
                        (<[field:=x]> (attrs (inst_of (wld s) ol))))
                  (wld s)) o = inst_of (wld s) o).
        by rewrite inst_of_set_inst, decide_False. }
      split; [|split; [|done]].
      * by rewrite dict_of_set_dict, decide_True.
      * intros l Hl. by rewrite dict_of_set_dict, decide_False.
    + rewrite !bool_decide_eq_true_2 by done.
      rewrite bool_decide_eq_true_2 in Hstore by done.
      assert (Hattr : attr_of (wld s) ol field = Some (VManager ol field))
        by (unfold attr_of; by rewrite Hb).
      assert (Hrel :
        (manager <- py_getattr (VRec ol) field ;;
         set_ <- bound_set manager ;;
         x0 <- py_getitem (VMap dl) field ;;
         py_set DB set_ x0) s
        = (Ok tt, State (World (dicts (wld s)) (insts (wld s)) st1)
                        (log s ++ [EvRelatedSet ol field x]))).
      { rewrite (bind_ok _ _ _ _ _ (getattr_attr_of s ol field _ Hattr)).
        cbn [bound_set]. unfold bind at 1, ret at 1.
        cbn [py_getitem].
        rewrite (bind_ok _ _ _ _ _ (dict_getitem_some dl field x s Hx)).
        by rewrite py_set_run, Hstore. }
      rewrite (bind_ok _ _ _ _ _ Hrel). cbn [py_pop].
      rewrite (bind_ok _ _ _ _ _
                 (dict_pop_some dl field x
                    (State (World (dicts (wld s)) (insts (wld s)) st1) _) Hx)).
      unfold ret. cbn [wld log].
      eexists. split; [reflexivity|].
      split; [done|]. split; [done|]. split; [|split; [|done]].
      * by rewrite dict_of_set_dict, decide_True.
      * intros l Hl. by rewrite dict_of_set_dict, decide_False.
Qed.

(** Fields that are passed over leave everything as it is. *)
Lemma passed_over_loop var instance validated_data fs (s : state Store) :
  Forall (passed_over (wld s) validated_data) fs →
  for_each fs (update_field DB var instance validated_data) s = (Ok tt, s).
Proof.
  induction 1 as [|[n f] rest Hskip _ IH]; [done|].
  cbn [for_each]. unfold bind.
  assert (update_field DB var instance validated_data (n, f) s = (Ok tt, s))
    as ->; [|done].
  unfold update_field. destruct Hskip as [Hn|Hn]; cbn [fst snd] in Hn.
  - by rewrite Hn.
  - destruct (is_nested f); [|done].
    rewrite (bind_ok _ _ _ _ _ (dict_contains_run validated_data n s)).
    rewrite Hn. by rewrite bool_decide_eq_false_2 by (by intros [? ?]).
Qed.

(** One turn of the loop on a nested field that resolves, the store
    accepting the writes. *)
Lemma update_field_spec var field f instance validated_data
    (s : state Store) path dl ol x st1 st2 :
  is_nested f = true →
  is_Some (dict_of (wld s) validated_data !! field) →
  resolves (wld s) (source f) validated_data instance path dl ol →
  dict_of (wld s) dl !! field = Some x →
  NoDup (dl :: map snd path) →
  assignable var (inst_of (wld s) ol) field = true →
  assign_store var DB (inst_of (wld s) ol) field x (db (wld s))
  = (Ok tt, st1) →
  instance_save DB (assigned var (inst_of (wld s) ol) field x) st1
  = (Ok tt, st2) →
  ∃ w2,
    update_field DB var instance validated_data (field, f) s
    = (Ok tt,
       State w2 (log s ++ assign_events var (inst_of (wld s) ol) ol field x
                       ++ [EvSave ol]))
    ∧ inst_of w2 ol = assigned var (inst_of (wld s) ol) field x
    ∧ (∀ o, o ≠ ol → inst_of w2 o = inst_of (wld s) o)
    ∧ dict_of w2 dl = delete field (dict_of (wld s) dl)
    ∧ (∀ a seg b, (a, seg, b) ∈ links path dl →
         dict_of w2 a
         = if decide (dict_of w2 b = ∅)
           then delete seg (dict_of (wld s) a)
           else dict_of (wld s) a)
    ∧ (∀ l, l ∉ dl :: map snd path → dict_of w2 l = dict_of (wld s) l)
    ∧ db w2 = st2.
Proof.
  destruct s as [w lg]. cbn [wld log].
  intros Hnested Hfield Hres Hx Hnd Hmeta Hstore Hsave.
  destruct (resolves_links w _ _ _ _ _ _ Hres) as [Hnext Hlinks].
  unfold update_field. rewrite Hnested.
  rewrite (bind_ok _ _ _ _ _ (dict_contains_run validated_data field _)).
  cbn [wld]. rewrite bool_decide_eq_true_2 by done.
  rewrite (bind_ok _ _ _ _ _
             (walk_resolves w _ _ _ _ _ _ Hres _ [] lg (le_n _))).
  cbn [app].
  destruct (assign_spec var ol dl field x (State w lg) st1 Hx Hmeta Hstore)
    as (w1 & Hassign & Hi1 & Hio1 & Hd1 & Hdo1 & Hdb1).
  cbn [wld log] in *.
  rewrite (bind_ok _ _ _ _ _ Hassign).
  unfold bind at 1. rewrite py_save_run. cbn [wld log].
  rewrite Hi1, Hdb1, Hsave. cbn [fst snd].
  set (wS := World (dicts w1) (insts w1) st2).
  assert (HdS : ∀ l, dict_of wS l = dict_of w1 l) by done.
  assert (Hne : ∀ a, a ∈ map snd path → a ≠ dl).
  { intros a Ha ->. by apply NoDup_cons in Hnd as [Hdl _]. }
  destruct (prune_spec path dl
              (State wS ((lg ++ assign_events var (inst_of w ol) ol field x)
                         ++ [EvSave ol])))
    as (w2 & Hprune & Hi2 & Hdb2 & Hframe2 & Hl2); [|done|].
  { intros a seg b Hin. cbn [wld]. rewrite HdS.
    destruct (links_elem _ _ _ _ _ Hin) as [Ha _].
    rewrite Hdo1 by (by apply Hne). by apply Hlinks. }
  cbn [wld log] in *. rewrite Hprune.
  exists w2. split; [by rewrite <- List.app_assoc|].
  assert (Hinst : ∀ o, inst_of w2 o = inst_of w1 o).
  { intros o. unfold inst_of. by rewrite Hi2. }
  split; [by rewrite Hinst|].
  split; [intros o Ho; rewrite Hinst; by apply Hio1|].
  split.
  { rewrite Hframe2, HdS; [done|].
    by apply NoDup_cons in Hnd as [Hdl _]. }
  split; [|split; [|done]].
  - intros a seg b Hin. rewrite (Hl2 _ _ _ Hin), HdS.
    destruct (links_elem _ _ _ _ _ Hin) as [Ha _].
    by rewrite Hdo1 by (by apply Hne).
  - intros l Hl. apply not_elem_of_cons in Hl as [Hldl Hl].
    by rewrite Hframe2, HdS, Hdo1.
Qed.

(** X26.  [update] on a serializer with one nested field that is a key
    of the validated data, whose dotted source resolves from the
    validated data and the instance to a leaf payload that has the
    field's name as a key, through payloads that are distinct objects
    (the other fields being passed over); the field is one the module
    can assign on the leaf record, and the store accepts the writes:
    - the leaf record, reached by following the source on the instance,
      has the attribute named by the field set to the leaf payload's
      value (the extended module relates a to-many field through its
      manager instead);
    - the leaf record is saved, and it is the only record saved: the
      records passed on the way are not;
    - the field's key is gone from the leaf payload;
    - going up, a payload on the path has lost the key of its step
      exactly if the payload below it is empty now;
    - no other payload and no other record has changed, and the store is
      as the save left it;
    - the validated data that remain go to the parent class's [update]. *)
Theorem nested_update_sets_leaf_and_prunes var pre field f post instance
    validated_data (s : state Store) path dl ol x st1 st2 :
  let w := wld s in
  let i := inst_of w ol in
  is_nested f = true →
  Forall (passed_over w validated_data) (pre ++ post) →
  is_Some (dict_of w validated_data !! field) →
  resolves w (source f) validated_data instance path dl ol →
  dict_of w dl !! field = Some x →
  NoDup (dl :: map snd path) →
  assignable var i field = true →
  assign_store var DB i field x (db w) = (Ok tt, st1) →
  instance_save DB (assigned var i field x) st1 = (Ok tt, st2) →
  ∃ w2,
    update DB F var (pre ++ (field, f) :: post) instance validated_data s
    = call (EvSuperUpdate instance validated_data)
           (super_update F instance validated_data)
           (State w2 (log s ++ assign_events var i ol field x
                            ++ [EvSave ol]))
    ∧ inst_of w2 ol = assigned var i field x
    ∧ (∀ o, o ≠ ol → inst_of w2 o = inst_of w o)
    ∧ dict_of w2 dl = delete field (dict_of w dl)
    ∧ (∀ a seg b, (a, seg, b) ∈ links path dl →
         dict_of w2 a
         = if decide (dict_of w2 b = ∅)
           then delete seg (dict_of w a)
           else dict_of w a)
    ∧ (∀ l, l ∉ dl :: map snd path → dict_of w2 l = dict_of w l)
    ∧ db w2 = st2.
Proof.
  intros w i Hnested Hpassed Hfield Hres Hx Hnd Hmeta Hstore Hsave.
  apply Forall_app in Hpassed as [Hpre Hpost].
  destruct (update_field_spec var field f instance validated_data s
              path dl ol x st1 st2 Hnested Hfield Hres Hx Hnd Hmeta
              Hstore Hsave)
    as (w2 & Hrun & Hi & Hio & Hd & Hl & Hframe & Hdb).
  fold w i in Hrun, Hi, Hio, Hd, Hl, Hframe.
  exists w2. split; [|done].
  destruct (resolves_links w _ _ _ _ _ _ Hres) as [Hnext Hlinks].
  assert (Hvd : ∀ n, dict_of w validated_data !! n = None →
                     dict_of w2 validated_data !! n = None).
  { intros n Hn. rewrite <- Hnext in *.
    destruct path as [|[seg d] rest]; cbn [next_dict snd] in *.
    - rewrite Hd. by apply lookup_delete_None; right.
    - assert (Hin : (d, seg, next_dict rest dl) ∈ links ((seg, d) :: rest) dl)
        by (cbn [links fst snd]; by apply elem_of_cons; left).
      rewrite (Hl _ _ _ Hin).
      case_decide; [|done]. by apply lookup_delete_None; right. }
  unfold update. unfold bind. rewrite for_each_app. unfold bind.
  rewrite (passed_over_loop var instance validated_data pre s Hpre).
  cbn [for_each]. unfold bind. rewrite Hrun.
  rewrite (passed_over_loop var instance validated_data post (State w2 _));
    [done|].
  eapply Forall_impl; [exact Hpost|]. intros [n g] [Hg|Hn]; [by left|].
  right. by apply Hvd.
Qed.

(** C3.  On validated data as the framework builds them, [update]
    leaves a nested field with a dotted source alone.  The framework
    files the validated value of a field under the field's source: for
    the source [parent.child.attr], under [attr] in the mapping under
    [child] in the mapping under [parent].  The loop of [update] tests
    the field's own name against the keys of the top-level mapping, so
    when the value is filed under the source and the field's name is no
    top-level key, the field is passed over.  [update] is then the
    parent class's [update], called on the instance and the validated
    data as they were: the leaf record is not set, no record is saved,
    no payload is pruned. *)
Theorem nested_update_skips_filed_value var pre field f post instance
    validated_data (s : state Store) x :
  is_nested f = true →
  contains dot (source f) = true →
  filed (wld s) (source f) validated_data x →
  dict_of (wld s) validated_data !! field = None →
  Forall (passed_over (wld s) validated_data) (pre ++ post) →
  update DB F var (pre ++ (field, f) :: post) instance validated_data s
  = call (EvSuperUpdate instance validated_data)
         (super_update F instance validated_data) s.
Proof.
  intros Hnested Hdot Hfiled Hnone Hpassed.
  apply Forall_app in Hpassed as [Hpre Hpost].
  unfold update, bind.
  rewrite (passed_over_loop var instance validated_data
             (pre ++ (field, f) :: post) s); [done|].
  apply Forall_app. split; [done|]. constructor; [by right | done].
Qed.

End UpdateSpec.

(** ** Errors of the persistence layer, call by call *)

Section ErrorsSpec.
Context {Store : Type} (DB : store_ops Store) (F : framework Store).
Import BaseModelSerializer.


End ErrorsSpec.

(** ** [BaseModelSerializer.__init__] *)

Section Init.
Import BaseModelSerializer.

Lemma mem_elem x l : mem x l = true ↔ x ∈ l.
Proof.
  unfold mem. rewrite existsb_exists. split.
  - intros (y & Hin & Heq). apply String.eqb_eq in Heq. subst.
    by apply list_elem_of_In.
  - intros Hin. exists x. split; [by apply list_elem_of_In|].
    apply String.eqb_refl.
Qed.

Lemma fields_getitem_elem fs n :
  n ∈ map fst fs → ∃ f, fields_getitem fs n = Ok f.
Proof.
  induction fs as [|[n' f'] rest IH]; cbn [map fst fields_getitem].
  - intros Hin. by apply elem_of_nil in Hin.
  - destruct (String.eqb_spec n' n) as [->|Hne]; [by eexists|].
    intros [?|Hin]%elem_of_cons; [congruence | by apply IH].
Qed.

(** Popping distinct names that are all there removes exactly them. *)
Lemma pop_all_spec names fs :
  NoDup names →
  (∀ n, n ∈ names → n ∈ map fst fs) →
  pop_all names fs
  = Ok (List.filter (fun nf => negb (mem (fst nf) names)) fs).
Proof.
  revert fs. induction names as [|n rest IH]; intros fs Hnd Hin.
  - cbn. f_equal. clear. induction fs as [|a fs IHfs]; [done|]. cbn. by f_equal.
  - apply NoDup_cons in Hnd as [Hn Hnd]. cbn [pop_all]. unfold fields_pop.
    destruct (fields_getitem_elem fs n) as [f ->];
      [by apply Hin, elem_of_cons; left|].
    rewrite IH; [|done|].
    + f_equal. clear. induction fs as [|[n' f'] fs IHfs]; [done|].
      cbn [List.filter fst]. unfold mem at 2. cbn [existsb].
      fold (mem n' rest).
      destruct (String.eqb n' n); cbn [negb orb]; [done|].
      cbn [List.filter fst].
      destruct (mem n' rest); cbn [negb]; by rewrite IHfs.
    + intros n' Hn'. assert (n' ≠ n) by (intros ->; done).
      specialize (Hin n' ltac:(by apply elem_of_cons; right)).
      apply list_elem_of_fmap in Hin as ([n'' f''] & -> & Hin).
      apply list_elem_of_fmap. exists (n'', f''). split; [done|].
      apply list_elem_of_In, filter_In. rewrite <- list_elem_of_In.
      split; [done|]. cbn [fst] in *. apply negb_true_iff.
      by apply String.eqb_neq.
Qed.

(** What the constructor does once the parent class's constructor has
    returned: with a non-empty comma-separated option it keeps the
    fields named in the option, in their order. *)
Lemma init_filters super_init kwargs fs names :
  super_init kwargs = Ok fs →
  NoDup (map fst fs) →
  kwargs_pop kwargs "fields" = VStr names →
  names ≠ EmptyString →
  __init__ super_init kwargs
  = Ok (List.filter (fun nf => mem (fst nf) (split comma names)) fs).
Proof.
  intros Hsuper Hnd Hopt Hne. unfold __init__. rewrite Hsuper, Hopt.
  cbn [truthy py_split]. rewrite (proj2 (String.eqb_neq names "") Hne).
  cbn [negb]. rewrite pop_all_spec.
  - f_equal. apply filter_ext_in. intros [n f] Hin. cbn [fst].
    destruct (mem n (split comma names)) eqn:Hm.
    + apply negb_true_iff, not_true_iff_false. rewrite mem_elem.
      intros Hin'%list_elem_of_In%filter_In. destruct Hin' as [_ Hf].
      by rewrite Hm in Hf.
    + apply negb_false_iff, mem_elem, list_elem_of_In, filter_In.
      split; [|by rewrite Hm]. apply in_map_iff. by exists (n, f).
  - apply NoDup_ListNoDup, List.NoDup_filter, NoDup_ListNoDup, Hnd.
  - intros n Hn%list_elem_of_In%filter_In. apply list_elem_of_In, Hn.
Qed.

(** Without the option nothing is filtered. *)
Lemma init_unfiltered super_init kwargs fs :
  super_init kwargs = Ok fs →
  kwargs_pop kwargs "fields" = VNone →
  __init__ super_init kwargs = Ok fs.
Proof. intros Hsuper Hopt. unfold __init__. by rewrite Hsuper, Hopt. Qed.

(** C7.  The constructor hands the keyword arguments to the parent
    class's constructor before it takes [fields] out of them.  The
    framework's constructor knows no keyword [fields]: a construction
    with the option raises [TypeError] and never reaches the filter. *)
Theorem fields_option_rejected_by_framework declared names rest :
  __init__ (framework_init declared) (("fields"%string, VStr names) :: rest)
  = Raise TypeError.
Proof. done. Qed.

End Init.

(** ** Further properties of [BulkListSerializer.update] *)

Section BulkExtra.
Context {Store : Type} (DB : store_ops Store) (F : framework Store).
Variable id_attr : string.

(** X1.  An empty batch: [update] returns the empty list for any
    queryset.  It still asks for the count and the records, with no
    identifier, and never calls the single-record updater. *)
Theorem bulk_update_empty_batch queryset (s : state Store) :
  BulkListSerializer.update DB F id_attr queryset [] s
  = (Ok [], State (wld s) (log s ++ [EvCount id_attr []; EvFetch id_attr []])).
Proof.
  unfold BulkListSerializer.update. cbn [BulkListSerializer.by_id].
  unfold bind at 1, ret at 1.
  unfold BulkListSerializer.count, BulkListSerializer.fetch.
  rewrite dom_empty_L, elements_empty.
  unfold bind at 1. rewrite call_run. cbn [fst snd wld log].
  rewrite execute_no_keys. cbn [BulkListSerializer.answer fst snd].
  rewrite filter_in_no_keys, map_size_empty. cbn [length Nat.eqb negb].
  unfold bind at 1. rewrite call_run. cbn [fst snd wld log].
  rewrite execute_no_keys. cbn [BulkListSerializer.answer fst snd].
  rewrite filter_in_no_keys. cbn [BulkListSerializer.update_loop]. unfold ret.
  by rewrite <- List.app_assoc.
Qed.






(** The loop only calls the single-record updater, once per record it
    returns. *)
Lemma update_loop_run objs m acc (s : state Store) r s' :
  BulkListSerializer.update_loop F id_attr objs m acc s = (r, s') →
  ∃ calls,
    log s' = log s ++ calls
    ∧ Forall (fun ev => ∃ obj payload, ev = EvChildUpdate obj payload) calls
    ∧ ∀ l, r = Ok l → length l = length acc + length calls.
Proof.
  revert acc s. induction objs as [|o rest IH]; intros acc s.
  - intros [= <- <-]. exists []. rewrite app_nil_r. split; [done|].
    split; [constructor|]. intros l [= <-]. cbn. lia.
  - cbn [BulkListSerializer.update_loop]. unfold bind at 1.
    destruct (py_getattr (VRec o) id_attr s) as [[obj_id|e] s1] eqn:Hattr.
    2:{ intros [= <- <-]. exists [].
        assert (log s1 = log s) as ->.
        { revert Hattr. unfold py_getattr, bind, gets, ret, raise.
          repeat case_match; by intros [= _ <-]. }
        rewrite app_nil_r. split; [done|]. split; [constructor | done]. }
    assert (s1 = s) as ->.
    { revert Hattr. unfold py_getattr, bind, gets, ret, raise.
      repeat case_match; by intros [= _ <-]. }
    unfold bind at 1.
    destruct (BulkListSerializer.get m obj_id) as [p|e]; cbn [lift].
    2:{ unfold raise. intros [= <- <-]. exists []. rewrite app_nil_r.
        split; [done|]. split; [constructor | done]. }
    unfold ret at 1. unfold bind at 1. rewrite call_run.
    destruct (child_update F (VRec o) p (wld s)) as [[x|e] w1]; cbn [fst snd].
    + intros Hrun. destruct (IH _ _ Hrun) as (calls & Hlog & Hcalls & Hlen).
      exists (EvChildUpdate (VRec o) p :: calls). cbn [log] in Hlog.
      rewrite Hlog, <- List.app_assoc. split; [done|].
      split; [constructor; [by eexists _, _ | done]|].
      intros l Hl. rewrite (Hlen l Hl), length_app. cbn. lia.
    + intros [= <- <-]. exists [EvChildUpdate (VRec o) p]. cbn [log].
      split; [done|]. split; [|done].
      constructor; [by eexists _, _ | constructor].
Qed.

(** X2.  When [update] rejects a well-formed batch at the check (it
    raises the [ValidationError] having asked the count and nothing
    else), the identifiers have already been popped: every payload of
    the batch has lost its identifier key, no other mapping has changed,
    and no record has. *)
Theorem bulk_update_rejection_strips_payloads queryset batch
    (s s' : state Store) ids :
  well_formed id_attr (wld s) batch →
  BulkListSerializer.update DB F id_attr queryset batch s
  = (Raise (ValidationError "Could not find all objects to update."), s') →
  log s' = log s ++ [EvCount id_attr ids] →
  (∀ l, l ∈ batch →
     dict_of (wld s') l = delete id_attr (dict_of (wld s) l))
  ∧ (∀ l, l ∉ batch → dict_of (wld s') l = dict_of (wld s) l)
  ∧ insts (wld s') = insts (wld s).
Proof.
  intros Hwf Hrun Hlog.
  assert (Hw : dicts (wld s') = dicts (extracted id_attr (wld s) batch)
               ∧ insts (wld s') = insts (wld s)).
  { rewrite (update_unfold DB F id_attr queryset batch s Hwf) in Hrun.
    revert Hrun. unfold bind at 1.
    set (keys := list_to_set (batch_ids id_attr (wld s) batch) : gset Z).
    destruct (BulkListSerializer.execute id_attr (queryset_count DB) keys
                (extracted id_attr (wld s) batch)) as [r w2] eqn:Hq.
    rewrite (count_run DB id_attr keys queryset (State _ (log s)) _ _ Hq).
    destruct (execute_frame _ _ _ _ _ _ Hq) as [Hd2 Hi2].
    assert (Hi : insts w2 = insts (wld s))
      by (rewrite Hi2; apply extracted_frame).
    destruct r as [[]|e]; [|by intros [= _ <-]].
    destruct (negb _); [by intros [= <-]|].
    unfold bind at 1.
    destruct (BulkListSerializer.execute id_attr (queryset_iter DB) keys w2)
      as [r' w3] eqn:Hq'.
    rewrite (fetch_run DB id_attr keys queryset (State w2 _) _ _ Hq').
    destruct r' as [[]|e].
    - intros Hloop. exfalso.
      destruct (update_loop_run _ _ _ _ _ _ Hloop) as (calls & Hl & _).
      cbn [log] in Hl. rewrite Hlog, <- !List.app_assoc in Hl.
      apply app_inv_head in Hl. cbn in Hl. by injection Hl.
    - intros [= _ <-]. exfalso. cbn [log] in Hlog.
      rewrite <- !List.app_assoc in Hlog.
      apply app_inv_head in Hlog. cbn in Hlog. by injection Hlog. }
  destruct Hw as [Hd Hi]. split; [|split; [|done]].
  - intros l Hl. unfold dict_of at 1. rewrite Hd.
    fold (dict_of (extracted id_attr (wld s) batch) l).
    rewrite extracted_dict. by rewrite decide_True.
  - intros l Hl. unfold dict_of at 1. rewrite Hd.
    fold (dict_of (extracted id_attr (wld s) batch) l).
    rewrite extracted_dict. by rewrite decide_False.
Qed.


(** X28.  A lookup field that holds text.  The database converts the
    keys to the type of the field, so it finds the record whose field
    holds the text of an identifier of the batch, and the check passes;
    but the loop reads the text back from the record and looks the
    payload up under it, in a mapping keyed by integers: it finds none,
    and the single-record updater is called on the record with [None]
    for validated data.  What [update] returns or raises is what that
    call returns or raises. *)
Theorem bulk_update_text_identifier queryset batch (s : state Store) o t
    w2 w3 :
  let keys : gset Z := list_to_set (batch_ids id_attr (wld s) batch) in
  well_formed id_attr (wld s) batch →
  BulkListSerializer.execute id_attr (queryset_count DB) keys
    (extracted id_attr (wld s) batch) = (Ok tt, w2) →
  BulkListSerializer.execute id_attr (queryset_iter DB) keys w2
  = (Ok tt, w3) →
  BulkListSerializer.filter_in DB id_attr (wld s) keys queryset = [o] →
  size keys = 1 →
  attr_of (wld s) o id_attr = Some (VStr t) →
  BulkListSerializer.update DB F id_attr queryset batch s
  = (match fst (child_update F (VRec o) VNone w3) with
     | Ok r => Ok [r]
     | Raise e => Raise e
     end,
     State (snd (child_update F (VRec o) VNone w3))
           (log s ++ [EvCount id_attr (elements keys);
                      EvFetch id_attr (elements keys);
                      EvChildUpdate (VRec o) VNone])).
Proof.
  intros keys Hwf Hq Hq' Hfound Hsize Hattr.
  assert (Hcount :
    length (BulkListSerializer.filter_in DB id_attr (wld s) keys queryset)
    = size keys) by (by rewrite Hfound, Hsize).
  rewrite (update_enters DB F id_attr queryset batch s w2 w3 Hwf Hq Hcount Hq').
  fold keys. rewrite Hfound. cbn [BulkListSerializer.update_loop].
  destruct (execute_frame _ _ _ _ _ _ Hq) as [_ Hi2].
  destruct (execute_frame _ _ _ _ _ _ Hq') as [_ Hi3].
  assert (Hattr3 : attr_of w3 o id_attr = Some (VStr t)).
  { revert Hattr. unfold attr_of, inst_of. rewrite Hi3, Hi2.
    by rewrite (proj1 (extracted_frame id_attr (wld s) batch)). }
  rewrite (bind_ok _ _ _ _ _ (getattr_attr_of (State w3 _) o id_attr _ Hattr3)).
  cbn [BulkListSerializer.get lift]. unfold bind at 1, ret at 1.
  unfold bind. rewrite call_run. cbn [wld log].
  destruct (child_update F (VRec o) VNone w3) as [[r|e] w']; cbn [fst snd].
  - unfold ret. cbn [app]. by rewrite <- List.app_assoc.
  - by rewrite <- List.app_assoc.
Qed.

End BulkExtra.

(** ** Further properties of [to_internal_value] *)

Section ToInternalValueExtra.
Context {Store : Type} (DB : store_ops Store) (F : framework Store).
Import BaseModelSerializer.

(** X6.  A root-level invocation whose context has no readable request
    method ([self.context] has no [view], or the view no [request]):
    the basic module raises the [KeyError] or [AttributeError] of the
    read, after the standard validation has passed, whatever the parent
    and the fields; the extended module catches it and returns the
    validated mapping, with no identifier injected. *)
Theorem root_validation_without_request fields id_attr self_parent ctx data
    (s : state Store) ret_ w1 e :
  let s1 := State w1 (log s ++ [EvSuperToInternalValue data]) in
  root_level self_parent = true →
  super_to_internal_value F data (wld s) = (Ok ret_, w1) →
  read_method ctx = Raise e →
  to_internal_value DB F Basic fields id_attr self_parent ctx data s
  = (Raise e, s1)
  ∧ to_internal_value DB F Extended fields id_attr self_parent ctx data s
    = (Ok (VMap ret_), s1).
Proof.
  intros s1 Hroot Hsuper Hread. split.
  - unfold to_internal_value. rewrite Hroot.
    unfold bind at 1. rewrite call_run, Hsuper. cbn [fst snd].
    unfold method_of_request. rewrite Hread. done.
  - rewrite (root_validation DB F Extended fields id_attr self_parent ctx
               data s ret_ w1 VNone Hroot Hsuper).
    + cbn [put_or_patch]. by rewrite andb_false_r.
    + unfold method_of_request. by rewrite Hread.
Qed.

Lemma fields_getitem_missing fs n :
  n ∉ map fst fs → fields_getitem fs n = Raise (KeyError n).
Proof.
  induction fs as [|[n' f'] rest IH]; cbn [map fst fields_getitem]; [done|].
  intros [Hne Hin]%not_elem_of_cons.
  rewrite (proj2 (String.eqb_neq n' n)) by congruence. by apply IH.
Qed.

(** X7.  A PUT or PATCH under a [BulkListSerializer] with a non-empty
    identifier field name that is not among the serializer's fields:
    [to_internal_value] raises [KeyError] for that name, after the
    standard validation has passed. *)
Theorem injection_needs_identifier_field var fields id_attr self_parent ctx
    data (s : state Store) ret_ w1 rm :
  root_level self_parent = true →
  super_to_internal_value F data (wld s) = (Ok ret_, w1) →
  method_of_request var ctx = Ok rm →
  isinstance_bulk self_parent = true →
  id_attr ≠ EmptyString →
  put_or_patch rm = true →
  id_attr ∉ map fst fields →
  to_internal_value DB F var fields id_attr self_parent ctx data s
  = (Raise (KeyError id_attr),
     State w1 (log s ++ [EvSuperToInternalValue data])).
Proof.
  intros Hroot Hsuper Hrm Hbulk Hid Hput Hmissing.
  rewrite (root_validation DB F var fields id_attr self_parent ctx data s
             ret_ w1 rm Hroot Hsuper Hrm).
  rewrite Hbulk, (proj2 (truthy_str id_attr) Hid), Hput. cbn [andb].
  by rewrite fields_getitem_missing.
Qed.

(** X8.  A nested invocation whose input does not carry the identifier,
    whatever the context (the request is not read).  The basic module
    returns the mapping of the standard validation.  The extended
    module builds a nested serializer on the input, without instance and
    not partial, validates it, saves it and returns what the save
    returns; if the validation raises, that error is raised and nothing
    is saved. *)
Theorem nested_without_identifier fields id_attr self_parent ctx data
    (s : state Store) :
  let nested := Serializer None data false in
  root_level self_parent = false →
  dict_of (wld s) data !! id_attr = None →
  (∀ ret_ w1,
     super_to_internal_value F data (wld s) = (Ok ret_, w1) →
     to_internal_value DB F Basic fields id_attr self_parent ctx data s
     = (Ok (VMap ret_), State w1 (log s ++ [EvSuperToInternalValue data])))
  ∧ (∀ validated w2 r w3,
       serializer_is_valid F nested (wld s) = (Ok validated, w2) →
       serializer_save F nested validated w2 = (r, w3) →
       to_internal_value DB F Extended fields id_attr self_parent ctx data s
       = (r, State w3 (log s ++ [EvIsValid nested;
                                 EvSerializerSave nested])))
  ∧ (∀ e w2,
       serializer_is_valid F nested (wld s) = (Raise e, w2) →
       to_internal_value DB F Extended fields id_attr self_parent ctx data s
       = (Raise e, State w2 (log s ++ [EvIsValid nested]))).
Proof.
  intros nested Hnested Hnone.
  assert (Hbranch : ∀ var,
    to_internal_value DB F var fields id_attr self_parent ctx data s
    = match var with
      | Basic =>
          (ret_ <- call (EvSuperToInternalValue data)
                        (super_to_internal_value F data) ;;
           ret (VMap ret_)) s
      | Extended => validate_and_save F nested s
      end).
  { intros var. unfold to_internal_value. rewrite Hnested.
    rewrite (bind_ok _ _ _ _ _ (dict_contains_run data id_attr s)).
    rewrite Hnone, bool_decide_eq_false_2 by (by intros [? ?]).
    by destruct var. }
  split; [|split].
  - intros ret_ w1 Hsuper. rewrite Hbranch.
    unfold bind. by rewrite call_run, Hsuper.
  - intros validated w2 r w3 Hvalid Hsave. rewrite Hbranch.
    unfold validate_and_save, bind.
    rewrite call_run, Hvalid. cbn [fst snd]. rewrite call_run. cbn [wld log].
    rewrite Hsave. cbn [fst snd]. by rewrite <- List.app_assoc.
  - intros e w2 Hvalid. rewrite Hbranch.
    unfold validate_and_save, bind. by rewrite call_run, Hvalid.
Qed.

End ToInternalValueExtra.

(** ** Further properties of [create] and [update] *)

Section CreateExtra.
Context {Store : Type} (DB : store_ops Store).
Import BaseModelSerializer.

Lemma omap_ext_in {A B} (f g : A → option B) (l : list A) :
  (∀ x, x ∈ l → f x = g x) → omap f l = omap g l.
Proof.
  induction l as [|a l IH]; intros H; [done|]. cbn.
  rewrite (H a) by (by apply elem_of_cons; left).
  rewrite IH; [done|]. intros x Hx. apply H. by apply elem_of_cons; right.
Qed.

(** X9.  [create] reads the validated data only under the names of the
    serializer's fields: on two validated mappings that agree on these
    names, it does the same. *)
Theorem create_reads_declared_fields_only var fields data1 data2
    (s : state Store) :
  NoDup (map fst fields) →
  (∀ n, n ∈ map fst fields →
        dict_of (wld s) data1 !! n = dict_of (wld s) data2 !! n) →
  create DB var fields data1 s = create DB var fields data2 s.
Proof.
  intros Hnd Hsame. unfold create.
  rewrite !(bind_ok _ _ _ _ _
              (partition_fields_ok fields _ [] [] s Hnd
                 ltac:(intros; split; apply not_elem_of_nil))).
  assert (scalar_data fields (dict_of (wld s) data1)
          = scalar_data fields (dict_of (wld s) data2)) as ->.
  { unfold scalar_data. apply omap_ext_in.
    intros [n f] Hin. cbn [fst snd]. rewrite Hsame; [done|].
    apply list_elem_of_fmap. by exists (n, f). }
  assert (plural_data fields (dict_of (wld s) data1)
          = plural_data fields (dict_of (wld s) data2)) as ->; [|done].
  unfold plural_data. apply omap_ext_in.
  intros [n f] Hin. cbn [fst snd]. rewrite Hsame; [done|].
  apply list_elem_of_fmap. by exists (n, f).
Qed.

(** Attaching the plural fields, where the module can attach them and
    the store accepts. *)
Lemma attach_ok var o plural (s : state Store) i st' :
  insts (wld s) !! o = Some i →
  (∀ n v, (n, v) ∈ plural → attachable var i n = true) →
  attach_all var DB i plural (db (wld s)) = (Ok tt, st') →
  for_each plural (attach DB var (VRec o)) s
  = (Ok tt,
     State (World (dicts (wld s))
                  (<[o := attached var i plural]> (insts (wld s))) st')
           (log s ++ attach_events var o plural)).
Proof.
  intros Hi Hcan Hstore. destruct var; cbn [attach_all] in Hstore.
  - injection Hstore as <-. rewrite (attach_basic DB o plural s i Hi).
    + cbn [attach_events]. by rewrite app_nil_r.
    + intros n v Hin. specialize (Hcan n v Hin). revert Hcan.
      unfold attachable, assignable. by destruct (meta i !! n) as [[]|].
  - rewrite (attach_extended DB o plural s i st' Hi); [|
      intros n v Hin; specialize (Hcan n v Hin); revert Hcan;
      unfold attachable; by destruct (meta i !! n) as [[]|] | done].
    cbn [attached]. rewrite (insert_id _ _ _ Hi). done.
Qed.

(** X27.  [create] where the module can attach the plural fields (in
    the basic module their names are no relations of the created
    record's model, in the extended module they are to-many relations
    of it), on a store that creates the record, accepts the related
    values and saves: the record is created through the store from the
    scalar fields only, the value of every plural field is then attached
    to it, in field order (assigned as an attribute in the basic module,
    handed to the related manager in the extended one), and the record
    is then saved and returned.  The store is left as the save left
    it. *)
Theorem create_persists_attaches_saves var fields validated_data
    (s : state Store) i st1 st2 st3 :
  let validated := dict_of (wld s) validated_data in
  let data := scalar_data fields validated in
  let plural := plural_data fields validated in
  let o := fresh (dom (insts (wld s))) in
  NoDup (map fst fields) →
  objects_create DB data (db (wld s)) = (Ok i, st1) →
  (∀ n v, (n, v) ∈ plural → attachable var i n = true) →
  attach_all var DB i plural st1 = (Ok tt, st2) →
  instance_save DB (attached var i plural) st2 = (Ok tt, st3) →
  create DB var fields validated_data s
  = (Ok (VRec o),
     State (World (dicts (wld s))
                  (<[o := attached var i plural]> (insts (wld s))) st3)
           (log s ++ [EvCreate data] ++ attach_events var o plural
                  ++ [EvSave o])).
Proof.
  intros validated data plural o Hnd Hcreate Hcan Hattach Hsave.
  rewrite (create_created DB var fields validated_data s i st1 Hnd Hcreate).
  fold validated data plural o. set (s1 := State _ _).
  assert (Hi : insts (wld s1) !! o = Some i) by apply lookup_insert_eq.
  rewrite (bind_ok _ _ _ _ _ (attach_ok var o plural s1 i st2 Hi Hcan Hattach)).
  subst s1; cbn [wld log dicts insts db].
  rewrite insert_insert_eq.
  unfold bind at 1. rewrite py_save_run. cbn [wld log dicts insts db].
  rewrite (inst_of_lookup _ o (attached var i plural))
    by apply lookup_insert_eq.
  rewrite Hsave. cbn [fst snd]. unfold ret.
  by rewrite <- !List.app_assoc.
Qed.

Lemma keeps_ret {A} (a : A) : keeps_payloads (Store := Store) (ret a).
Proof. by intros s r s' [= <- <-]. Qed.

Lemma keeps_raise {A} e : keeps_payloads (Store := Store) (A := A) (raise e).
Proof. by intros s r s' [= <- <-]. Qed.

Lemma keeps_gets {A} (f : world Store → A) : keeps_payloads (gets f).
Proof. by intros s r s' [= <- <-]. Qed.

Lemma keeps_set_inst o i : keeps_payloads (Store := Store) (modify (set_inst o i)).
Proof. by intros s r s' [= <- <-]. Qed.

Lemma keeps_store_call {A} ev (f : Store → result A * Store) :
  keeps_payloads (call ev (on_db f)).
Proof.
  intros s r s'. rewrite call_run, on_db_run. by intros [= <- <-].
Qed.

Lemma keeps_bind {A B} (m : M Store A) (k : A → M Store B) :
  keeps_payloads m → (∀ a, keeps_payloads (k a)) → keeps_payloads (bind m k).
Proof.
  intros Hm Hk s r s'. unfold bind.
  destruct (m s) as [[a|e] s1] eqn:Hrun.
  - intros Hrun2. rewrite (Hk _ _ _ _ Hrun2). by apply (Hm _ _ _ Hrun).
  - intros [= <- <-]. by apply (Hm _ _ _ Hrun).
Qed.

Lemma keeps_for_each {A} (l : list A) (body : A → M Store unit) :
  (∀ x, keeps_payloads (body x)) → keeps_payloads (for_each l body).
Proof.
  intros Hbody. induction l as [|x l IH]; [apply keeps_ret|].
  cbn [for_each]. apply keeps_bind; [apply Hbody | by intros _].
Qed.

Ltac keeps :=
  repeat first
    [ apply keeps_ret | apply keeps_raise | apply keeps_gets
    | apply keeps_set_inst | apply keeps_store_call
    | apply keeps_for_each; intros ?
    | apply keeps_bind; [|intros ?]
    | match goal with
      | |- keeps_payloads (match ?x with _ => _ end) => destruct x
      end ].

Lemma keeps_partition_fields fs validated_data data m2m :
  keeps_payloads (partition_fields (Store := Store) fs validated_data data m2m).
Proof.
  revert data m2m. induction fs as [|[n f] rest IH]; intros data m2m;
    cbn [partition_fields]; [keeps|].
  unfold dict_contains, dict_getitem.
  apply keeps_bind; [keeps | intros present].
  destruct present; [|apply IH].
  apply keeps_bind; [keeps | intros v].
  destruct (is_plural f); apply IH.
Qed.

(** X10.  [create] changes no payload mapping, whatever the store does
    and whether it returns or raises: the validated data are read, never
    written. *)
Theorem create_keeps_payloads var fields validated_data (s : state Store)
    r s' :
  create DB var fields validated_data s = (r, s') →
  dicts (wld s') = dicts (wld s).
Proof.
  revert s r s'. change (keeps_payloads (create DB var fields validated_data)).
  unfold create.
  apply keeps_bind; [apply keeps_partition_fields | intros dm].
  unfold model_create, new_inst, attach, py_setattr, py_getattr, bound_set,
    py_set, py_save.
  keeps.
Qed.

End CreateExtra.

Section UpdateExtra.
Context {Store : Type} (DB : store_ops Store) (F : framework Store).
Import BaseModelSerializer.

(** X11.  When no field of the serializer is a nested serializer with
    a key in the validated data, [update] is the parent class's
    [update], called on the instance and the validated data as they
    are. *)
Theorem update_without_nested_data var fields instance validated_data
    (s : state Store) :
  Forall (passed_over (wld s) validated_data) fields →
  update DB F var fields instance validated_data s
  = call (EvSuperUpdate instance validated_data)
         (super_update F instance validated_data) s.
Proof.
  intros Hpassed. unfold update, bind.
  by rewrite (passed_over_loop DB var instance validated_data fields s Hpassed).
Qed.

(** X12.  A nested field that is a key of the validated data, whose
    source resolves to a leaf payload that has no key of the field's
    name: [update] raises, and nothing has been written: no payload, no
    record and no collaborator has been touched.  The error is the
    [KeyError] for the field's name; in the extended module, which asks
    the model of the leaf record for the field first, it is
    [FieldDoesNotExist] when the model has no field of that name. *)
Theorem nested_update_leaf_key_missing var pre field f post instance
    validated_data (s : state Store) path dl ol :
  is_nested f = true →
  Forall (passed_over (wld s) validated_data) pre →
  is_Some (dict_of (wld s) validated_data !! field) →
  resolves (wld s) (source f) validated_data instance path dl ol →
  dict_of (wld s) dl !! field = None →
  update DB F var (pre ++ (field, f) :: post) instance validated_data s
  = (Raise match var, meta (inst_of (wld s) ol) !! field with
           | Extended, None => FieldDoesNotExist field
           | _, _ => KeyError field
           end, s).
Proof.
  intros Hnested Hpre Hfield Hres Hnone.
  unfold update. unfold bind at 1. rewrite for_each_app. unfold bind at 1.
  rewrite (passed_over_loop DB var instance validated_data pre s Hpre).
  cbn [for_each]. unfold bind at 1.
  set (e := match var, meta (inst_of (wld s) ol) !! field with
            | Extended, None => FieldDoesNotExist field
            | _, _ => KeyError field
            end).
  assert (update_field DB var instance validated_data (field, f) s
          = (Raise e, s)) as ->; [|done].
  unfold update_field. rewrite Hnested.
  rewrite (bind_ok _ _ _ _ _ (dict_contains_run validated_data field s)).
  rewrite bool_decide_eq_true_2 by done.
  destruct s as [w lg]. cbn [wld] in *.
  rewrite (bind_ok _ _ _ _ _
             (walk_resolves w _ _ _ _ _ _ Hres _ [] lg (le_n _))).
  unfold bind at 1.
  assert (assign DB var (VRec ol) (VMap dl) field (State w lg)
          = (Raise e, State w lg)) as ->; [|done].
  subst e. unfold assign. destruct var.
  - cbn [py_pop].
    rewrite (bind_raise _ _ _ _ _ (dict_pop_none dl field (State w lg) Hnone)).
    by destruct (meta (inst_of w ol) !! field).
  - destruct (meta (inst_of w ol) !! field) as [k|] eqn:Hk.
    + rewrite (bind_ok _ _ _ _ _ (is_to_many_run ol field k (State w lg) Hk)).
      unfold bind at 1. case_bool_decide as Hmany.
      * subst k.
        assert (Hattr : attr_of w ol field = Some (VManager ol field))
          by (unfold attr_of; by rewrite Hk).
        rewrite (bind_ok _ _ _ _ _
                   (getattr_attr_of (State w lg) ol field _ Hattr)).
        cbn [bound_set]. unfold bind at 1, ret at 1. cbn [py_getitem].
        by rewrite (bind_raise _ _ _ _ _
                      (dict_getitem_none dl field (State w lg) Hnone)).
      * cbn [py_getitem].
        by rewrite (bind_raise _ _ _ _ _
                      (dict_getitem_none dl field (State w lg) Hnone)).
    + unfold bind at 1, is_to_many, bind, gets. cbn [wld]. by rewrite Hk.
Qed.

(** X29.  An assignment that the descriptor of a to-one relation
    refuses.  A nested field with an undotted source whose name is a key
    of the validated data and a to-one relation of the instance's model,
    with a value that the descriptor refuses with [e] (a mapping where a
    record is expected, for one): [update] raises [e] in both modules,
    nothing is saved and the parent class's [update] is not reached.
    The basic module has popped the value by then, so the validated data
    have lost the field's key; the extended module pops after the
    assignment, so it leaves the validated data as they were. *)
Theorem update_refused_assignment pre field f post instance validated_data
    (s : state Store) x e :
  let w := wld s in
  is_nested f = true →
  contains dot (source f) = false →
  Forall (passed_over w validated_data) pre →
  dict_of w validated_data !! field = Some x →
  meta (inst_of w instance) !! field = Some ToOne →
  to_one_set DB (insts w) (inst_of w instance) field x = Raise e →
  update DB F Basic (pre ++ (field, f) :: post) instance validated_data s
  = (Raise e,
     State (set_dict validated_data
              (delete field (dict_of w validated_data)) w) (log s))
  ∧ update DB F Extended (pre ++ (field, f) :: post) instance
      validated_data s
    = (Raise e, s).
Proof.
  intros w Hnested Hdot Hpre Hx Hmeta Hset.
  assert (Hrefuse : ∀ instances' : gmap oid inst, instances' = insts w →
    descriptor_set DB instances' (inst_of w instance) field x = Raise e).
  { intros ? ->. unfold descriptor_set. by rewrite Hmeta, Hset. }
  assert (Hloop : ∀ var r,
    assign DB var (VRec instance) (VMap validated_data) field s = (Raise e, r) →
    update DB F var (pre ++ (field, f) :: post) instance validated_data s
    = (Raise e, r)).
  { intros var r Hassign.
    unfold update. unfold bind at 1. rewrite for_each_app. unfold bind at 1.
    rewrite (passed_over_loop DB var instance validated_data pre s Hpre).
    cbn [for_each]. unfold bind at 1.
    assert (update_field DB var instance validated_data (field, f) s
            = (Raise e, r)) as ->; [|done].
    unfold update_field. rewrite Hnested.
    rewrite (bind_ok _ _ _ _ _ (dict_contains_run validated_data field s)).
    fold w. rewrite Hx, bool_decide_eq_true_2 by eauto.
    rewrite (bind_ok _ _ _ _ _ (walk_undotted _ _ _ _ _ s Hdot)).
    by rewrite (bind_raise _ _ _ _ _ Hassign). }
  split; apply Hloop; unfold assign.
  - cbn [py_pop].
    rewrite (bind_ok _ _ _ _ _ (dict_pop_some validated_data field x s Hx)).
    rewrite py_setattr_run. cbn [wld insts].
    change (inst_of (set_dict validated_data
                       (delete field (dict_of (wld s) validated_data)) (wld s))
                    instance)
      with (inst_of w instance).
    by rewrite Hrefuse.
  - rewrite (bind_ok _ _ _ _ _ (is_to_many_run instance field ToOne s Hmeta)).
    rewrite bool_decide_eq_false_2 by done. cbn [py_getitem].
    unfold bind at 1.
    rewrite (bind_ok _ _ _ _ _ (dict_getitem_some validated_data field x s Hx)).
    rewrite py_setattr_run. fold w. by rewrite Hrefuse.
Qed.

Lemma nested_items_cons n f fields (m : gmap string value) :
  nested_items ((n, f) :: fields) m
  = (if is_nested f
     then match m !! n with Some v => [(n, v)] | None => [] end
     else [])
    ++ nested_items fields m.
Proof.
  unfold nested_items. cbn [omap fst snd]. simpl.
  destruct (is_nested f); [|done]. by destruct (m !! n).
Qed.

Lemma nested_items_delete n fields (m : gmap string value) :
  n ∉ map fst fields →
  nested_items fields (delete n m) = nested_items fields m.
Proof.
  intros Hn. unfold nested_items. apply omap_ext_in. intros [n' f'] Hin.
  cbn [fst snd]. rewrite lookup_delete_ne; [done|].
  intros ->. apply Hn. apply list_elem_of_fmap. by exists (n', f').
Qed.

Lemma nested_items_names fields (m : gmap string value) n x :
  (n, x) ∈ nested_items fields m →
  n ∈ map fst fields ∧ m !! n = Some x.
Proof.
  unfold nested_items. intros ([n' f'] & Hin & Hx)%list_elem_of_omap.
  cbn [fst snd] in Hx. destruct (is_nested f'); [|done].
  destruct (m !! n') as [v|] eqn:Hv; [|done]. injection Hx as <- <-.
  split; [|done]. apply list_elem_of_fmap. by exists (n', f').
Qed.

Lemma assigned_meta var i field x : meta (assigned var i field x) = meta i.
Proof. unfold assigned. by destruct (relates var i field). Qed.

(** The loop of [update] over nested fields whose sources have no dot:
    each one that the validated data have is set on the instance (or
    related to it), saved and taken out of the validated data. *)
Lemma update_fields_undotted var fields instance validated_data
    (s : state Store) :
  NoDup (map fst fields) →
  (∀ n f, (n, f) ∈ fields → is_nested f = true →
          contains dot (source f) = false) →
  (∀ n x, (n, x) ∈ nested_items fields (dict_of (wld s) validated_data) →
          assignable var (inst_of (wld s) instance) n = true) →
  accepts_sets DB →
  accepts_saves DB →
  let m0 := dict_of (wld s) validated_data in
  let i0 := inst_of (wld s) instance in
  let taken := nested_items fields m0 in
  ∃ w2,
    for_each fields (update_field DB var instance validated_data) s
    = (Ok tt,
       State w2
         (log s ++ flat_map (fun nv =>
                      assign_events var i0 instance (fst nv) (snd nv)
                        ++ [EvSave instance]) taken))
    ∧ inst_of w2 instance
      = foldl (fun i nv => assigned var i (fst nv) (snd nv)) i0 taken
    ∧ (∀ o, o ≠ instance → inst_of w2 o = inst_of (wld s) o)
    ∧ dict_of w2 validated_data = foldl (fun m nv => delete (fst nv) m) m0 taken
    ∧ (∀ l, l ≠ validated_data → dict_of w2 l = dict_of (wld s) l).
Proof.
  intros Hnd Hsrc Hmeta Hsets Hsaves. revert s Hmeta.
  induction fields as [|[n f] rest IH]; intros s Hmeta m0 i0 taken.
  - exists (wld s). cbn. unfold ret. by rewrite app_nil_r, state_eta.
  - cbn [map fst] in Hnd. apply NoDup_cons in Hnd as [Hn Hnd].
    assert (Hsrc' : ∀ n' f', (n', f') ∈ rest → is_nested f' = true →
                             contains dot (source f') = false).
    { intros n' f' Hin. apply (Hsrc n' f'). by apply elem_of_cons; right. }
    specialize (IH Hnd Hsrc'). cbn [for_each].
    subst taken. rewrite nested_items_cons.
    destruct (is_nested f) eqn:Hnested;
      [destruct (m0 !! n) as [x|] eqn:Hx|].
    + (* the field is taken *)
      assert (∃ st1, assign_store var DB i0 n x (db (wld s)) = (Ok tt, st1))
        as [st1 Hst1].
      { unfold assign_store. destruct (relates var i0 n); [|by eexists].
        apply Hsets. }
      destruct (Hsaves (assigned var i0 n x) st1) as [st2 Hst2].
      destruct (update_field_spec DB var n f instance validated_data s
                  [] validated_data instance x st1 st2)
        as (w1 & Hrun & Hi1 & Hio1 & Hd1 & _ & Hdo1 & _); try done.
      { apply resolves_here. apply (Hsrc n f); [by apply elem_of_cons; left|done]. }
      { apply NoDup_singleton. }
      { apply (Hmeta n x). rewrite nested_items_cons.
        fold m0. rewrite Hnested, Hx. by apply elem_of_cons; left. }
      fold i0 m0 in Hrun, Hi1, Hd1.
      rewrite (bind_ok _ _ _ _ _ Hrun). set (s1 := State w1 _).
      assert (Htaken : nested_items rest (dict_of (wld s1) validated_data)
                       = nested_items rest m0).
      { subst s1; cbn [wld]. rewrite Hd1. by apply nested_items_delete. }
      destruct (IH s1) as (w2 & Hrun2 & Hi2 & Hio2 & Hd2 & Hdo2).
      { intros n' x' Hin. subst s1; cbn [wld]. unfold assignable.
        rewrite Hi1, assigned_meta.
        apply (Hmeta n' x'). rewrite nested_items_cons. fold m0.
        apply elem_of_app. right. by rewrite <- Htaken. }
      rewrite Htaken in Hrun2, Hi2, Hd2. subst s1; cbn [wld log] in *.
      exists w2. split.
      { rewrite Hrun2. cbn [app flat_map fst snd].
        rewrite <- !List.app_assoc. do 4 f_equal. cbn [app].
        f_equal. apply flat_map_ext. intros [n' x']. cbn [fst snd].
        unfold assign_events, relates. rewrite Hi1.
        by rewrite assigned_meta. }
      split; [by rewrite Hi2, Hi1|].
      split; [intros o Ho; by rewrite Hio2, Hio1|].
      split; [by rewrite Hd2, Hd1|].
      intros l Hl. rewrite Hdo2 by done. apply Hdo1.
      by intros ?%list_elem_of_singleton.
    + (* absent from the validated data *)
      assert (update_field DB var instance validated_data (n, f) s
              = (Ok tt, s)) as Hskip.
      { unfold update_field. rewrite Hnested.
        rewrite (bind_ok _ _ _ _ _ (dict_contains_run validated_data n s)).
        fold m0. rewrite Hx.
        by rewrite bool_decide_eq_false_2 by (by intros [? ?]). }
      rewrite (bind_ok _ _ _ _ _ Hskip). cbn [app].
      apply IH. intros n' x' Hin. apply (Hmeta n' x').
      rewrite nested_items_cons. fold m0. by rewrite Hnested, Hx.
    + (* not a nested field *)
      assert (update_field DB var instance validated_data (n, f) s
              = (Ok tt, s)) as Hskip.
      { unfold update_field. by rewrite Hnested. }
      rewrite (bind_ok _ _ _ _ _ Hskip). cbn [app].
      apply IH. intros n' x' Hin. apply (Hmeta n' x').
      rewrite nested_items_cons. by rewrite Hnested.
Qed.

Lemma foldl_delete_lookup (taken : list (string * value))
    (m : gmap string value) k :
  foldl (fun m nv => delete (fst nv) m) m taken !! k
  = if decide (k ∈ map fst taken) then None else m !! k.
Proof.
  revert m. induction taken as [|[n x] rest IH]; intros m; cbn [foldl map fst].
  - by rewrite decide_False by apply not_elem_of_nil.
  - rewrite IH. destruct (decide (k ∈ map fst rest)) as [Hin|Hin].
    + rewrite decide_True; [done | by apply elem_of_cons; right].
    + destruct (decide (k = n)) as [->|Hne].
      * rewrite decide_True by (by apply elem_of_cons; left).
        by rewrite lookup_delete_eq.
      * rewrite decide_False by (intros [?|?]%elem_of_cons; done).
        by rewrite lookup_delete_ne.
Qed.

(** X13.  A serializer whose nested fields have sources without a dot,
    with any number of them in the validated data, each of them a field
    that the module can assign on the instance (in the basic module no
    relation of the instance's model, in the extended module a column
    or a to-many relation of it), and a store that accepts the writes:
    for each such field, in field order, the value is set on the
    instance under the field's name (in the extended module a to-many
    field is related through its manager) and the instance is saved;
    then the parent class's [update] is called, on validated data that
    have no key of a nested field any more and every other key as
    before. *)
Theorem update_takes_out_nested_data var fields instance validated_data
    (s : state Store) :
  let m0 := dict_of (wld s) validated_data in
  let i0 := inst_of (wld s) instance in
  let taken := nested_items fields m0 in
  NoDup (map fst fields) →
  (∀ n f, (n, f) ∈ fields → is_nested f = true →
          contains dot (source f) = false) →
  (∀ n x, (n, x) ∈ taken → assignable var i0 n = true) →
  accepts_sets DB →
  accepts_saves DB →
  ∃ w2,
    update DB F var fields instance validated_data s
    = call (EvSuperUpdate instance validated_data)
           (super_update F instance validated_data)
           (State w2
              (log s ++ flat_map (fun nv =>
                           assign_events var i0 instance (fst nv) (snd nv)
                             ++ [EvSave instance]) taken))
    ∧ inst_of w2 instance
      = foldl (fun i nv => assigned var i (fst nv) (snd nv)) i0 taken
    ∧ (∀ o, o ≠ instance → inst_of w2 o = inst_of (wld s) o)
    ∧ (∀ n f, (n, f) ∈ fields → is_nested f = true →
         dict_of w2 validated_data !! n = None)
    ∧ (∀ k, k ∉ map fst taken → dict_of w2 validated_data !! k = m0 !! k)
    ∧ (∀ l, l ≠ validated_data → dict_of w2 l = dict_of (wld s) l).
Proof.
  intros m0 i0 taken Hnd Hsrc Hmeta Hsets Hsaves.
  destruct (update_fields_undotted var fields instance validated_data s
              Hnd Hsrc Hmeta Hsets Hsaves)
    as (w2 & Hrun & Hi & Hio & Hd & Hdo).
  fold m0 i0 taken in Hrun, Hi, Hd.
  exists w2. split.
  { unfold update. by rewrite (bind_ok _ _ _ _ _ Hrun). }
  split; [done|]. split; [done|]. split; [|split; [|done]].
  - intros n f Hin Hnested. rewrite Hd, foldl_delete_lookup.
    case_decide as Hk; [done|].
    destruct (m0 !! n) as [x|] eqn:Hx; [|done].
    exfalso. apply Hk. apply list_elem_of_fmap. exists (n, x).
    split; [done|]. subst taken. unfold nested_items.
    apply list_elem_of_omap. exists (n, f). split; [done|].
    cbn [fst snd]. by rewrite Hnested, Hx.
  - intros k Hk. rewrite Hd, foldl_delete_lookup. by rewrite decide_False.
Qed.

End UpdateExtra.

(** ** The constructor as a whole *)

Section InitExtra.
Import BaseModelSerializer.

Lemma kwargs_pop_absent kwargs name :
  name ∉ map fst kwargs → kwargs_pop kwargs name = VNone.
Proof.
  induction kwargs as [|[n v] rest IH]; cbn [map fst kwargs_pop]; [done|].
  intros [Hne Hin]%not_elem_of_cons.
  rewrite (proj2 (String.eqb_neq n name)) by congruence. by apply IH.
Qed.

(** Without the option the constructor is the parent class's. *)
Lemma init_without_option super_init kwargs :
  "fields"%string ∉ map fst kwargs →
  __init__ super_init kwargs = super_init kwargs.
Proof.
  intros Habsent. unfold __init__. rewrite kwargs_pop_absent by done.
  by destruct (super_init kwargs).
Qed.

(** X14.  With the framework's constructor as the parent class's, the
    constructor is the framework's constructor, for all keyword
    arguments: the same fields or the same [TypeError].  It never
    filters. *)
Theorem constructor_is_framework_constructor declared kwargs :
  __init__ (framework_init declared) kwargs = framework_init declared kwargs.
Proof.
  destruct (decide ("fields"%string ∈ map fst kwargs)) as [Hin|Hout];
    [|by apply init_without_option].
  assert (framework_init declared kwargs = Raise TypeError) as Hraise.
  { unfold framework_init.
    destruct (forallb _ kwargs) eqn:Hall; [|done].
    rewrite forallb_forall in Hall.
    apply list_elem_of_fmap in Hin as ([n v] & Hn & Hin). cbn [fst] in Hn.
    subst n. apply list_elem_of_In in Hin. by specialize (Hall _ Hin). }
  unfold __init__. by rewrite Hraise.
Qed.

End InitExtra.

(** ** From validation to the bulk update; failures of [create] *)

Section BulkPipeline.
Context {Store : Type} (DB : store_ops Store) (F : framework Store).
Import BaseModelSerializer.

(** X22.  From [to_internal_value] to [BulkListSerializer.update].  On
    a PUT or PATCH under a [BulkListSerializer], the mapping that
    [to_internal_value] returns for an item carries, under the
    identifier's name, what the raw item has there, so that [update]
    extracts the identifier that [int] reads from the raw value.  For a
    raw item without the identifier the mapping carries [empty]
    instead, and [update] on it raises [TypeError], having asked
    nothing of the store. *)
Theorem bulk_item_identifier_reaches_update var fields id_attr self_parent
    ctx data (s : state Store) ret_ w1 rm :
  root_level self_parent = true →
  super_to_internal_value F data (wld s) = (Ok ret_, w1) →
  method_of_request var ctx = Ok rm →
  isinstance_bulk self_parent = true →
  id_attr ≠ EmptyString →
  put_or_patch rm = true →
  (∃ f, fields_getitem fields id_attr = Ok f) →
  ∃ s',
    to_internal_value DB F var fields id_attr self_parent ctx data s
    = (Ok (VMap ret_), s')
    ∧ (∀ v, dict_of w1 data !! id_attr = Some v →
            payload_id id_attr (wld s') ret_
            = match py_int v with Ok z => Some z | Raise _ => None end)
    ∧ (dict_of w1 data !! id_attr = None →
       dict_of (wld s') ret_ !! id_attr = Some VEmpty
       ∧ ∀ queryset,
           BulkListSerializer.update DB F id_attr queryset [ret_] s'
           = (Raise TypeError,
              State (set_dict ret_ (delete id_attr (dict_of (wld s') ret_))
                       (wld s'))
                    (log s'))).
Proof.
  intros Hroot Hsuper Hrm Hbulk Hid Hput [f Hf].
  rewrite (root_validation DB F var fields id_attr self_parent ctx data s
             ret_ w1 rm Hroot Hsuper Hrm).
  rewrite Hbulk, (proj2 (truthy_str id_attr) Hid), Hput. cbn [andb].
  rewrite Hf. cbn [lift]. unfold bind at 1, ret at 1.
  unfold get_value, dict_setitem, bind, gets, modify, ret. cbn [wld log].
  eexists. split; [reflexivity|]. cbn [wld].
  assert (Hret : ∀ x,
    dict_of (set_dict ret_ (<[id_attr := x]> (dict_of w1 ret_)) w1) ret_
      !! id_attr = Some x).
  { intros x. rewrite dict_of_set_dict, decide_True by done.
    apply lookup_insert_eq. }
  split.
  - intros v Hv. unfold payload_id. rewrite Hv. cbn [default].
    by rewrite Hret.
  - intros Hnone. rewrite Hnone. cbn [default]. split; [apply Hret|].
    intros queryset. unfold BulkListSerializer.update.
    cbn [BulkListSerializer.by_id]. unfold bind at 1, bind at 1.
    by rewrite (dict_pop_some ret_ id_attr VEmpty
                  (State (set_dict ret_ (<[id_attr := VEmpty]> (dict_of w1 ret_))
                            w1) _) (Hret VEmpty)).
Qed.

End BulkPipeline.

Section CreateFailure.
Context {Store : Type} (DB : store_ops Store).
Import BaseModelSerializer.



End CreateFailure.

(** ** The two modules compared *)

Section Modules.
Context {Store : Type} (DB : store_ops Store) (F : framework Store).
Import BaseModelSerializer.

Lemma meta_ret {A} (a : A) : keeps_meta (Store := Store) (ret a).
Proof. by intros s r s' [= <- <-]. Qed.

Lemma meta_raise {A} e : keeps_meta (Store := Store) (A := A) (raise e).
Proof. by intros s r s' [= <- <-]. Qed.

Lemma meta_gets {A} (f : world Store → A) : keeps_meta (gets f).
Proof. by intros s r s' [= <- <-]. Qed.

Lemma meta_set_dict d m : keeps_meta (Store := Store) (modify (set_dict d m)).
Proof. by intros s r s' [= <- <-]. Qed.

Lemma meta_store_call {A} ev (f : Store → result A * Store) :
  keeps_meta (call ev (on_db f)).
Proof. intros s r s'. rewrite call_run, on_db_run. by intros [= <- <-]. Qed.

Lemma descriptor_set_meta instances i name x i' :
  descriptor_set DB instances i name x = Ok i' → meta i' = meta i.
Proof.
  unfold descriptor_set.
  destruct (meta i !! name) as [[]|]; try (by intros [= <-]).
  destruct (to_one_set DB instances i name x); by intros [= <-].
Qed.

Lemma meta_setattr v name x : keeps_meta (py_setattr DB v name x).
Proof.
  destruct v; try apply meta_raise. intros s r s'.
  rewrite py_setattr_run.
  destruct (descriptor_set DB _ _ name x) as [i'|e] eqn:Hset.
  - intros [= <- <-] o'. cbn [wld]. rewrite inst_of_set_inst.
    case_decide; subst; [|done]. by apply (descriptor_set_meta _ _ _ _ _ Hset).
  - by intros [= <- <-].
Qed.

Lemma meta_bind {A B} (m : M Store A) (k : A → M Store B) :
  keeps_meta m → (∀ a, keeps_meta (k a)) → keeps_meta (bind m k).
Proof.
  intros Hm Hk s r s'. unfold bind.
  destruct (m s) as [[a|e] s1] eqn:Hrun.
  - intros Hrun2 o. rewrite (Hk _ _ _ _ Hrun2). by apply (Hm _ _ _ Hrun).
  - intros [= <- <-]. by apply (Hm _ _ _ Hrun).
Qed.

Lemma meta_for_each {A} (l : list A) (body : A → M Store unit) :
  (∀ x, keeps_meta (body x)) → keeps_meta (for_each l body).
Proof.
  intros Hbody. induction l as [|x l IH]; [apply meta_ret|].
  cbn [for_each]. apply meta_bind; [apply Hbody | by intros _].
Qed.

Ltac keeps_meta :=
  repeat first
    [ apply meta_ret | apply meta_raise | apply meta_gets
    | apply meta_set_dict | apply meta_store_call | apply meta_setattr
    | apply meta_for_each; intros ?
    | apply meta_bind; [|intros ?]
    | match goal with
      | |- keeps_meta (match ?x with _ => _ end) => destruct x
      end ].

Lemma meta_walk fuel source v ins path :
  keeps_meta (walk (Store := Store) fuel source v ins path).
Proof.
  revert source v ins path.
  induction fuel as [|fuel IH]; intros src v ins path; cbn [walk].
  - keeps_meta.
  - destruct (contains dot src); [|keeps_meta].
    apply meta_bind; [unfold py_getitem, dict_getitem; keeps_meta | intros v'].
    apply meta_bind; [unfold py_getattr; keeps_meta | intros ins'].
    apply IH.
Qed.

Lemma meta_update_field var instance validated_data nf :
  keeps_meta (update_field DB var instance validated_data nf).
Proof.
  unfold update_field, dict_contains. destruct nf as [field f].
  destruct (is_nested f); [|keeps_meta].
  apply meta_bind; [keeps_meta | intros present].
  destruct present; [|keeps_meta].
  apply meta_bind; [apply meta_walk | intros [[v ins] path]].
  unfold assign, is_to_many, bound_set, prune, py_pop, py_getitem, py_getattr,
    py_set, py_save, py_len, py_delitem, dict_pop, dict_getitem, dict_delitem.
  keeps_meta.
Qed.

(** On a column the two modules assign alike. *)
Lemma assign_agree o d field (s : state Store) :
  meta (inst_of (wld s) o) !! field = Some Column →
  assign DB Basic (VRec o) (VMap d) field s
  = assign DB Extended (VRec o) (VMap d) field s.
Proof.
  intros Hmeta. unfold assign.
  rewrite (bind_ok _ _ _ _ _ (is_to_many_run o field Column s Hmeta)).
  rewrite bool_decide_eq_false_2 by done.
  cbn [py_pop py_getitem].
  destruct (dict_of (wld s) d !! field) as [x|] eqn:Hx.
  - rewrite (bind_ok _ _ _ _ _ (dict_pop_some d field x s Hx)).
    rewrite py_setattr_run. cbn [wld log insts].
    change (inst_of (set_dict d (delete field (dict_of (wld s) d)) (wld s)) o)
      with (inst_of (wld s) o).
    unfold descriptor_set at 1. rewrite Hmeta.
    unfold bind at 1.
    rewrite (bind_ok _ _ _ _ _ (dict_getitem_some d field x s Hx)).
    rewrite py_setattr_run. unfold descriptor_set. rewrite Hmeta.
    rewrite (bind_ok _ _ _ _ _
               (dict_pop_some d field x (State (set_inst o _ (wld s)) (log s)) Hx)).
    done.
  - rewrite (bind_raise _ _ _ _ _ (dict_pop_none d field s Hx)).
    unfold bind at 1.
    by rewrite (bind_raise _ _ _ _ _ (dict_getitem_none d field s Hx)).
Qed.

Lemma update_field_agree instance validated_data n f (s : state Store) :
  (is_nested f = true →
   contains dot (source f) = false
   ∧ meta (inst_of (wld s) instance) !! n = Some Column) →
  update_field DB Basic instance validated_data (n, f) s
  = update_field DB Extended instance validated_data (n, f) s.
Proof.
  intros Hf. unfold update_field. destruct (is_nested f); [|done].
  destruct Hf as [Hc Hmeta]; [done|].
  rewrite !(bind_ok _ _ _ _ _ (dict_contains_run validated_data n s)).
  destruct (bool_decide _); [|done].
  rewrite !(bind_ok _ _ _ _ _ (walk_undotted _ _ _ _ _ s Hc)).
  unfold bind at 1 3. by rewrite assign_agree.
Qed.

Lemma update_fields_agree instance validated_data fields (s : state Store) :
  (∀ n f, (n, f) ∈ fields → is_nested f = true →
     contains dot (source f) = false
     ∧ meta (inst_of (wld s) instance) !! n = Some Column) →
  for_each fields (update_field DB Basic instance validated_data) s
  = for_each fields (update_field DB Extended instance validated_data) s.
Proof.
  revert s. induction fields as [|[n f] rest IH]; intros s Hfields; [done|].
  cbn [for_each]. unfold bind.
  rewrite <- update_field_agree
    by (apply (Hfields n f); by apply elem_of_cons; left).
  destruct (update_field DB Basic instance validated_data (n, f) s)
    as [[[]|e] s1] eqn:Hrun; [|done].
  apply IH. intros n' f' Hin Hnested.
  rewrite (meta_update_field Basic instance validated_data (n, f) _ _ _ Hrun).
  apply (Hfields n' f'); [by apply elem_of_cons; right | done].
Qed.

(** X24.  Where the two modules agree.  At root level, when the request
    method can be read, [to_internal_value] is the same in both.
    [create] is the same when the validated data have no plural field.
    [update] is the same when every nested field has a source without a
    dot and is a column of the instance's model (a field that is no
    relation, so that assigning it cannot fail).  The run, its result
    and the final state are equal, for any store and framework. *)
Theorem modules_agree_without_relations fields id_attr self_parent ctx
    (s : state Store) :
  (∀ data rm,
     root_level self_parent = true →
     read_method ctx = Ok rm →
     to_internal_value DB F Basic fields id_attr self_parent ctx data s
     = to_internal_value DB F Extended fields id_attr self_parent ctx data s)
  ∧ (∀ validated_data,
       NoDup (map fst fields) →
       plural_data fields (dict_of (wld s) validated_data) = [] →
       create DB Basic fields validated_data s
       = create DB Extended fields validated_data s)
  ∧ (∀ instance validated_data,
       (∀ n f, (n, f) ∈ fields → is_nested f = true →
          contains dot (source f) = false
          ∧ meta (inst_of (wld s) instance) !! n = Some Column) →
       update DB F Basic fields instance validated_data s
       = update DB F Extended fields instance validated_data s).
Proof.
  split; [|split].
  - intros data rm Hroot Hread. unfold to_internal_value. rewrite Hroot.
    unfold method_of_request. by rewrite Hread.
  - intros validated_data Hnd Hplural. unfold create.
    rewrite !(bind_ok _ _ _ _ _
                (partition_fields_ok fields validated_data [] [] s Hnd
                   ltac:(intros; split; apply not_elem_of_nil))).
    cbn [app fst snd]. by rewrite Hplural.
  - intros instance validated_data Hfields. unfold update, bind.
    by rewrite update_fields_agree.
Qed.

End Modules.

(** ** The date and time fields *)

Section FieldLibrary.
Import Fields.
Local Open Scope Z_scope.
Local Open Scope lib_scope.

Lemma one_pos : 0 < one.
Proof. unfold one. by apply Z.pow_pos_nonneg. Qed.

(** A quotient that is an integer of at most 53 bits is a float, and
    the division gives it. *)
Lemma nearest_exact n d :
  0 < d → Z.abs n < 2 ^ 53 → nearest (n * d) d = Some (n * one).
Proof.
  intros Hd Hn. pose proof one_pos as Hone. unfold nearest.
  rewrite Z.abs_mul, (Z.abs_eq d) by lia.
  replace (Z.abs n * d * one) with (Z.abs n * one * d) by ring.
  rewrite Z.div_mul by lia.
  destruct (Z.eq_dec n 0) as [->|Hn0].
  { rewrite Z.abs_0, !Z.mul_0_l. change (Z.log2 0) with 0.
    rewrite Z.max_l by lia. rewrite Z.pow_0_r, Z.mul_1_r.
    unfold round_half_even. rewrite Zmod_0_l, Zdiv_0_l, Z.mul_0_r.
    rewrite (proj2 (Z.compare_lt_iff 0 (d * 1))) by lia.
    assert (0 < float_limit) as Hlim by (by apply Z.pow_pos_nonneg).
    by rewrite (proj2 (Z.ltb_lt _ _) Hlim). }
  set (L := Z.log2 (Z.abs n)).
  assert (HL : 0 <= L < 53).
  { split; [apply Z.log2_nonneg|]. apply Z.log2_lt_pow2; lia. }
  assert (Hlog : Z.log2 (Z.abs n * one) = 1074 + L).
  { unfold one. apply Z.log2_mul_pow2; lia. }
  rewrite Hlog, Z.max_r by lia.
  replace (1074 + L - 52) with (L + 1022) by lia.
  set (step := 2 ^ (L + 1022)).
  assert (Hstep : 0 < step) by (apply Z.pow_pos_nonneg; lia).
  assert (Hsplit : one = 2 ^ (52 - L) * step).
  { unfold one, step. rewrite <- Z.pow_add_r by lia. f_equal. lia. }
  assert (Ha : Z.abs n * one * d = Z.abs n * 2 ^ (52 - L) * (d * step)).
  { rewrite Hsplit. ring. }
  unfold round_half_even. rewrite Ha, Z_mod_mult, Z.div_mul by lia.
  rewrite Z.mul_0_r, (proj2 (Z.compare_lt_iff 0 (d * step))) by lia.
  replace (Z.abs n * 2 ^ (52 - L) * step) with (Z.abs n * one)
    by (rewrite Hsplit; ring).
  assert (Hlim : Z.abs n * one < float_limit).
  { unfold float_limit, one. rewrite (Z.pow_add_r 2 1024 1074) by lia.
    apply Z.mul_lt_mono_pos_r; [by apply Z.pow_pos_nonneg|].
    eapply Z.lt_trans; [exact Hn|]. by apply Z.pow_lt_mono_r. }
  rewrite (proj2 (Z.ltb_lt _ _) Hlim). f_equal.
  rewrite Z.sgn_mul, (Z.sgn_pos d), Z.mul_1_r by done.
  rewrite Z.mul_assoc, (Z.mul_comm (Z.sgn n)), Z.abs_sgn. done.
Qed.

Lemma true_divide_exact n d :
  0 < d → Z.abs n < 2 ^ 53 → true_divide (n * d) d = Returns (n * one).
Proof. intros. unfold true_divide. by rewrite nearest_exact. Qed.

Lemma float_of_int_exact n :
  Z.abs n < 2 ^ 53 → float_of_int n = Returns (n * one).
Proof.
  intros. unfold float_of_int. rewrite <- (Z.mul_1_r n) at 1.
  by apply true_divide_exact.
Qed.

Lemma int_of_float_exact n : int_of_float (n * one) = n.
Proof. unfold int_of_float. apply Z.quot_mul. pose proof one_pos. lia. Qed.

(** The hours, minutes and seconds of a number of seconds *)
Lemma clock_sum secs :
  secs / 3600 * 3600 + secs mod 3600 / 60 * 60 + secs mod 60 = secs.
Proof.
  pose proof (Z.div_mod secs 3600 ltac:(lia)) as H1.
  pose proof (Z.div_mod (secs mod 3600) 60 ltac:(lia)) as H2.
  rewrite (Z.mod_mod_divide secs 3600 60) in H2 by (by exists 60).
  lia.
Qed.

Lemma clock_unique h m s :
  0 <= h → 0 <= m < 60 → 0 <= s < 60 →
  let secs := h * 3600 + m * 60 + s in
  secs / 3600 = h ∧ secs mod 3600 / 60 = m ∧ secs mod 60 = s.
Proof.
  intros Hh Hm Hs secs.
  assert (H1 : secs / 3600 = h).
  { symmetry. apply (Z.div_unique secs 3600 h (m * 60 + s)); lia. }
  assert (H2 : secs mod 3600 = m * 60 + s).
  { symmetry. apply (Z.mod_unique secs 3600 h (m * 60 + s)); lia. }
  split; [done|]. rewrite H2. split.
  - symmetry. apply (Z.div_unique (m * 60 + s) 60 m s); lia.
  - symmetry. apply (Z.mod_unique secs 60 (h * 60 + m) s); lia.
Qed.

Lemma fromtimestamp_in_range P n :
  min_timestamp <= n <= max_timestamp →
  fromtimestamp P n
  = Returns (DateTime (Date (epoch + n / 86400))
               (Time (n mod 86400 / 3600) (n mod 86400 mod 3600 / 60)
                     (n mod 86400 mod 60) 0 (Some (utc P)) false)).
Proof.
  intros [Hmin Hmax]. unfold fromtimestamp.
  by rewrite (proj2 (Z.leb_le _ _) Hmin), (proj2 (Z.leb_le _ _) Hmax).
Qed.

Lemma int_plain v n : py_int v = Ok n → int (Plain v) = Returns n.
Proof. intros H. unfold int. by rewrite H. Qed.

Lemma timestamp_bits n :
  min_timestamp <= n <= max_timestamp → Z.abs n < 2 ^ 53.
Proof. unfold min_timestamp, max_timestamp. lia. Qed.

End FieldLibrary.

Section FieldProperties.
Import Fields.
Import BaseModelSerializer.
Local Open Scope Z_scope.
Local Open Scope lib_scope.

(** X15.  [TimeField]: a value that [int] converts to a timestamp
    within the years 1 to 9999 goes in as a time of day and comes out
    as the timestamp modulo 86400, the seconds since midnight in UTC;
    the day is lost. *)
Theorem time_field_round_trip P v n :
  py_int v = Ok n →
  min_timestamp <= n <= max_timestamp →
  (t <- TimeField.to_internal_value P (Plain v) ;;
   TimeField.to_representation t)
  = Returns (RInt (n mod 86400)).
Proof.
  intros Hint Hrange. unfold TimeField.to_internal_value.
  rewrite (int_plain v n Hint). cbn [and_then].
  rewrite fromtimestamp_in_range by done.
  unfold TimeField.to_representation, time_of.
  cbn [and_then get_hour get_minute get_second at_time hour minute second
       none_on_attribute_or_type_error].
  by rewrite clock_sum.
Qed.

(** X16.  [TimeField]: a time of day is represented by its whole
    seconds since midnight, a number from 0 to 86399, and that number
    goes in as the same hour, minute and second, with no microseconds
    and no time zone. *)
Theorem time_field_keeps_whole_seconds P t :
  valid_time t →
  ∃ n,
    TimeField.to_representation (ATime t) = Returns (RInt n)
    ∧ 0 <= n < 86400
    ∧ TimeField.to_internal_value P (Plain (VInt n))
      = Returns (ATime (Time (hour t) (minute t) (second t) 0 None false)).
Proof.
  intros (Hh & Hm & Hs & _).
  exists (hour t * 3600 + minute t * 60 + second t).
  split; [done|]. split; [lia|].
  unfold TimeField.to_internal_value. cbn [int py_int and_then].
  rewrite fromtimestamp_in_range by (unfold min_timestamp, max_timestamp; lia).
  unfold time_of.
  cbn [and_then at_time hour minute second microsecond fold].
  rewrite Z.mod_small by lia.
  destruct (clock_unique (hour t) (minute t) (second t)) as (-> & -> & ->);
    [lia | done | done | done].
Qed.

(** X17.  [UnixEpochDateTimeField] (extended module): a value that
    [int] converts to a timestamp within the years 1 to 9999 goes in as
    an aware [datetime] in UTC, and that comes out as the same
    timestamp. *)
Theorem unix_epoch_datetime_round_trip P v n :
  py_int v = Ok n →
  min_timestamp <= n <= max_timestamp →
  (d <- UnixEpochDateTimeField.to_internal_value P (Plain v) ;;
   UnixEpochDateTimeField.to_representation P d)
  = Returns (RInt n).
Proof.
  intros Hint Hrange. unfold UnixEpochDateTimeField.to_internal_value.
  rewrite (int_plain v n Hint). cbn [and_then].
  rewrite fromtimestamp_in_range by done. cbn [and_then].
  unfold UnixEpochDateTimeField.to_representation, timestamp, since_epoch.
  cbn [at_time on_date time_tzinfo toordinal hour minute second microsecond
       utc utcoffset].
  replace ((epoch + n / 86400 - epoch) * 86400 + n mod 86400 / 3600 * 3600
           + n mod 86400 mod 3600 / 60 * 60 + n mod 86400 mod 60 - 0)
    with n.
  2:{ pose proof (clock_sum (n mod 86400)).
      pose proof (Z.div_mod n 86400 ltac:(lia)). lia. }
  rewrite Z.add_0_r, true_divide_exact by (by try apply timestamp_bits).
  cbn [and_then none_on_attribute_or_type_error].
  by rewrite int_of_float_exact.
Qed.

(** X18.  [UnixEpochDateField] on a machine whose local time is [k]
    seconds ahead of UTC (at most a day either way): [to_internal_value]
    reads the timestamp in UTC, [to_representation] reads the result as
    local time.  In the basic module a timestamp [n] comes out as
    [n - k]; in the extended module, which keeps the date only, as the
    midnight of its UTC day, less [k].  Only on a machine on UTC does
    the basic module give the timestamp back. *)
Theorem unix_epoch_date_round_trip P k v n :
  fixed_offset P k →
  -86400 <= k <= 86400 →
  py_int v = Ok n →
  min_timestamp <= n <= max_timestamp →
  (d <- UnixEpochDateField.to_internal_value Basic P (Plain v) ;;
   UnixEpochDateField.to_representation P d)
  = Returns (RInt (n - k))
  ∧ (d <- UnixEpochDateField.to_internal_value Extended P (Plain v) ;;
     UnixEpochDateField.to_representation P d)
    = Returns (RInt (n - n mod 86400 - k)).
Proof.
  intros Hzone Hk Hint Hrange. unfold UnixEpochDateField.to_internal_value.
  rewrite (int_plain v n Hint). cbn [and_then].
  rewrite fromtimestamp_in_range by done. cbn [and_then].
  unfold UnixEpochDateField.to_representation, time_mktime.
  cbn [timetuple and_then date_of at_time on_date toordinal hour minute second].
  rewrite !Hzone. cbn [and_then]. unfold timegm.
  cbn [tm_date tm_hour tm_min tm_sec].
  pose proof (Z.div_mod n 86400 ltac:(lia)) as Hdm.
  pose proof (clock_sum (n mod 86400)) as Hclock.
  pose proof (Z.mod_pos_bound n 86400 ltac:(lia)) as Hmod.
  replace ((epoch + n / 86400 - epoch) * 86400 + n mod 86400 / 3600 * 3600
           + n mod 86400 mod 3600 / 60 * 60 + n mod 86400 mod 60 - k)
    with (n - k) by lia.
  replace ((epoch + n / 86400 - epoch) * 86400 + 0 * 3600 + 0 * 60 + 0 - k)
    with (n - n mod 86400 - k) by lia.
  rewrite !float_of_int_exact
    by (unfold min_timestamp, max_timestamp in Hrange; lia).
  cbn [and_then none_on_attribute_or_type_error].
  by rewrite !int_of_float_exact.
Qed.

(** X19.  [DurationField]: a whole number of seconds within the range
    of [timedelta] (999999999 days either way) goes in as a [timedelta]
    and comes out as the float that holds the same number. *)
Theorem duration_field_round_trip n :
  -999999999 <= n / 86400 <= 999999999 →
  (d <- DurationField.to_internal_value (Plain (VInt n)) ;;
   DurationField.to_representation d)
  = Returns (RFloat (n * one)).
Proof.
  intros [Hlo Hhi]. unfold DurationField.to_internal_value.
  cbn [timedelta_of_seconds].
  rewrite (proj2 (Z.leb_le _ _) Hlo), (proj2 (Z.leb_le _ _) Hhi).
  cbn [andb and_then]. unfold DurationField.to_representation.
  cbn [total_seconds in_microseconds].
  rewrite true_divide_exact; [done | lia |].
  pose proof (Z.div_mod n 86400 ltac:(lia)).
  pose proof (Z.mod_pos_bound n 86400 ltac:(lia)). lia.
Qed.


End FieldProperties.

Section FieldTruncation.
Import Fields.
Local Open Scope Z_scope.
Local Open Scope lib_scope.

(** Microseconds over a million, for less than 2^33 seconds: the float
    lies within the same whole second. *)
Lemma nearest_within_second x S :
  0 <= S < 2 ^ 33 →
  S * 1000000 <= x < (S + 1) * 1000000 →
  ∃ f, nearest x 1000000 = Some f ∧ S * one <= f < (S + 1) * one.
Proof.
  intros HS Hx. pose proof one_pos as Hone.
  destruct (Z.eq_dec x 0) as [->|Hx0].
  { exists 0. split; [by vm_compute|]. lia. }
  unfold nearest. rewrite (Z.abs_eq x), (Z.sgn_pos x), Z.mul_1_l by lia.
  set (sh := Z.max 0 (Z.log2 (x * one / 1000000) - 52)).
  assert (Hsh : 0 <= sh <= 1054).
  { subst sh. split; [lia|]. apply Z.max_lub; [lia|].
    destruct (Z.eq_dec (x * one / 1000000) 0) as [->|Hq]; [by cbn|].
    assert (0 <= x * one / 1000000) by (apply Z.div_pos; lia).
    assert (x * one / 1000000 < 2 ^ 1107).
    { apply Z.div_lt_upper_bound; [lia|].
      replace (2 ^ 1107) with (2 ^ 33 * one)
        by (unfold one; rewrite <- Z.pow_add_r by lia; done).
      nia. }
    assert (Z.log2 (x * one / 1000000) < 1107)
      by (apply Z.log2_lt_pow2; lia).
    lia. }
  set (step := 2 ^ sh).
  set (c := 2 ^ (1074 - sh)).
  assert (Hstep : 0 < step) by (apply Z.pow_pos_nonneg; lia).
  assert (Hc : 2 ^ 20 <= c) by (apply Z.pow_le_mono_r; lia).
  assert (Hsplit : one = c * step).
  { unfold one, c, step. rewrite <- Z.pow_add_r by lia. f_equal. lia. }
  change (2 ^ 20) with 1048576 in Hc.
  set (y := x * c).
  assert (Hdiv : x * one / (1000000 * step) = y / 1000000).
  { rewrite Hsplit, Z.mul_assoc. fold y.
    apply Z.div_mul_cancel_r; lia. }
  set (q := y / 1000000).
  assert (Hq : S * c <= q ∧ q + 1 < (S + 1) * c).
  { pose proof (Z.div_mod y 1000000 ltac:(lia)) as Hdm.
    pose proof (Z.mod_pos_bound y 1000000 ltac:(lia)) as Hm.
    fold q in Hdm. subst y. split; nia. }
  assert (Hround : round_half_even (x * one) (1000000 * step) = q
                   ∨ round_half_even (x * one) (1000000 * step) = q + 1).
  { unfold round_half_even. rewrite Hdiv. fold q.
    destruct (_ ?= _); [destruct (Z.even q)|..]; auto. }
  assert (Hm : S * one <= round_half_even (x * one) (1000000 * step) * step
               < (S + 1) * one).
  { destruct Hround as [-> | ->]; rewrite Hsplit; nia. }
  assert (Hlim : round_half_even (x * one) (1000000 * step) * step
                 < float_limit).
  { eapply Z.lt_le_trans; [apply Hm|].
    unfold float_limit, one. rewrite (Z.pow_add_r 2 1024 1074) by lia.
    apply Z.mul_le_mono_nonneg_r; [by apply Z.pow_nonneg|].
    transitivity (2 ^ 33); [lia|]. by apply Z.pow_le_mono_r. }
  rewrite (proj2 (Z.ltb_lt _ _) Hlim). eexists. split; [reflexivity|]. done.
Qed.

Lemma nearest_opp x d : nearest (- x) d = Z.opp <$> nearest x d.
Proof.
  unfold nearest. rewrite Z.abs_opp, Z.sgn_opp.
  destruct (_ <? _); cbn; [|done]. f_equal. lia.
Qed.

(** Up to 2^33 seconds either way, the division by a million and [int]
    give the whole seconds, the rest dropped towards zero. *)
Lemma seconds_towards_zero x :
  Z.abs x < 2 ^ 33 * 1000000 →
  ∃ f, true_divide x 1000000 = Returns f
       ∧ int_of_float f = Z.quot x 1000000.
Proof.
  intros Hx. pose proof one_pos as Hone.
  assert (Hpos : ∀ x', 0 <= x' < 2 ^ 33 * 1000000 →
    ∃ f, nearest x' 1000000 = Some f ∧ 0 <= f
         ∧ Z.quot f one = x' / 1000000).
  { intros x' Hx'.
    pose proof (Z.div_mod x' 1000000 ltac:(lia)) as Hdm.
    pose proof (Z.mod_pos_bound x' 1000000 ltac:(lia)) as Hm.
    assert (0 <= x' / 1000000 < 2 ^ 33).
    { split; [apply Z.div_pos; lia|]. apply Z.div_lt_upper_bound; lia. }
    destruct (nearest_within_second x' (x' / 1000000)) as (f & Hf & Hlo & Hhi);
      [done | lia |].
    exists f. split; [done|]. split; [nia|].
    rewrite Z.quot_div_nonneg by nia.
    symmetry. apply (Z.div_unique f one (x' / 1000000) (f - x' / 1000000 * one));
      lia. }
  unfold true_divide, int_of_float.
  destruct (Z.le_gt_cases 0 x) as [Hsign|Hsign].
  - destruct (Hpos x) as (f & -> & _ & Hq); [lia|].
    exists f. split; [done|]. rewrite Hq. by rewrite Z.quot_div_nonneg by lia.
  - destruct (Hpos (- x)) as (f & Hf & Hf0 & Hq); [lia|].
    pose proof (nearest_opp (- x) 1000000) as Hopp.
    rewrite Z.opp_involutive, Hf in Hopp. rewrite Hopp. cbn.
    exists (- f). split; [done|].
    rewrite Z.quot_opp_l, Hq by lia.
    rewrite <- (Z.opp_involutive x) at 2.
    rewrite Z.quot_opp_l by lia. by rewrite Z.quot_div_nonneg by lia.
Qed.

(** X21.  [UnixEpochDateTimeField.to_representation] of an aware
    [datetime] less than 2^33 seconds from the epoch (from 1697 to
    2242): the whole seconds from the epoch, the microseconds dropped
    towards zero, so that a time before the epoch is rounded up to the
    next second, not down. *)
Theorem unix_epoch_datetime_drops_fraction P dt tz :
  time_tzinfo (at_time dt) = Some tz →
  Z.abs (since_epoch dt tz) < 2 ^ 33 * 1000000 →
  UnixEpochDateTimeField.to_representation P (ADateTime dt)
  = Returns (RInt (Z.quot (since_epoch dt tz) 1000000)).
Proof.
  intros Htz Hrange.
  unfold UnixEpochDateTimeField.to_representation, timestamp. rewrite Htz.
  destruct (seconds_towards_zero _ Hrange) as (f & -> & Hint).
  cbn [and_then none_on_attribute_or_type_error]. by rewrite Hint.
Qed.

End FieldTruncation.

(** ** The claims on concrete inputs *)

Section Examples.
Import BaseModelSerializer.
Local Open Scope string_scope.

Ltac by_computation := apply (bool_decide_unpack _); vm_compute; exact I.



Lemma example_accepts_sets : accepts_sets Demo.store.
Proof. intros i f v st. by exists st. Qed.

Lemma example_accepts_saves : accepts_saves Demo.store.
Proof. intros i st. by exists st. Qed.

Lemma example_store_down :
  store_down Demo.down_store (DatabaseError "down").
Proof. repeat split; intros; by eexists. Qed.

Ltac is_some := eexists; vm_compute; reflexivity.

(** Payloads 1 and 2 against a queryset that only has record 10, whose
    identifier is 2: identifier 1 is unknown, the batch is rejected. *)
Lemma bulk_update_rejects_unknown_identifier_witness :
  ∃ w2,
    BulkListSerializer.update Demo.store Demo.framework "id" [10]%positive
      [1; 2]%positive (State Demo.bulk_world [])
    = (Raise (ValidationError "Could not find all objects to update."),
       State w2 [EvCount "id" [2; 1]%Z])
    ∧ insts w2 = insts Demo.bulk_world.
Proof.
  destruct (bulk_update_rejects_unknown_identifier Demo.store Demo.framework
              "id" [10]%positive [1; 2]%positive (State Demo.bulk_world [])
              (extracted "id" Demo.bulk_world [1; 2]%positive))
    as (Hrun & Hinsts & _).
  - split; [by_computation | repeat constructor; is_some].
  - intros k Hk. change (k ∈ [1; 2]%Z) in Hk.
    apply elem_of_cons in Hk as [->|Hk];
      [|apply list_elem_of_singleton in Hk as ->]; by_computation.
  - exists 1%Z. split; [by_computation | vm_compute; reflexivity].
  - vm_compute. reflexivity.
  - eexists. split; [exact Hrun | exact Hinsts].
Defined.




(** Creating from a payload with [name] and the to-many [tags] in the
    basic module: the record is created with [name] alone, and the
    assignment of [tags] raises [TypeError]; nothing is related, nothing
    saved. *)
Lemma create_basic_rejects_relation_witness :
  create Demo.store Basic
    [("name", Field KField "name");
     ("tags", Field KManyRelatedField "tags")]
    1%positive (State Demo.create_world [])
  = (Raise TypeError,
     State (World (dicts Demo.create_world)
              {[ 1%positive := Inst Demo.model_meta {[ "name" := VStr "a" ]} ]}
              tt)
           [EvCreate [("name", VStr "a")]]).
Proof.
  apply (create_basic_rejects_relation Demo.store
           [("name", Field KField "name");
            ("tags", Field KManyRelatedField "tags")]
           1%positive (State Demo.create_world [])
           (Inst Demo.model_meta {[ "name" := VStr "a" ]}) tt).
  - by_computation.
  - vm_compute. reflexivity.
  - vm_compute. discriminate.
  - intros n v Hin.
    change ((n, v) ∈ [("tags", VList [VInt 3; VInt 4])]) in Hin.
    apply list_elem_of_singleton in Hin. injection Hin as -> ->.
    vm_compute. reflexivity.
Defined.

(** A serializer nested in another one, given an input with identifier
    7, which the store has: the basic module returns the record, with
    the lookup as the only call. *)
Lemma nested_identifier_resolves_record_witness :
  ∃ s',
    to_internal_value Demo.store Demo.framework Basic
      [("id", Field KField "id")] "id" (Some (Parent CSerializer false))
      NoView 1%positive (State Demo.raw_world [])
    = (Ok (VRec 1), s')
    ∧ log s' = [EvGet "id" (VInt 7)].
Proof.
  destruct (nested_identifier_resolves_record Demo.store
              Demo.framework [("id", Field KField "id")] "id"
              (Some (Parent CSerializer false)) NoView 1%positive
              (State Demo.raw_world []) (VInt 7)
              (Inst Demo.model_meta {[ "id" := VInt 7 ]}) tt)
    as [Hbasic _].
  - reflexivity.
  - vm_compute. reflexivity.
  - reflexivity.
  - eexists. split; [exact Hbasic | reflexivity].
Defined.

(** A PUT under a bulk list serializer: the identifier 7 of the raw
    input is put into the validated mapping. *)
Lemma identifier_injected_on_bulk_put_patch_witness :
  ∃ s',
    to_internal_value Demo.store Demo.framework Basic
      [("id", Field KField "id")] "id"
      (Some (Parent CBulkListSerializer false)) (Request (Some "PUT"))
      1%positive (State Demo.raw_world [])
    = (Ok (VMap 2), s')
    ∧ dict_of (wld s') 2 !! "id" = Some (VInt 7).
Proof.
  destruct (identifier_injected_on_bulk_put_patch Demo.store
              Demo.framework Basic [("id", Field KField "id")] "id"
              (Some (Parent CBulkListSerializer false))
              (Request (Some "PUT")) 1%positive
              (State Demo.raw_world []) 2%positive
              (snd (super_to_internal_value Demo.framework 1%positive
                      Demo.raw_world))
              (VStr "PUT"))
    as [Hinject _].
  - reflexivity.
  - vm_compute. reflexivity.
  - reflexivity.
  - eexists. split.
    + apply Hinject; [reflexivity | discriminate | reflexivity | by eexists].
    + vm_compute. reflexivity.
Defined.


(** The field [attr] with the source [parent.child.attr], on validated
    data that hold the value 7 under [attr] under [child] under
    [parent]: [update] passes the field over.  Record 12, the child of
    the parent of record 10, is not given the value, no record is saved,
    and the parent class's [update] gets the validated data as they
    were. *)
Lemma nested_update_skips_filed_value_witness :
  update Demo.store Demo.framework Basic
    [("attr", Field KSerializer "parent.child.attr")]
    10%positive 1%positive (State Demo.filed_world [])
  = (Ok (VRec 10), State Demo.filed_world [EvSuperUpdate 10 1])
  ∧ attrs (inst_of Demo.filed_world 12) !! "attr" = None.
Proof.
  split; [|vm_compute; reflexivity].
  etrans; [|reflexivity].
  apply (nested_update_skips_filed_value Demo.store Demo.framework Basic
           [] "attr" (Field KSerializer "parent.child.attr") []
           10%positive 1%positive (State Demo.filed_world []) (VInt 7)).
  - reflexivity.
  - reflexivity.
  - apply (filed_step _ "parent.child.attr" 1 2);
      [reflexivity | vm_compute; reflexivity |].
    apply (filed_step _ "child.attr" 2 3);
      [reflexivity | vm_compute; reflexivity |].
    apply filed_here; [reflexivity | vm_compute; reflexivity].
  - vm_compute. reflexivity.
  - constructor.
Defined.

(** C6 as stated fails: a top-of-list PUT under a bulk list serializer
    whose lookup field is the empty name returns the validated mapping
    without the identifier the raw input has under that name. *)
Lemma empty_lookup_field_skips_injection :
  ∃ ret_ s',
    to_internal_value Demo.store Demo.framework Basic
      [("", Field KField "")] ""
      (Some (Parent CBulkListSerializer false)) (Request (Some "PUT"))
      1%positive (State Demo.raw_world [])
    = (Ok (VMap ret_), s')
    ∧ dict_of Demo.raw_world 1 !! "" = Some (VInt 7)
    ∧ dict_of (wld s') ret_ !! "" = None.
Proof.
  eexists _, _. split; [vm_compute; reflexivity|].
  split; vm_compute; reflexivity.
Qed.

End Examples.

(** ** The further properties on concrete inputs *)

Section MoreExamples.
Import BaseModelSerializer.
Local Open Scope string_scope.

Ltac by_computation := apply (bool_decide_unpack _); vm_compute; exact I.
Ltac is_some := eexists; vm_compute; reflexivity.

(** The rejected batch of payloads 1 and 2: payload 1 is left without
    its identifier. *)
Lemma bulk_update_rejection_strips_payloads_witness :
  dict_of (wld (snd (BulkListSerializer.update Demo.store Demo.framework "id"
                       [10]%positive [1; 2]%positive
                       (State Demo.bulk_world [])))) 1
  = {[ "name" := VStr "a" ]}.
Proof.
  destruct (bulk_update_rejection_strips_payloads Demo.store Demo.framework
              "id" [10]%positive [1; 2]%positive (State Demo.bulk_world [])
              (snd (BulkListSerializer.update Demo.store Demo.framework "id"
                      [10]%positive [1; 2]%positive
                      (State Demo.bulk_world [])))
              [2; 1]%Z)
    as (Hstrip & _).
  - split; [by_computation | repeat constructor; is_some].
  - vm_compute. reflexivity.
  - vm_compute. reflexivity.
  - rewrite (Hstrip 1%positive) by set_solver. vm_compute. reflexivity.
Defined.




(** A serializer on its own, used without a view: the basic module
    raises [KeyError], the extended one returns the validated mapping. *)
Lemma root_validation_without_request_witness :
  fst (to_internal_value Demo.store Demo.framework Basic
         [("id", Field KField "id")] "id" None NoView 1%positive
         (State Demo.raw_world []))
  = Raise (KeyError "view")
  ∧ fst (to_internal_value Demo.store Demo.framework Extended
           [("id", Field KField "id")] "id" None NoView 1%positive
           (State Demo.raw_world []))
    = Ok (VMap 2).
Proof.
  destruct (root_validation_without_request Demo.store Demo.framework
              [("id", Field KField "id")] "id" None NoView 1%positive
              (State Demo.raw_world []) 2%positive
              (snd (super_to_internal_value Demo.framework 1%positive
                      Demo.raw_world))
              (KeyError "view"))
    as [Hbasic Hextended].
  - reflexivity.
  - vm_compute. reflexivity.
  - reflexivity.
  - exact (conj (f_equal fst Hbasic) (f_equal fst Hextended)).
Defined.

(** A PUT under a bulk list serializer that declares no [id] field. *)
Lemma injection_needs_identifier_field_witness :
  fst (to_internal_value Demo.store Demo.framework Basic
         [("name", Field KField "name")] "id"
         (Some (Parent CBulkListSerializer false)) (Request (Some "PUT"))
         1%positive (State Demo.raw_world []))
  = Raise (KeyError "id").
Proof.
  rewrite (injection_needs_identifier_field Demo.store Demo.framework Basic
             [("name", Field KField "name")] "id"
             (Some (Parent CBulkListSerializer false))
             (Request (Some "PUT")) 1%positive (State Demo.raw_world [])
             2%positive
             (snd (super_to_internal_value Demo.framework 1%positive
                     Demo.raw_world))
             (VStr "PUT")).
  - reflexivity.
  - reflexivity.
  - vm_compute. reflexivity.
  - reflexivity.
  - reflexivity.
  - discriminate.
  - reflexivity.
  - by_computation.
Defined.

(** A nested serializer given payload 4, which has no identifier: the
    basic module returns the mapping of the standard validation. *)
Lemma nested_without_identifier_witness :
  fst (to_internal_value Demo.store Demo.framework Basic
         [("id", Field KField "id")] "id" (Some (Parent CSerializer false))
         NoView 4%positive (State Demo.bulk_world []))
  = Ok (VMap 5).
Proof.
  destruct (nested_without_identifier Demo.store Demo.framework
              [("id", Field KField "id")] "id"
              (Some (Parent CSerializer false)) NoView 4%positive
              (State Demo.bulk_world []))
    as [Hbasic _].
  - reflexivity.
  - vm_compute. reflexivity.
  - rewrite (Hbasic 5%positive
               (snd (super_to_internal_value Demo.framework 4%positive
                       Demo.bulk_world))); [reflexivity|].
    vm_compute. reflexivity.
Defined.

(** Payload 2 has a key [extra] that the serializer does not declare:
    it creates what payload 1 creates. *)
Lemma create_reads_declared_fields_only_witness :
  create Demo.store Basic [("name", Field KField "name")] 1%positive
    (State Samples.two_payloads [])
  = create Demo.store Basic [("name", Field KField "name")] 2%positive
      (State Samples.two_payloads []).
Proof.
  apply create_reads_declared_fields_only.
  - by_computation.
  - intros n Hn. change (n ∈ ["name"]) in Hn.
    apply list_elem_of_singleton in Hn as ->. vm_compute. reflexivity.
Defined.

(** Creating from the payload with [name] and [tags] leaves the payload
    as it is. *)
Lemma create_keeps_payloads_witness :
  dicts (wld (snd (create Demo.store Extended
                     [("name", Field KField "name");
                      ("tags", Field KManyRelatedField "tags")]
                     1%positive (State Demo.create_world []))))
  = dicts Demo.create_world.
Proof.
  apply (create_keeps_payloads Demo.store Extended
           [("name", Field KField "name");
            ("tags", Field KManyRelatedField "tags")]
           1%positive (State Demo.create_world []) _ _
           (surjective_pairing _)).
Defined.

(** A serializer with plain fields only. *)
Lemma update_without_nested_data_witness :
  update Demo.store Demo.framework Basic
    [("attr", Field KField "attr"); ("parent", Field KField "parent")]
    10%positive 1%positive (State Demo.nested_world [])
  = (Ok (VRec 10), State Demo.nested_world [EvSuperUpdate 10 1]).
Proof.
  rewrite update_without_nested_data.
  - reflexivity.
  - repeat constructor; by left.
Defined.

(** The field [attr] with the source [parent.child]: the source leads
    to payload 2 and record 11; payload 2 has no key [attr], and the
    model of record 11 no field [attr]. *)
Lemma nested_update_leaf_key_missing_witness :
  update Demo.store Demo.framework Basic
    [("attr", Field KSerializer "parent.child")]
    10%positive 1%positive (State Demo.nested_world [])
  = (Raise (KeyError "attr"), State Demo.nested_world [])
  ∧ update Demo.store Demo.framework Extended
      [("attr", Field KSerializer "parent.child")]
      10%positive 1%positive (State Demo.nested_world [])
    = (Raise (FieldDoesNotExist "attr"), State Demo.nested_world []).
Proof.
  assert (Hres : resolves Demo.nested_world "parent.child" 1 10
                   [("parent", 1%positive)] 2 11).
  { apply (resolves_step _ "parent.child" 1 10 2 11 [] 2 11);
      [reflexivity | vm_compute; reflexivity | vm_compute; reflexivity |].
    by apply resolves_here. }
  split.
  - etrans; [|reflexivity].
    apply (nested_update_leaf_key_missing Demo.store Demo.framework Basic
             [] "attr" (Field KSerializer "parent.child") []
             10%positive 1%positive (State Demo.nested_world [])
             [("parent", 1%positive)] 2%positive 11%positive);
      [reflexivity | constructor | is_some | exact Hres
      | vm_compute; reflexivity].
  - etrans; [|reflexivity].
    apply (nested_update_leaf_key_missing Demo.store Demo.framework Extended
             [] "attr" (Field KSerializer "parent.child") []
             10%positive 1%positive (State Demo.nested_world [])
             [("parent", 1%positive)] 2%positive 11%positive);
      [reflexivity | constructor | is_some | exact Hres
      | vm_compute; reflexivity].
Defined.

(** The nested field [attr] with its default source, beside the plain
    field [name], on record 12, whose model has the column [attr]: the
    value of payload 3 is set on record 12, which is saved, and the
    parent class's [update] gets validated data without the key
    [attr]. *)
Lemma update_takes_out_nested_data_witness :
  ∃ w2,
    update Demo.store Demo.framework Basic
      [("attr", Field KSerializer "attr"); ("name", Field KField "name")]
      12%positive 3%positive (State Demo.nested_world [])
    = call (EvSuperUpdate 12 3)
           (super_update Demo.framework 12%positive 3%positive)
           (State w2 [EvSave 12])
    ∧ dict_of w2 3 !! "attr" = None
    ∧ attrs (inst_of w2 12) !! "attr" = Some (VInt 7).
Proof.
  destruct (update_takes_out_nested_data Demo.store Demo.framework Basic
              [("attr", Field KSerializer "attr");
               ("name", Field KField "name")]
              12%positive 3%positive (State Demo.nested_world []))
    as (w2 & Hrun & Hinst & _ & Hgone & _).
  - by_computation.
  - intros n f Hin Hnested.
    change ((n, f) ∈ [("attr", Field KSerializer "attr");
                      ("name", Field KField "name")]) in Hin.
    apply elem_of_cons in Hin as [[= -> ->]|Hin]; [reflexivity|].
    apply list_elem_of_singleton in Hin as [= -> ->]. discriminate.
  - intros n x Hin.
    change ((n, x) ∈ [("attr", VInt 7)]) in Hin.
    apply list_elem_of_singleton in Hin as [= -> ->].
    vm_compute. reflexivity.
  - apply example_accepts_sets.
  - apply example_accepts_saves.
  - exists w2. split; [exact Hrun|]. split.
    + apply (Hgone "attr" (Field KSerializer "attr"));
        [set_solver | reflexivity].
    + rewrite Hinst. vm_compute. reflexivity.
Defined.

(** Payload 4, an item without identifier, on a PUT under a bulk list
    serializer: the validated mapping gets [empty] as identifier, and
    the bulk update raises [TypeError]. *)
Lemma bulk_item_identifier_reaches_update_witness :
  ∃ s',
    to_internal_value Demo.store Demo.framework Basic
      [("id", Field KField "id")] "id"
      (Some (Parent CBulkListSerializer false)) (Request (Some "PUT"))
      4%positive (State Demo.bulk_world [])
    = (Ok (VMap 5), s')
    ∧ fst (BulkListSerializer.update Demo.store Demo.framework "id"
             [10; 11]%positive [5]%positive s')
      = Raise TypeError.
Proof.
  destruct (bulk_item_identifier_reaches_update Demo.store Demo.framework
              Basic [("id", Field KField "id")] "id"
              (Some (Parent CBulkListSerializer false))
              (Request (Some "PUT")) 4%positive
              (State Demo.bulk_world []) 5%positive
              (snd (super_to_internal_value Demo.framework 4%positive
                      Demo.bulk_world))
              (VStr "PUT"))
    as (s' & Hrun & _ & Hempty).
  - reflexivity.
  - vm_compute. reflexivity.
  - reflexivity.
  - reflexivity.
  - discriminate.
  - reflexivity.
  - by eexists.
  - exists s'. split; [exact Hrun|].
    destruct Hempty as [_ Hupdate]; [vm_compute; reflexivity|].
    by rewrite Hupdate.
Defined.


(** Record 12 knows [attr] as a column: both modules update it alike
    from payload 3. *)
Lemma modules_agree_without_relations_witness :
  update Demo.store Demo.framework Basic
    [("attr", Field KSerializer "attr")] 12%positive 3%positive
    (State Demo.nested_world [])
  = update Demo.store Demo.framework Extended
      [("attr", Field KSerializer "attr")] 12%positive 3%positive
      (State Demo.nested_world []).
Proof.
  destruct (modules_agree_without_relations Demo.store Demo.framework
              [("attr", Field KSerializer "attr")] "id" None NoView
              (State Demo.nested_world []))
    as (_ & _ & Hupdate).
  apply Hupdate. intros n f Hin _.
  change ((n, f) ∈ [("attr", Field KSerializer "attr")]) in Hin.
  apply list_elem_of_singleton in Hin as [= -> ->].
  split; vm_compute; reflexivity.
Defined.

(** With the database down, the nested update raises the database's
    error when it comes to saving the leaf record. *)
Lemma store_down_ends_every_run_witness :
  fst (update Demo.down_store Demo.framework Basic
         [("attr", Field KSerializer "parent.child.attr")]
         10%positive 1%positive (State Demo.nested_world []))
  = Raise (DatabaseError "down").
Proof.
  destruct (store_down_ends_every_run Demo.down_store
              Demo.framework (DatabaseError "down"))
    as (_ & _ & Hupdate).
  - apply example_store_down.
  - eapply Hupdate; [apply surjective_pairing|].
    exists [EvSave 12], (EvSave 12). split; [vm_compute; reflexivity|].
    split; [exact I | by apply list_elem_of_singleton].
Defined.

(** The field [attr] with the source [parent.child.attr], on validated
    data that have [attr] at the top and in the leaf payload: record 12,
    the child of the parent of record 10, gets the value and is the
    record saved, and the emptied payloads are pruned away. *)
Lemma nested_update_sets_leaf_and_prunes_witness :
  ∃ w2,
    update Demo.store Demo.framework Basic
      [("attr", Field KSerializer "parent.child.attr")]
      10%positive 1%positive (State Demo.nested_world [])
    = call (EvSuperUpdate 10 1)
           (super_update Demo.framework 10%positive 1%positive)
           (State w2 [EvSave 12])
    ∧ attrs (inst_of w2 12) !! "attr" = Some (VInt 7)
    ∧ dict_of w2 3 = ∅
    ∧ dict_of w2 1 !! "parent" = None.
Proof.
  destruct (nested_update_sets_leaf_and_prunes Demo.store
              Demo.framework Basic []
              "attr" (Field KSerializer "parent.child.attr") []
              10%positive 1%positive (State Demo.nested_world [])
              [("parent", 1%positive); ("child", 2%positive)]
              3%positive 12%positive (VInt 7) tt tt)
    as (w2 & Hrun & Hleaf & _ & Hdl & Hlinks & _).
  - reflexivity.
  - constructor.
  - is_some.
  - apply (resolves_step _ "parent.child.attr" 1 10 2 11
             [("child", 2%positive)] 3 12);
      [reflexivity | vm_compute; reflexivity | vm_compute; reflexivity |].
    apply (resolves_step _ "child.attr" 2 11 3 12 [] 3 12);
      [reflexivity | vm_compute; reflexivity | vm_compute; reflexivity |].
    by apply resolves_here.
  - vm_compute. reflexivity.
  - by_computation.
  - vm_compute. reflexivity.
  - vm_compute. reflexivity.
  - vm_compute. reflexivity.
  - exists w2. split; [exact Hrun|].
    split; [rewrite Hleaf; vm_compute; reflexivity|].
    assert (H3 : dict_of w2 3 = ∅) by (rewrite Hdl; vm_compute; reflexivity).
    split; [exact H3|].
    assert (H2 : dict_of w2 2 = ∅).
    { rewrite (Hlinks 2%positive "child" 3%positive)
        by (cbn; set_solver).
      rewrite decide_True by exact H3. vm_compute. reflexivity. }
    rewrite (Hlinks 1%positive "parent" 2%positive) by (cbn; set_solver).
    rewrite decide_True by exact H2. vm_compute. reflexivity.
Defined.

(** Creating from a payload with [name] and the to-many [tags], in the
    extended module: the record is created with [name] alone, [tags]
    goes through the related manager, then the record is saved. *)
Lemma create_persists_attaches_saves_witness :
  create Demo.store Extended
    [("name", Field KField "name");
     ("tags", Field KManyRelatedField "tags")]
    1%positive (State Demo.create_world [])
  = (Ok (VRec 1),
     State (World (dicts Demo.create_world)
              {[ 1%positive := Inst Demo.model_meta {[ "name" := VStr "a" ]} ]}
              tt)
           [EvCreate [("name", VStr "a")];
            EvRelatedSet 1 "tags" (VList [VInt 3; VInt 4]);
            EvSave 1]).
Proof.
  apply (create_persists_attaches_saves Demo.store Extended
           [("name", Field KField "name");
            ("tags", Field KManyRelatedField "tags")]
           1%positive (State Demo.create_world [])
           (Inst Demo.model_meta {[ "name" := VStr "a" ]}) tt tt tt).
  - by_computation.
  - vm_compute. reflexivity.
  - intros n v Hin.
    change ((n, v) ∈ [("tags", VList [VInt 3; VInt 4])]) in Hin.
    apply list_elem_of_singleton in Hin. injection Hin as -> ->.
    vm_compute. reflexivity.
  - vm_compute. reflexivity.
  - vm_compute. reflexivity.
Defined.

(** Record 20 holds the text ['1'], payload 1 carries the identifier 1:
    the record is found, and updated with [None]. *)
Lemma bulk_update_text_identifier_witness :
  BulkListSerializer.update Samples.text_store Demo.framework "id"
    [20]%positive [1]%positive (State Samples.text_records [])
  = (Ok [VRec 20],
     State (extracted "id" Samples.text_records [1]%positive)
           [EvCount "id" [1]%Z; EvFetch "id" [1]%Z;
            EvChildUpdate (VRec 20) VNone]).
Proof.
  etrans; [|reflexivity].
  apply (bulk_update_text_identifier Samples.text_store Demo.framework "id"
           [20]%positive [1]%positive (State Samples.text_records [])
           20%positive "1"
           (extracted "id" Samples.text_records [1]%positive)
           (extracted "id" Samples.text_records [1]%positive)).
  - split; [by_computation | repeat constructor; is_some].
  - vm_compute. reflexivity.
  - vm_compute. reflexivity.
  - vm_compute. reflexivity.
  - vm_compute. reflexivity.
  - vm_compute. reflexivity.
Defined.

(** The nested field [parent], a to-one relation of record 10, given
    the mapping that the validated data hold under [parent]: the
    descriptor raises [ValueError]; the basic module has taken the key
    out of the validated data, the extended module has not. *)
Lemma update_refused_assignment_witness :
  update Demo.store Demo.framework Basic
    [("parent", Field KSerializer "parent")]
    10%positive 1%positive (State Demo.nested_world [])
  = (Raise ValueError,
     State (set_dict 1 {[ "attr" := VInt 1 ]} Demo.nested_world) [])
  ∧ update Demo.store Demo.framework Extended
      [("parent", Field KSerializer "parent")]
      10%positive 1%positive (State Demo.nested_world [])
    = (Raise ValueError, State Demo.nested_world []).
Proof.
  destruct (update_refused_assignment Demo.store Demo.framework
              [] "parent" (Field KSerializer "parent") []
              10%positive 1%positive (State Demo.nested_world [])
              (VMap 2) ValueError)
    as [Hbasic Hextended].
  - reflexivity.
  - reflexivity.
  - constructor.
  - vm_compute. reflexivity.
  - vm_compute. reflexivity.
  - vm_compute. reflexivity.
  - split; [|exact Hextended].
    etrans; [exact Hbasic|]. vm_compute. reflexivity.
Defined.

End MoreExamples.

Section FieldExamples.
Import Fields.
Import BaseModelSerializer.
Local Open Scope Z_scope.
Local Open Scope lib_scope.

Ltac in_range := unfold min_timestamp, max_timestamp; lia.

(** A day, an hour, a minute and a second after the epoch, as a string:
    the time of day is 01:01:01. *)
Lemma time_field_round_trip_witness :
  (t <- TimeField.to_internal_value (machine 0) (Plain (VStr "90061")) ;;
   TimeField.to_representation t)
  = Returns (RInt 3661).
Proof.
  apply (time_field_round_trip (machine 0) (VStr "90061") 90061);
    [reflexivity | in_range].
Defined.

(** The last microsecond of a day, in a zone an hour ahead of UTC *)
Lemma time_field_keeps_whole_seconds_witness :
  ∃ n,
    TimeField.to_representation
      (ATime (Time 23 59 59 999999 (Some (TzInfo 3600 None)) true))
    = Returns (RInt n)
    ∧ TimeField.to_internal_value (machine 0) (Plain (VInt n))
      = Returns (ATime (Time 23 59 59 0 None false)).
Proof.
  destruct (time_field_keeps_whole_seconds (machine 0)
              (Time 23 59 59 999999 (Some (TzInfo 3600 None)) true))
    as (n & Hout & _ & Hin).
  - unfold valid_time. cbn. lia.
  - exists n. split; [exact Hout | exact Hin].
Defined.

(** The second before the epoch *)
Lemma unix_epoch_datetime_round_trip_witness :
  (d <- UnixEpochDateTimeField.to_internal_value (machine 0)
          (Plain (VInt (-1))) ;;
   UnixEpochDateTimeField.to_representation (machine 0) d)
  = Returns (RInt (-1)).
Proof.
  apply (unix_epoch_datetime_round_trip (machine 0) (VInt (-1)) (-1));
    [reflexivity | in_range].
Defined.

(** An hour after the epoch, on a machine three hours ahead of UTC: the
    basic module answers two hours before the epoch, the extended one
    three hours before it. *)
Lemma unix_epoch_date_round_trip_witness :
  (d <- UnixEpochDateField.to_internal_value Basic (machine 10800)
          (Plain (VInt 3600)) ;;
   UnixEpochDateField.to_representation (machine 10800) d)
  = Returns (RInt (-7200))
  ∧ (d <- UnixEpochDateField.to_internal_value Extended (machine 10800)
            (Plain (VInt 3600)) ;;
     UnixEpochDateField.to_representation (machine 10800) d)
    = Returns (RInt (-10800)).
Proof.
  apply (unix_epoch_date_round_trip (machine 10800) 10800 (VInt 3600) 3600);
    [by intros tm | lia | reflexivity | in_range].
Defined.

(** A minute and a half *)
Lemma duration_field_round_trip_witness :
  (d <- DurationField.to_internal_value (Plain (VInt 90)) ;;
   DurationField.to_representation d)
  = Returns (RFloat (90 * one)).
Proof.
  apply (duration_field_round_trip 90). change (90 / 86400) with 0. lia.
Defined.


(** Half a second before the epoch is represented as 0. *)
Lemma unix_epoch_datetime_drops_fraction_witness :
  UnixEpochDateTimeField.to_representation (machine 0)
    (ADateTime (DateTime (Date 719162)
                  (Time 23 59 59 500000 (Some (TzInfo 0 (Some 0))) false)))
  = Returns (RInt 0).
Proof.
  apply (unix_epoch_datetime_drops_fraction (machine 0)
           (DateTime (Date 719162)
              (Time 23 59 59 500000 (Some (TzInfo 0 (Some 0))) false))
           (TzInfo 0 (Some 0))).
  - reflexivity.
  - change (500000 < 2 ^ 33 * 1000000). lia.
Defined.

End FieldExamples.
